(** * The WhatsApp message store facade (supabase_client.py)

    A shallow embedding of [whatsapp-mcp-server/supabase_client.py]: the
    records the module builds, the remote store it talks to (two tables and
    the query operators the module chains), and the facade operations as
    programs of a state-and-exception monad.  Every [execute()] of the
    source is one remote call; a remote call can raise, and what was written
    before an exception stays written. *)

From Stdlib Require Import List ZArith Bool Ascii String Lia Sorted DecimalString.
Import ListNotations.
Local Open Scope string_scope.
Local Open Scope Z_scope.
Local Open Scope list_scope.

Set Implicit Arguments.

(** ** Python values at the boundary *)

(** [Optional[str]] as it reaches the code: [None] or a string. *)
Definition ostr := option string.

(** Truth value of an optional string: [None] and [''] are falsy. *)
Definition truthy (v : ostr) : bool :=
  match v with
  | Some s => negb (s =? EmptyString)%string
  | None => false
  end.

(** What an f-string prints for the value. *)
Definition pystr (v : ostr) : string :=
  match v with
  | Some s => s
  | None => "None"
  end.

(** [a or b] on optional strings. *)
Definition py_or (a b : ostr) : ostr := if truthy a then a else b.

(** ['@' in s] *)
Fixpoint has_at (s : string) : bool :=
  match s with
  | EmptyString => false
  | String c s' => (c =? "@")%char || has_at s'
  end.

(** [s.split('@')[0]]: the text before the first ['@'] (all of [s] when it
    has none). *)
Fixpoint before_at (s : string) : string :=
  match s with
  | EmptyString => EmptyString
  | String c s' => if (c =? "@")%char then EmptyString else String c (before_at s')
  end.

(** [s.endswith(suffix)] *)
Fixpoint endswith (s suffix : string) : bool :=
  (s =? suffix)%string ||
  match s with
  | EmptyString => false
  | String _ s' => endswith s' suffix
  end.

Definition newline : string := String (ascii_of_nat 10) EmptyString.

(** ** Pattern matching of the store: LIKE and ILIKE

    [%] (and [*], which the REST layer rewrites to [%]) stands for any
    run of characters, [_] for any one character, a backslash takes the
    next pattern character literally.  ILIKE folds ASCII case on both
    sides. *)

Definition is_any_run (c : ascii) : bool := (c =? "%")%char || (c =? "*")%char.
Definition is_any_one (c : ascii) : bool := (c =? "_")%char.
Definition backslash : ascii := ascii_of_nat 92.
Definition is_escape (c : ascii) : bool := (c =? backslash)%char.

Fixpoint like (p s : string) : bool :=
  match p with
  | EmptyString => match s with EmptyString => true | String _ _ => false end
  | String c p' =>
      if is_any_run c then
        (fix skip (t : string) : bool :=
           like p' t || match t with
                        | EmptyString => false
                        | String _ t' => skip t'
                        end) s
      else if is_any_one c then
        match s with
        | EmptyString => false
        | String _ s' => like p' s'
        end
      else if is_escape c then
        match p', s with
        | String c' p'', String d s' => (c' =? d)%char && like p'' s'
        | _, _ => false
        end
      else
        match s with
        | EmptyString => false
        | String d s' => (c =? d)%char && like p' s'
        end
  end.

Definition lower_ascii (c : ascii) : ascii :=
  let n := nat_of_ascii c in
  if (Nat.leb 65 n && Nat.leb n 90)%bool then ascii_of_nat (n + 32) else c.

Fixpoint lower (s : string) : string :=
  match s with
  | EmptyString => EmptyString
  | String c s' => String (lower_ascii c) (lower s')
  end.

Definition ilike (pattern s : string) : bool := like (lower pattern) (lower s).

(** A column that may be NULL never matches (NULL is not true). *)
Definition ilike_col (pattern : string) (v : ostr) : bool :=
  match v with
  | Some s => ilike pattern s
  | None => false
  end.

(** ** Rows of the two remote tables

    [created_at], [updated_at] and [last_message_at] are carried as the
    instant they denote (microseconds on the store's time line); the ISO
    text the store renders them in is not modelled.  Columns that may be
    NULL are optional. *)

Module Conv.
Record row := mk {
    id : string;
    channel : string;
    contact_identifier : string;
    contact_name : ostr;
    status : string;
    last_message_at : option Z
  }.

Definition set_contact_name (name : ostr) (c : row) : row :=
    mk (id c) (channel c) (contact_identifier c) name (status c) (last_message_at c).

Definition set_last_message_at (t : option Z) (c : row) : row :=
    mk (id c) (channel c) (contact_identifier c) (contact_name c) (status c) t.
End Conv.

Module Msg.
  (** [metadata] and [payload] hold the [media_type] tag of the JSON
      mapping stored in the column, when the column is a mapping that has
      one. *)
Record row := mk {
    id : string;
    conversation_id : string;
    channel : string;
    direction : string;
    sender : ostr;
    recipient : ostr;
    body : ostr;
    created_at : Z;
    updated_at : Z;
    topic : string;
    extension : string;
    external_id : ostr;
    metadata : ostr;
    payload : ostr
  }.
End Msg.

(** The embedded parent of a message row:
    [conversations!inner(contact_identifier, contact_name)]. *)
Module Embed.
Record t := mk {
    contact_identifier : string;
    contact_name : ostr
  }.
End Embed.

(** A message row as the client hands it over: the columns, and under the
    key ['conversations'] the embedded parent when the select asked for it. *)
Module Row.
Record t := mk {
    columns : Msg.row;
    conversations : option Embed.t
  }.
End Row.

(** ** Records of the module *)

Module Message.
Record t := mk {
    timestamp : Z;
    sender : ostr;
    content : ostr;
    is_from_me : bool;
    chat_jid : string;
    id : string;
    chat_name : ostr;
    media_type : ostr
  }.
End Message.

Module Contact.
Record t := mk {
    phone_number : string;
    name : ostr;
    jid : string
  }.
End Contact.

Module MessageContext.
Record t := mk {
    message : Message.t;
    before : list Message.t;
    after : list Message.t
  }.
End MessageContext.

(** ** Exceptions and outcomes *)

Inductive exn : Type :=
| ValueError (msg : string)
| TypeError (msg : string)
| IndexError (msg : string)
| APIError (msg : string).

(** [str(e)] *)
Definition str_exn (e : exn) : string :=
  match e with
  | ValueError m => m
  | TypeError m => m
  | IndexError m => m
  | APIError m => m
  end.

Inductive outcome (A : Type) : Type :=
| Ok (a : A)
| Raise (e : exn).
Arguments Ok {A} a.
Arguments Raise {A} e.

(** ** The remote store and the process around it *)

Module Store.
Record t := mk {
    conversations : list Conv.row;
    messages : list Msg.row
  }.
End Store.

(** [env_ok]: SUPABASE_URL and SUPABASE_KEY are both set.  [client]: the
    global [_supabase_client] has been created.  [faults]: what the next
    remote calls meet, one entry per [execute()]: [Some e] makes the call
    raise [e] before it has any effect; past the end of the list calls go
    through.  [clock]: what [datetime.utcnow()] reads.  [stdout]: the lines
    printed so far. *)
Module World.
Record t := mk {
    env_ok : bool;
    client : bool;
    db : Store.t;
    faults : list (option exn);
    clock : Z;
    stdout : list string
  }.

Definition set_client (b : bool) (w : t) : t :=
    mk (env_ok w) b (db w) (faults w) (clock w) (stdout w).
Definition set_db (d : Store.t) (w : t) : t :=
    mk (env_ok w) (client w) d (faults w) (clock w) (stdout w).
Definition set_faults (f : list (option exn)) (w : t) : t :=
    mk (env_ok w) (client w) (db w) f (clock w) (stdout w).
Definition add_stdout (line : string) (w : t) : t :=
    mk (env_ok w) (client w) (db w) (faults w) (clock w) (stdout w ++ [line]).
End World.

(** What the module takes from outside its own code: the store's default
    for an [id] column (computed from the ids in use), and the two
    [datetime] routines. *)
Class Library := {
  new_id : list string -> string;
  fromisoformat : string -> outcome Z;
  strftime : Z -> string
}.

(** ** The monad of the facade: state and exceptions *)

Definition M (A : Type) : Type := World.t -> outcome A * World.t.

Definition ret {A} (a : A) : M A := fun w => (Ok a, w).

Definition bind {A B} (m : M A) (k : A -> M B) : M B :=
  fun w =>
    match m w with
    | (Ok a, w') => k a w'
    | (Raise e, w') => (Raise e, w')
    end.

Definition raise {A} (e : exn) : M A := fun w => (Raise e, w).

(** [try: body except Exception as e: handler e] *)
Definition try_except {A} (body : M A) (handler : exn -> M A) : M A :=
  fun w =>
    match body w with
    | (Ok a, w') => (Ok a, w')
    | (Raise e, w') => handler e w'
    end.

Definition print (line : string) : M unit :=
  fun w => (Ok tt, World.add_stdout line w).

Definition utcnow : M Z := fun w => (Ok (World.clock w), w).

Definition lift {A} (o : outcome A) : M A := fun w => (o, w).

Notation "x <- m ;; k" := (bind m (fun x => k))
  (at level 61, m at next level, right associativity).
Notation "m ;; k" := (bind m (fun _ => k))
  (at level 61, right associativity).

(** A query is run against the tables and may change them. *)
Definition Query (A : Type) : Type := Store.t -> outcome A * Store.t.

Definition reading {A} (f : Store.t -> outcome A) : Query A :=
  fun d => (f d, d).

(** [.execute()]: the next entry of [faults] decides whether the call
    goes through. *)
Definition execute {A} (q : Query A) : M A :=
  fun w =>
    match World.faults w with
    | Some e :: rest => (Raise e, World.set_faults rest w)
    | None :: rest =>
        let (r, d) := q (World.db w) in
        (r, World.set_db d (World.set_faults rest w))
    | [] =>
        let (r, d) := q (World.db w) in
        (r, World.set_db d w)
    end.

(** ** Query operators of the store *)

(** [.order(...)]: a stable sort; rows that tie keep the table's order. *)
Fixpoint insert_by {A} (le : A -> A -> bool) (x : A) (l : list A) : list A :=
  match l with
  | [] => [x]
  | y :: l' => if le x y then x :: l else y :: insert_by le x l'
  end.

Definition order_by {A} (le : A -> A -> bool) (rows : list A) : list A :=
  fold_right (insert_by le) [] rows.

(** [.limit(n)]: the store refuses a negative count. *)
Definition limit {A} (n : Z) (rows : list A) : outcome (list A) :=
  if n <? 0 then Raise (APIError "LIMIT must not be negative")
  else Ok (firstn (Z.to_nat n) rows).

(** [.range(start, end)] is sent as offset [start], limit [end - start + 1]. *)
Definition range {A} (start stop : Z) (rows : list A) : outcome (list A) :=
  if start <? 0 then Raise (APIError "OFFSET must not be negative")
  else limit (stop - start + 1) (skipn (Z.to_nat start) rows).

(** What the store answers a single-row fetch that does not find exactly
    one row. *)
Definition not_found : exn :=
  APIError "JSON object requested, multiple (or no) rows returned".

(** [.single()]: exactly one row, or the request fails. *)
Definition single {A} (rows : list A) : outcome (option A) :=
  match rows with
  | [r] => Ok (Some r)
  | _ => Raise not_found
  end.

Definition embed (c : Conv.row) : Embed.t :=
  Embed.mk (Conv.contact_identifier c) (Conv.contact_name c).

(** The parent of a message row: conversation ids are the primary key. *)
Definition parent (conversations : list Conv.row) (m : Msg.row) : option Conv.row :=
  find (fun c => (Conv.id c =? Msg.conversation_id m)%string) conversations.

(** A message row with its embedded parent; the inner join drops a message
    without parent. *)
Definition joined (conversations : list Conv.row) (m : Msg.row) : list Row.t :=
  match parent conversations m with
  | Some c => [Row.mk m (Some (embed c))]
  | None => []
  end.

(** [table('messages').select('*, conversations!inner(contact_identifier,
    contact_name)')] *)
Definition select_messages (d : Store.t) : list Row.t :=
  flat_map (joined (Store.conversations d)) (Store.messages d).

Definition created_at (row : Row.t) : Z := Msg.created_at (Row.columns row).

Definition created_asc (a b : Row.t) : bool := created_at a <=? created_at b.
Definition created_desc (a b : Row.t) : bool := created_at b <=? created_at a.

(** Ascending by [contact_name] with [nullsfirst=False]. *)
Definition contact_name_asc (a b : Conv.row) : bool :=
  match Conv.contact_name a, Conv.contact_name b with
  | Some x, Some y => String.leb x y
  | Some _, None => true
  | None, Some _ => false
  | None, None => true
  end.

Definition is_whatsapp (channel : string) : bool := (channel =? "whatsapp")%string.

(** [table('conversations').update(change).eq(...)...]: every row that
    passes the filter is changed; no match is not an error. *)
Definition update_conversations (change : Conv.row -> Conv.row)
    (keep : Conv.row -> bool) : Query (list Conv.row) :=
  fun d =>
    (Ok (map change (filter keep (Store.conversations d))),
     Store.mk (map (fun c => if keep c then change c else c) (Store.conversations d))
              (Store.messages d)).

Section Facade.
Context {L : Library}.

(** [table('conversations').insert({...})]: the store gives the row its
    id and refuses a duplicate of the primary key. *)
Definition insert_conversation (channel contact_identifier : string)
    (contact_name : ostr) (status : string) : Query (list Conv.row) :=
  fun d =>
    let used := map Conv.id (Store.conversations d) in
    let c := Conv.mk (new_id used) channel contact_identifier contact_name status None in
    if existsb (String.eqb (Conv.id c)) used
    then (Raise (APIError "duplicate key value violates unique constraint"), d)
    else (Ok [c], Store.mk (Store.conversations d ++ [c]) (Store.messages d)).

(** [table('messages').insert(message_data)]: [message_data] has every
    column but the id; the parent must exist. *)
Definition insert_message (message_data : string -> Msg.row) : Query (list Msg.row) :=
  fun d =>
    let used := map Msg.id (Store.messages d) in
    let m := message_data (new_id used) in
    if existsb (String.eqb (Msg.id m)) used
    then (Raise (APIError "duplicate key value violates unique constraint"), d)
    else match parent (Store.conversations d) m with
         | None => (Raise (APIError "violates foreign key constraint"), d)
         | Some _ => (Ok [m], Store.mk (Store.conversations d) (Store.messages d ++ [m]))
         end.

Definition get_supabase : M unit :=
  fun w =>
    if World.client w then (Ok tt, w)
    else if World.env_ok w then (Ok tt, World.set_client true w)
    else (Raise (ValueError "SUPABASE_URL and SUPABASE_KEY environment variables are required"), w).

(** [result.data and result.data[0].get('contact_name')] on a
    [select('contact_name')] *)
Definition has_contact_name (data : list ostr) : bool :=
  match data with
  | name :: _ => truthy name
  | [] => false
  end.

(** [result.data[0]['contact_name']] *)
Definition data0 (data : list ostr) : ostr :=
  match data with
  | name :: _ => name
  | [] => None
  end.

Definition contact_name_eq (jid : string) : Query (list ostr) :=
  reading (fun d =>
    limit 1 (map Conv.contact_name
      (filter (fun c => (Conv.contact_identifier c =? jid)%string
                        && is_whatsapp (Conv.channel c))
              (Store.conversations d)))).

Definition contact_name_ilike (pattern : string) : Query (list ostr) :=
  reading (fun d =>
    limit 1 (map Conv.contact_name
      (filter (fun c => ilike pattern (Conv.contact_identifier c)
                        && is_whatsapp (Conv.channel c))
              (Store.conversations d)))).

(** The [try] block of [get_sender_name].  The annotation says [str]; a
    message row with a NULL sender hands [None] over, which the filter
    prints as text and the ['@' in ...] test rejects. *)
Definition get_sender_name_try (sender_jid : ostr) : M ostr :=
  get_supabase ;;
  result <- execute (contact_name_eq (pystr sender_jid)) ;;
  if has_contact_name result then ret (data0 result)
  else
    phone_part <- match sender_jid with
                  | Some s => ret (if has_at s then before_at s else s)
                  | None => raise (TypeError "argument of type 'NoneType' is not iterable")
                  end ;;
    result <- execute (contact_name_ilike ("%" ++ phone_part ++ "%")%string) ;;
    if has_contact_name result then ret (data0 result)
    else ret sender_jid.

Definition get_sender_name (sender_jid : ostr) : M ostr :=
  try_except (get_sender_name_try sender_jid)
    (fun e =>
       print ("Database error while getting sender name: " ++ str_exn e)%string ;;
       ret sender_jid).

(** The text [format_message] has built before its [try] block. *)
Definition format_message_head (message : Message.t) (show_chat_info : bool) : string :=
  if show_chat_info && truthy (Message.chat_name message)
  then ("[" ++ strftime (Message.timestamp message) ++ "] Chat: "
            ++ pystr (Message.chat_name message) ++ " ")%string
  else ("[" ++ strftime (Message.timestamp message) ++ "] ")%string.

Definition content_prefix (message : Message.t) : string :=
  if truthy (Message.media_type message)
  then ("[" ++ pystr (Message.media_type message) ++ " - Message ID: "
            ++ Message.id message ++ " - Chat JID: " ++ Message.chat_jid message ++ "] ")%string
  else EmptyString.

Definition format_message (message : Message.t) (show_chat_info : bool) : M string :=
  let output := format_message_head message show_chat_info in
  try_except
    (sender_name <- (if negb (Message.is_from_me message)
                     then get_sender_name (Message.sender message)
                     else ret (Some "Me")) ;;
     ret (output ++ "From: " ++ pystr sender_name ++ ": " ++ content_prefix message
                 ++ pystr (Message.content message) ++ newline)%string)
    (fun e =>
       print ("Error formatting message: " ++ str_exn e)%string ;;
       ret output).

Fixpoint format_each (messages : list Message.t) (show_chat_info : bool)
    (output : string) : M string :=
  match messages with
  | [] => ret output
  | message :: rest =>
      line <- format_message message show_chat_info ;;
      format_each rest show_chat_info (output ++ line)%string
  end.

Definition format_messages_list (messages : list Message.t) (show_chat_info : bool)
    : M string :=
  match messages with
  | [] => ret "No messages to display."
  | _ :: _ => format_each messages show_chat_info EmptyString
  end.

Definition _row_to_message (row : Row.t) (conversation_name : ostr) : Message.t :=
  let r := Row.columns row in
  let timestamp := Msg.created_at r in
  let is_from_me := (Msg.direction r =? "outbound")%string in
  let media_type := Msg.metadata r in
  let media_type := if negb (truthy media_type) then Msg.payload r else media_type in
  let conversation := Row.conversations row in
  let chat_jid := if is_from_me then Msg.recipient r else Msg.sender r in
  let chat_jid :=
    if negb (truthy chat_jid)
    then match conversation with
         | Some c => Embed.contact_identifier c
         | None => EmptyString
         end
    else pystr chat_jid in
  Message.mk timestamp (Msg.sender r) (Msg.body r) is_from_me chat_jid (Msg.id r)
    (py_or conversation_name
           (match conversation with
            | Some c => Embed.contact_name c
            | None => None
            end))
    media_type.

(** The three remote reads of [get_message_context]. *)
Definition message_by_id (message_id : string) : Query (option Row.t) :=
  reading (fun d =>
    single (filter (fun row => (Msg.id (Row.columns row) =? message_id)%string)
                   (select_messages d))).

Definition messages_before (conversation_id : string) (target_timestamp : Z)
    (before : Z) : Query (list Row.t) :=
  reading (fun d =>
    limit before
      (order_by created_desc
        (filter (fun row => (Msg.conversation_id (Row.columns row) =? conversation_id)%string
                            && (created_at row <? target_timestamp))
                (select_messages d)))).

Definition messages_after (conversation_id : string) (target_timestamp : Z)
    (after : Z) : Query (list Row.t) :=
  reading (fun d =>
    limit after
      (order_by created_asc
        (filter (fun row => (Msg.conversation_id (Row.columns row) =? conversation_id)%string
                            && (target_timestamp <? created_at row))
                (select_messages d)))).

Definition get_message_context_try (message_id : string) (before after : Z)
    : M MessageContext.t :=
  get_supabase ;;
  result <- execute (message_by_id message_id) ;;
  match result with
  | None =>
      raise (ValueError ("Message with ID " ++ message_id ++ " not found")%string)
  | Some data =>
      let target_message := _row_to_message data None in
      let conversation_id := Msg.conversation_id (Row.columns data) in
      let target_timestamp := created_at data in
      before_result <- execute (messages_before conversation_id target_timestamp before) ;;
      let before_messages := map (fun row => _row_to_message row None) (rev before_result) in
      after_result <- execute (messages_after conversation_id target_timestamp after) ;;
      let after_messages := map (fun row => _row_to_message row None) after_result in
      ret (MessageContext.mk target_message before_messages after_messages)
  end.

Definition get_message_context (message_id : string) (before after : Z)
    : M MessageContext.t :=
  try_except (get_message_context_try message_id before after)
    (fun e =>
       print ("Database error: " ++ str_exn e)%string ;;
       raise e).

(** The filters [list_messages] adds to its query, in the order of the
    source. *)
Definition after_filter (after_dt : option Z) (row : Row.t) : bool :=
  match after_dt with
  | Some t => t <=? created_at row
  | None => true
  end.

Definition before_filter (before_dt : option Z) (row : Row.t) : bool :=
  match before_dt with
  | Some t => created_at row <=? t
  | None => true
  end.

Definition sender_filter (sender_phone_number : ostr) (row : Row.t) : bool :=
  if truthy sender_phone_number
  then match Msg.sender (Row.columns row) with
       | Some s => (s =? pystr sender_phone_number)%string
       | None => false
       end
  else true.

Definition chat_filter (chat_jid : ostr) (row : Row.t) : bool :=
  if truthy chat_jid
  then match Row.conversations row with
       | Some c => (Embed.contact_identifier c =? pystr chat_jid)%string
       | None => false
       end
  else true.

Definition body_filter (query : ostr) (row : Row.t) : bool :=
  if truthy query
  then ilike_col ("%" ++ pystr query ++ "%")%string (Msg.body (Row.columns row))
  else true.

(** Truth value of a list. *)
Definition nonempty {A} (l : list A) : bool :=
  match l with
  | [] => false
  | _ :: _ => true
  end.

(** [datetime.fromisoformat(s)] when [s] is given and not empty. *)
Definition parse_bound (s : ostr) : M (option Z) :=
  if truthy s
  then t <- lift (fromisoformat (pystr s)) ;; ret (Some t)
  else ret None.

(** The loop over [messages] that splices each context window in. *)
Fixpoint expand_context (messages : list Message.t) (context_before context_after : Z)
    (messages_with_context : list Message.t) : M (list Message.t) :=
  match messages with
  | [] => ret messages_with_context
  | msg :: rest =>
      context <- get_message_context (Message.id msg) context_before context_after ;;
      expand_context rest context_before context_after
        (messages_with_context ++ MessageContext.before context
           ++ [MessageContext.message context] ++ MessageContext.after context)
  end.

Definition list_messages_try (after before sender_phone_number chat_jid query : ostr)
    (limit page : Z) (include_context : bool) (context_before context_after : Z)
    : M string :=
  get_supabase ;;
  after_dt <- parse_bound after ;;
  before_dt <- parse_bound before ;;
  let offset := page * limit in
  result <- execute (reading (fun d =>
    range offset (offset + limit - 1)
      (order_by created_desc
        (filter (fun row => is_whatsapp (Msg.channel (Row.columns row))
                            && after_filter after_dt row
                            && before_filter before_dt row
                            && sender_filter sender_phone_number row
                            && chat_filter chat_jid row
                            && body_filter query row)
                (select_messages d))))) ;;
  let messages := map (fun row => _row_to_message row None) result in
  if include_context && nonempty messages
  then
    messages_with_context <- expand_context messages context_before context_after [] ;;
    format_messages_list messages_with_context true
  else format_messages_list messages true.

Definition list_messages (after before sender_phone_number chat_jid query : ostr)
    (limit page : Z) (include_context : bool) (context_before context_after : Z)
    : M string :=
  try_except
    (list_messages_try after before sender_phone_number chat_jid query limit page
       include_context context_before context_after)
    (fun e =>
       print ("Database error: " ++ str_exn e)%string ;;
       ret ("Error: " ++ str_exn e)%string).

(** The read of [search_contacts]: [or_] joins the two substring tests on
    the name and on the identifier. *)
Definition contacts_matching (query : string) : Query (list Conv.row) :=
  reading (fun d =>
    limit 50
      (order_by contact_name_asc
        (filter (fun c => is_whatsapp (Conv.channel c)
                          && negb (ilike "%@g.us" (Conv.contact_identifier c))
                          && (ilike_col ("%" ++ query ++ "%")%string (Conv.contact_name c)
                              || ilike ("%" ++ query ++ "%")%string (Conv.contact_identifier c)))
                (Store.conversations d)))).

Definition to_contact (row : Conv.row) : Contact.t :=
  let jid := Conv.contact_identifier row in
  Contact.mk (if has_at jid then before_at jid else jid) (Conv.contact_name row) jid.

Definition search_contacts (query : string) : M (list Contact.t) :=
  try_except
    (get_supabase ;;
     result <- execute (contacts_matching query) ;;
     ret (map to_contact result))
    (fun e =>
       print ("Database error: " ++ str_exn e)%string ;;
       ret []).

Definition conversation_id_of (conversation_jid : string) : Query (list string) :=
  reading (fun d =>
    limit 1 (map Conv.id
      (filter (fun c => (Conv.contact_identifier c =? conversation_jid)%string
                        && is_whatsapp (Conv.channel c))
              (Store.conversations d)))).

Definition save_message_try (conversation_jid sender recipient body direction : string)
    (external_id media_type : ostr) (timestamp : option Z) : M ostr :=
  get_supabase ;;
  conv_result <- execute (conversation_id_of conversation_jid) ;;
  conversation_id <-
    match conv_result with
    | id0 :: _ => ret id0
    | [] =>
        new_conv <- execute (insert_conversation "whatsapp" conversation_jid None "active") ;;
        match new_conv with
        | c :: _ => ret (Conv.id c)
        | [] => raise (IndexError "list index out of range")
        end
    end ;;
  now <- match timestamp with
         | Some t => ret t
         | None => utcnow
         end ;;
  let message_data := fun id0 =>
    Msg.mk id0 conversation_id "whatsapp" direction (Some sender) (Some recipient)
      (Some body) now now "chat" "text" external_id
      (if truthy media_type then media_type else None) None in
  result <- execute (insert_message message_data) ;;
  execute (update_conversations (Conv.set_last_message_at (Some now))
             (fun c => (Conv.id c =? conversation_id)%string)) ;;
  ret (match result with
       | m :: _ => Some (Msg.id m)
       | [] => None
       end).

Definition save_message (conversation_jid sender recipient body direction : string)
    (external_id media_type : ostr) (timestamp : option Z) : M ostr :=
  try_except
    (save_message_try conversation_jid sender recipient body direction
       external_id media_type timestamp)
    (fun e =>
       print ("Error saving message: " ++ str_exn e)%string ;;
       ret None).

Definition update_contact_name_try (jid name : string) : M bool :=
  get_supabase ;;
  execute (update_conversations (Conv.set_contact_name (Some name))
             (fun c => (Conv.contact_identifier c =? jid)%string
                       && is_whatsapp (Conv.channel c))) ;;
  ret true.

Definition update_contact_name (jid name : string) : M bool :=
  try_except (update_contact_name_try jid name)
    (fun e =>
       print ("Error updating contact name: " ++ str_exn e)%string ;;
       ret false).

End Facade.

(** ** Vocabulary of the statements *)

(** The store handle can be had: the client exists or the environment
    allows creating it. *)
Definition ready (w : World.t) : bool := World.client w || World.env_ok w.

(** What the next remote call meets. *)
Definition next_fault (w : World.t) : option exn :=
  match World.faults w with
  | f :: _ => f
  | [] => None
  end.

(** No remote call ahead fails. *)
Definition quiet (w : World.t) : bool :=
  forallb (fun f => match f with None => true | Some _ => false end) (World.faults w).

(** The world after a remote call that went through without changing the
    tables. *)
Definition after_call (w : World.t) : World.t :=
  World.set_faults (tl (World.faults w)) w.

(** The rows the joined select holds under a message id. *)
Definition rows_with_id (d : Store.t) (message_id : string) : list Row.t :=
  filter (fun row => (Msg.id (Row.columns row) =? message_id)%string) (select_messages d).

(** A message of a context window comes from a row of the given
    conversation. *)
Definition in_conversation (d : Store.t) (conversation_id : string) (m : Message.t) : Prop :=
  exists row, In row (select_messages d)
              /\ Msg.conversation_id (Row.columns row) = conversation_id
              /\ m = _row_to_message row None.

Definition chronological (ms : list Message.t) : Prop :=
  StronglySorted (fun a b => Message.timestamp a <= Message.timestamp b) ms.

(** ** A concrete library and store for the worked scenarios *)

Definition demo_library : Library :=
  {| new_id := fun used =>
       ("r" ++ NilEmpty.string_of_uint (Nat.to_uint (List.length used)))%string;
     fromisoformat := fun s =>
       if (s =? "1970-01-01T00:00:00")%string then Ok 0
       else Raise (ValueError ("Invalid isoformat string: " ++ s)%string);
     strftime := fun t => ("T" ++ NilEmpty.string_of_int (Z.to_int t))%string |}.

Definition alice : Conv.row :=
  Conv.mk "c1" "whatsapp" "123@s.whatsapp.net" (Some "Alice") "active" (Some 30).

Definition family : Conv.row :=
  Conv.mk "c2" "whatsapp" "555-777@g.us" (Some "Family") "active" None.

Definition text (id0 conversation_id direction : string) (sender recipient : ostr)
    (body : string) (t : Z) : Msg.row :=
  Msg.mk id0 conversation_id "whatsapp" direction sender recipient (Some body) t t
    "chat" "text" None None None.

Definition m1 : Msg.row :=
  text "m1" "c1" "inbound" (Some "123@s.whatsapp.net") (Some "me@s.whatsapp.net") "hi" 10.
Definition m2 : Msg.row :=
  text "m2" "c1" "outbound" (Some "me@s.whatsapp.net") (Some "123@s.whatsapp.net") "hello" 20.
Definition m3 : Msg.row :=
  text "m3" "c1" "inbound" (Some "123@s.whatsapp.net") None "bye" 30.
Definition m4 : Msg.row :=
  text "m4" "c2" "inbound" (Some "555@s.whatsapp.net") None "all" 15.

Definition demo_store : Store.t := Store.mk [alice; family] [m1; m2; m3; m4].

Definition demo_world : World.t := World.mk true false demo_store [] 100 [].

Definition empty_world : World.t := World.mk true false (Store.mk [] []) [] 100 [].

(** The store is out of reach at every call. *)
Definition offline (w : World.t) : World.t :=
  World.set_faults (repeat (Some (APIError "connection refused")) 8) w.

(** ** Vocabulary for [get_sender_name] *)

(** The part of a jid the second lookup searches for. *)
Definition phone_part (sender_jid : string) : string :=
  if has_at sender_jid then before_at sender_jid else sender_jid.

(** [s.startswith(prefix)] *)
Fixpoint startswith (s prefix : string) {struct prefix} : bool :=
  match prefix with
  | EmptyString => true
  | String c prefix' =>
      match s with
      | EmptyString => false
      | String d s' => (c =? d)%char && startswith s' prefix'
      end
  end.

(** [part in s] *)
Fixpoint contains (part s : string) : bool :=
  startswith s part
  || match s with
     | EmptyString => false
     | String _ s' => contains part s'
     end.

(** A character that stands for itself in a pattern. *)
Definition literal (c : ascii) : bool :=
  negb (is_any_run c || is_any_one c || is_escape c).

Fixpoint all_literal (s : string) : bool :=
  match s with
  | EmptyString => true
  | String c s' => literal c && all_literal s'
  end.

(** The WhatsApp conversations whose identifier is the given one, and
    those whose identifier matches a pattern, in table order. *)
Definition exact_rows (d : Store.t) (jid : string) : list Conv.row :=
  filter (fun c => (Conv.contact_identifier c =? jid)%string && is_whatsapp (Conv.channel c))
         (Store.conversations d).

Definition fuzzy_rows (d : Store.t) (part : string) : list Conv.row :=
  filter (fun c => ilike ("%" ++ part ++ "%")%string (Conv.contact_identifier c)
                   && is_whatsapp (Conv.channel c))
         (Store.conversations d).

(** The display name of the first row, when it has one that is not
    empty. *)
Definition first_name (rows : list Conv.row) : ostr :=
  match rows with
  | c :: _ => if truthy (Conv.contact_name c) then Conv.contact_name c else None
  | [] => None
  end.

(** The resolution rule read as: the name stored with a conversation of
    exactly this identifier; with no such conversation, the name of one
    whose identifier contains the phone part; with none of either, the
    input. *)
Definition resolves_by_identifier (d : Store.t) (sender_jid : string) (r : ostr) : Prop :=
  (exists c, In c (Store.conversations d)
             /\ Conv.contact_identifier c = sender_jid /\ r = Conv.contact_name c)
  \/ ((forall c, In c (Store.conversations d) -> Conv.contact_identifier c <> sender_jid)
      /\ exists c, In c (Store.conversations d)
                   /\ contains (phone_part sender_jid) (Conv.contact_identifier c) = true
                   /\ r = Conv.contact_name c)
  \/ ((forall c, In c (Store.conversations d) -> Conv.contact_identifier c <> sender_jid)
      /\ (forall c, In c (Store.conversations d) ->
                    contains (phone_part sender_jid) (Conv.contact_identifier c) = false)
      /\ r = Some sender_jid).

(** The same rule read with "a conversation that has a display name" in
    both places. *)
Definition resolves_by_named (d : Store.t) (sender_jid : string) (r : ostr) : Prop :=
  let exact c := Conv.contact_identifier c = sender_jid /\ truthy (Conv.contact_name c) = true in
  let close c := contains (phone_part sender_jid) (Conv.contact_identifier c) = true
                 /\ truthy (Conv.contact_name c) = true in
  (exists c, In c (Store.conversations d) /\ exact c /\ r = Conv.contact_name c)
  \/ ((forall c, In c (Store.conversations d) -> ~ exact c)
      /\ exists c, In c (Store.conversations d) /\ close c /\ r = Conv.contact_name c)
  \/ ((forall c, In c (Store.conversations d) -> ~ exact c)
      /\ (forall c, In c (Store.conversations d) -> ~ close c)
      /\ r = Some sender_jid).

(** A conversation as [save_message] creates it, without a name yet, and
    a group the same number takes part in. *)
Definition unnamed : Conv.row :=
  Conv.mk "c1" "whatsapp" "123@s.whatsapp.net" None "active" None.

Definition group_of_123 : Conv.row :=
  Conv.mk "c2" "whatsapp" "123-1600000000@g.us" (Some "Family") "active" None.

Definition unnamed_world : World.t :=
  World.mk true false (Store.mk [unnamed; group_of_123] []) [] 100 [].

(** The scenario of the specification: one conversation, Alice. *)
Definition alice_world : World.t :=
  World.mk true false (Store.mk [alice] []) [] 100 [].

(** A message of the demo store whose sender has to be resolved. *)
Definition incoming : Message.t :=
  _row_to_message (Row.mk m4 (Some (embed family))) None.

(** ** Vocabulary for the context window *)

(** The rows of the anchor's conversation created strictly before it, and
    strictly after it. *)
Definition rows_before (d : Store.t) (anchor : Row.t) : list Row.t :=
  filter (fun row => (Msg.conversation_id (Row.columns row)
                      =? Msg.conversation_id (Row.columns anchor))%string
                     && (created_at row <? created_at anchor))
         (select_messages d).

Definition rows_after (d : Store.t) (anchor : Row.t) : list Row.t :=
  filter (fun row => (Msg.conversation_id (Row.columns row)
                      =? Msg.conversation_id (Row.columns anchor))%string
                     && (created_at anchor <? created_at row))
         (select_messages d).

Definition to_message (row : Row.t) : Message.t := _row_to_message row None.

(** The anchor of the worked scenario: message [m2] of Alice's
    conversation. *)
Definition anchor_m2 : Row.t := Row.mk m2 (Some (embed alice)).

(** ** Vocabulary for [save_message] *)

(** What the last update of [save_message] does to a conversation row. *)
Definition touch (conversation_id : string) (now : Z) (c : Conv.row) : Conv.row :=
  if (Conv.id c =? conversation_id)%string
  then Conv.set_last_message_at (Some now) c
  else c.

(** The conversation row [save_message] inserts for a new identifier. *)
Definition new_conversation (id0 conversation_jid : string) : Conv.row :=
  Conv.mk id0 "whatsapp" conversation_jid None "active" None.

(** The message row [save_message] inserts. *)
Definition new_message (id0 conversation_id sender recipient body direction : string)
    (external_id media_type : ostr) (now : Z) : Msg.row :=
  Msg.mk id0 conversation_id "whatsapp" direction (Some sender) (Some recipient)
    (Some body) now now "chat" "text" external_id
    (if truthy media_type then media_type else None) None.

(** The rows of a conversation table that carry a given identifier, on
    any channel. *)
Definition rows_of_identifier (d : Store.t) (jid : string) : list Conv.row :=
  filter (fun c => (Conv.contact_identifier c =? jid)%string) (Store.conversations d).

(** The empty store after one outbound message to a new identifier, and
    after a second message, inbound, for the same identifier. *)
Definition saved_once : World.t :=
  snd (save_message (L:=demo_library) "123@s.whatsapp.net" "me@s.whatsapp.net"
         "123@s.whatsapp.net" "hello" "outbound" None None None empty_world).

Definition saved_twice : World.t :=
  snd (save_message (L:=demo_library) "123@s.whatsapp.net" "123@s.whatsapp.net"
         "me@s.whatsapp.net" "hi there" "inbound" None (Some "image") (Some 150)
         saved_once).

(** How one call of [save_message] for [jid] can leave the conversation
    table, whatever fails on the way: as it was, with one conversation
    touched, or, when no WhatsApp conversation had the identifier, with
    the new conversation appended (and possibly touched). *)
Definition conversations_step (jid : string) (d d' : Store.t) : Prop :=
  exists conversation_id now,
    Store.conversations d' = Store.conversations d
    \/ Store.conversations d' = map (touch conversation_id now) (Store.conversations d)
    \/ (exact_rows d jid = []
        /\ (Store.conversations d'
            = Store.conversations d ++ [new_conversation conversation_id jid]
            \/ Store.conversations d'
               = map (touch conversation_id now)
                   (Store.conversations d ++ [new_conversation conversation_id jid]))).

(** ** The chat listings and lookups *)

Module Chat.
Record t := mk {
  jid : string;
  name : ostr;
  last_message_time : option Z;
  last_message : ostr;
  last_sender : ostr;
  last_is_from_me : option bool
}.

(** The [is_group] property. *)
Definition is_group (chat : t) : bool := endswith (jid chat) "@g.us".
End Chat.

(** The three keys [get_chat] and [get_direct_chat_by_contact] add for the
    latest message; they are set together or not at all. *)
Module Last.
Record t := mk {
  last_message : ostr;
  last_sender : ostr;
  last_is_from_me : bool
}.
End Last.

(** The mapping [get_chat], [get_direct_chat_by_contact] and
    [get_contact_chats] build for a conversation. *)
Module ChatInfo.
Record t := mk {
  jid : string;
  name : ostr;
  last_message_time : option Z;
  last : option Last.t
}.
End ChatInfo.

(** Where the source leaves the place of NULLs in an ordering to the
    client library and the store ([order] without [nullsfirst]). *)
Class Defaults := {
  nulls_first : bool
}.

Definition msg_created_desc (a b : Msg.row) : bool := Msg.created_at b <=? Msg.created_at a.

(** Descending by [last_message_at]; [nulls] says whether NULLs come
    first. *)
Definition last_message_at_desc (nulls : bool) (a b : Conv.row) : bool :=
  match Conv.last_message_at a, Conv.last_message_at b with
  | Some x, Some y => y <=? x
  | Some _, None => negb nulls
  | None, Some _ => nulls
  | None, None => true
  end.

(** [table('messages').select(...).eq('conversation_id', id)
    .order('created_at', desc=True).limit(1)]: the latest message of a
    conversation; no join, no channel filter. *)
Definition last_message_of (conversation_id : string) : Query (list Msg.row) :=
  reading (fun d =>
    limit 1
      (order_by msg_created_desc
        (filter (fun m => (Msg.conversation_id m =? conversation_id)%string)
                (Store.messages d)))).

(** The filter behind [or_] in [list_chats], for a query that is a value
    of a filter list ([or_value]); without a query every row passes. *)
Definition chat_query_filter (query : ostr) (c : Conv.row) : bool :=
  if truthy query
  then ilike_col ("%" ++ pystr query ++ "%")%string (Conv.contact_name c)
       || ilike ("%" ++ pystr query ++ "%")%string (Conv.contact_identifier c)
  else true.

Definition chat_of_row (row : Conv.row) : Chat.t :=
  Chat.mk (Conv.contact_identifier row) (Conv.contact_name row)
    (Conv.last_message_at row) None None None.

(** The three assignments after [if last_msg.data:] in [list_chats]. *)
Definition set_last (chat : Chat.t) (m : Msg.row) : Chat.t :=
  Chat.mk (Chat.jid chat) (Chat.name chat) (Chat.last_message_time chat)
    (Msg.body m) (Msg.sender m) (Some (Msg.direction m =? "outbound")%string).

(** The loop of [list_chats] over the rows of the listing. *)
Fixpoint list_chats_loop (rows : list Conv.row) (include_last_message : bool)
    (chats : list Chat.t) : M (list Chat.t) :=
  match rows with
  | [] => ret chats
  | row :: rest =>
      chat <- (if include_last_message && truthy (Some (Conv.id row))
               then
                 last_msg <- execute (last_message_of (Conv.id row)) ;;
                 match last_msg with
                 | m :: _ => ret (set_last (chat_of_row row) m)
                 | [] => ret (chat_of_row row)
                 end
               else ret (chat_of_row row)) ;;
      list_chats_loop rest include_last_message (chats ++ [chat])
  end.

Definition chats_listing (query : ostr) (limit page : Z) (sort_by : string)
    : Query (list Conv.row) :=
  reading (fun d =>
    let offset := page * limit in
    range offset (offset + limit - 1)
      (order_by (if (sort_by =? "last_active")%string
                 then last_message_at_desc false
                 else contact_name_asc)
        (filter (fun c => is_whatsapp (Conv.channel c) && chat_query_filter query c)
                (Store.conversations d)))).

Definition list_chats_try (query : ostr) (limit page : Z) (include_last_message : bool)
    (sort_by : string) : M (list Chat.t) :=
  get_supabase ;;
  result <- execute (chats_listing query limit page sort_by) ;;
  list_chats_loop result include_last_message [].

Definition list_chats (query : ostr) (limit page : Z) (include_last_message : bool)
    (sort_by : string) : M (list Chat.t) :=
  try_except (list_chats_try query limit page include_last_message sort_by)
    (fun e =>
       print ("Database error: " ++ str_exn e)%string ;;
       ret []).

Definition chat_info (row : Conv.row) : ChatInfo.t :=
  ChatInfo.mk (Conv.contact_identifier row) (Conv.contact_name row)
    (Conv.last_message_at row) None.

(** The follow-up read of [get_chat] and [get_direct_chat_by_contact]
    and the three keys it adds. *)
Definition add_last (row : Conv.row) : M ChatInfo.t :=
  last_msg <- execute (last_message_of (Conv.id row)) ;;
  match last_msg with
  | m :: _ =>
      ret (ChatInfo.mk (Conv.contact_identifier row) (Conv.contact_name row)
             (Conv.last_message_at row)
             (Some (Last.mk (Msg.body m) (Msg.sender m)
                      (Msg.direction m =? "outbound")%string)))
  | [] => ret (chat_info row)
  end.

Section ContactChats.
Context {D : Defaults}.

Definition contact_chats (jid : string) (limit page : Z) : Query (list Conv.row) :=
  reading (fun d =>
    range (page * limit) ((page + 1) * limit - 1)
      (order_by (last_message_at_desc nulls_first)
        (filter (fun c => is_whatsapp (Conv.channel c)
                          && (Conv.contact_identifier c =? jid)%string)
                (Store.conversations d)))).

Definition get_contact_chats (jid : string) (limit page : Z) : M (list ChatInfo.t) :=
  try_except
    (get_supabase ;;
     result <- execute (contact_chats jid limit page) ;;
     ret (map chat_info result))
    (fun e =>
       print ("Database error: " ++ str_exn e)%string ;;
       ret []).

End ContactChats.

Definition conversation_by_identifier (jid : string) : Query (list Conv.row) :=
  reading (fun d =>
    limit 1
      (filter (fun c => (Conv.contact_identifier c =? jid)%string
                        && is_whatsapp (Conv.channel c))
              (Store.conversations d))).

Definition get_chat_try (chat_jid : string) (include_last_message : bool)
    : M (option ChatInfo.t) :=
  get_supabase ;;
  result <- execute (conversation_by_identifier chat_jid) ;;
  match result with
  | [] => ret None
  | row :: _ =>
      if include_last_message && truthy (Some (Conv.id row))
      then chat <- add_last row ;; ret (Some chat)
      else ret (Some (chat_info row))
  end.

Definition get_chat (chat_jid : string) (include_last_message : bool)
    : M (option ChatInfo.t) :=
  try_except (get_chat_try chat_jid include_last_message)
    (fun e =>
       print ("Database error: " ++ str_exn e)%string ;;
       ret None).

Definition direct_conversation (sender_phone_number : string) : Query (list Conv.row) :=
  reading (fun d =>
    limit 1
      (filter (fun c => is_whatsapp (Conv.channel c)
                        && ilike ("%" ++ sender_phone_number ++ "%")%string
                                 (Conv.contact_identifier c)
                        && negb (ilike "%@g.us" (Conv.contact_identifier c)))
              (Store.conversations d))).

Definition get_direct_chat_by_contact_try (sender_phone_number : string)
    : M (option ChatInfo.t) :=
  get_supabase ;;
  result <- execute (direct_conversation sender_phone_number) ;;
  match result with
  | [] => ret None
  | row :: _ =>
      if truthy (Some (Conv.id row))
      then chat <- add_last row ;; ret (Some chat)
      else ret (Some (chat_info row))
  end.

Definition get_direct_chat_by_contact (sender_phone_number : string)
    : M (option ChatInfo.t) :=
  try_except (get_direct_chat_by_contact_try sender_phone_number)
    (fun e =>
       print ("Database error: " ++ str_exn e)%string ;;
       ret None).

Section LastInteraction.
Context {L : Library}.

Definition get_last_interaction_try (jid : string) : M ostr :=
  get_supabase ;;
  conv_result <- execute (conversation_by_identifier jid) ;;
  match conv_result with
  | [] => ret None
  | conv :: _ =>
      let conversation_id := Conv.id conv in
      let contact_name := Conv.contact_name conv in
      msg_result <- execute (last_message_of conversation_id) ;;
      match msg_result with
      | [] => ret None
      | m :: _ =>
          let message := _row_to_message (Row.mk m None) contact_name in
          line <- format_message message true ;;
          ret (Some line)
      end
  end.

Definition get_last_interaction (jid : string) : M ostr :=
  try_except (get_last_interaction_try jid)
    (fun e =>
       print ("Database error: " ++ str_exn e)%string ;;
       ret None).

End LastInteraction.

(** ** Vocabulary for the listings *)

(** The window [get_message_context] builds around a row, as one list. *)
Definition context_window (d : Store.t) (before after : Z) (row : Row.t)
    : list Message.t :=
  map to_message
      (rev (firstn (Z.to_nat before) (order_by created_desc (rows_before d row))))
  ++ [to_message row]
  ++ map to_message (firstn (Z.to_nat after) (order_by created_asc (rows_after d row))).

(** What [parse_bound] makes of a date argument. *)
Definition bound {L : Library} (s : ostr) : outcome (option Z) :=
  if truthy s
  then match fromisoformat (pystr s) with
       | Ok t => Ok (Some t)
       | Raise e => Raise e
       end
  else Ok None.

(** The filters of [list_messages] taken together. *)
Definition passes (after_dt before_dt : option Z)
    (sender_phone_number chat_jid query : ostr) (row : Row.t) : bool :=
  is_whatsapp (Msg.channel (Row.columns row))
  && after_filter after_dt row
  && before_filter before_dt row
  && sender_filter sender_phone_number row
  && chat_filter chat_jid row
  && body_filter query row.

(** The line [format_message] writes for a message once the name of its
    sender is settled. *)
Definition message_line {L : Library} (message : Message.t) (show_chat_info : bool)
    (sender_name : ostr) : string :=
  (format_message_head message show_chat_info ++ "From: " ++ pystr sender_name ++ ": "
     ++ content_prefix message ++ pystr (Message.content message) ++ newline)%string.

(** Lines put one after the other. *)
Fixpoint join_lines (lines : list string) : string :=
  match lines with
  | [] => EmptyString
  | line :: rest => (line ++ join_lines rest)%string
  end.


(** The three keys for the latest message, from its row. *)
Definition last_of (m : Msg.row) : Last.t :=
  Last.mk (Msg.body m) (Msg.sender m) (Msg.direction m =? "outbound")%string.

(** Two conversation rows that differ at most in the last-message time. *)
Definition same_but_time (a b : Conv.row) : Prop :=
  Conv.id a = Conv.id b
  /\ Conv.channel a = Conv.channel b
  /\ Conv.contact_identifier a = Conv.contact_identifier b
  /\ Conv.contact_name a = Conv.contact_name b
  /\ Conv.status a = Conv.status b.

(** ** Vocabulary for the chat listings *)

(** The conversations a listing ranges over, in its order, before the
    page is cut out. *)
Definition listed (query : ostr) (sort_by : string) (d : Store.t) : list Conv.row :=
  order_by (if (sort_by =? "last_active")%string
            then last_message_at_desc false
            else contact_name_asc)
    (filter (fun c => is_whatsapp (Conv.channel c) && chat_query_filter query c)
            (Store.conversations d)).

(** The page [page] of [limit] rows. *)
Definition page_of {A} (limit page : Z) (rows : list A) : list A :=
  firstn (Z.to_nat limit) (skipn (Z.to_nat (page * limit)) rows).

(** The latest message of a conversation: the first in descending order
    of creation. *)
Definition latest (d : Store.t) (conversation_id : string) : option Msg.row :=
  match order_by msg_created_desc
          (filter (fun m => (Msg.conversation_id m =? conversation_id)%string)
                  (Store.messages d)) with
  | m :: _ => Some m
  | [] => None
  end.

(** The entry [list_chats] makes for a row when its follow-up read goes
    through. *)
Definition chat_summary (d : Store.t) (include_last_message : bool) (row : Conv.row)
    : Chat.t :=
  if include_last_message && truthy (Some (Conv.id row))
  then match latest d (Conv.id row) with
       | Some m => set_last (chat_of_row row) m
       | None => chat_of_row row
       end
  else chat_of_row row.

(** Descending by last-message time, as far as both chats have one. *)
Definition later_first (a b : Chat.t) : Prop :=
  match Chat.last_message_time a, Chat.last_message_time b with
  | Some x, Some y => y <= x
  | _, _ => True
  end.

(** Three conversations last active on day 1, day 3 and day 2. *)
Definition day (id0 jid : string) (t : Z) : Conv.row :=
  Conv.mk id0 "whatsapp" jid None "active" (Some t).

Definition three_days : World.t :=
  World.mk true false
    (Store.mk [day "c1" "1@s.whatsapp.net" 1; day "c2" "3@s.whatsapp.net" 3;
               day "c3" "2@s.whatsapp.net" 2] [])
    [] 100 [].

(** ** Vocabulary for the chat summaries *)

(** [m] is a message of the conversation and none of its messages is
    newer. *)
Definition newest_in (d : Store.t) (conversation_id : string) (m : Msg.row) : Prop :=
  In m (Store.messages d)
  /\ Msg.conversation_id m = conversation_id
  /\ forall x, In x (Store.messages d) -> Msg.conversation_id x = conversation_id ->
               Msg.created_at x <= Msg.created_at m.

(** The conversation has no message. *)
Definition silent (d : Store.t) (conversation_id : string) : Prop :=
  forall x, In x (Store.messages d) -> Msg.conversation_id x <> conversation_id.

(** The summary fields of an entry of [list_chats] are those of the
    newest message of a conversation with the entry's identifier, or
    they are all unset and the conversation has no id or no message. *)
Definition summarised (d : Store.t) (chat : Chat.t) : Prop :=
  exists row,
    In row (Store.conversations d)
    /\ Chat.jid chat = Conv.contact_identifier row
    /\ match Chat.last_is_from_me chat with
       | Some from_me =>
           exists m,
             newest_in d (Conv.id row) m
             /\ Chat.last_message chat = Msg.body m
             /\ Chat.last_sender chat = Msg.sender m
             /\ from_me = (Msg.direction m =? "outbound")%string
       | None =>
           Chat.last_message chat = None
           /\ Chat.last_sender chat = None
           /\ (Conv.id row = EmptyString \/ silent d (Conv.id row))
       end.

(** The rows of a page for which [list_chats] makes a follow-up read. *)
Definition lookups (rows : list Conv.row) : list Conv.row :=
  filter (fun row => truthy (Some (Conv.id row))) rows.

(** The answer of [get_chat] and [get_direct_chat_by_contact] for a row
    when the follow-up read goes through. *)
Definition chat_info_summary (d : Store.t) (include_last_message : bool)
    (row : Conv.row) : ChatInfo.t :=
  if include_last_message && truthy (Some (Conv.id row))
  then match latest d (Conv.id row) with
       | Some m => ChatInfo.mk (Conv.contact_identifier row) (Conv.contact_name row)
                     (Conv.last_message_at row) (Some (last_of m))
       | None => chat_info row
       end
  else chat_info row.

(** The rows [get_direct_chat_by_contact] chooses from, in table order. *)
Definition direct_rows (d : Store.t) (sender_phone_number : string) : list Conv.row :=
  filter (fun c => is_whatsapp (Conv.channel c)
                   && ilike ("%" ++ sender_phone_number ++ "%")%string
                            (Conv.contact_identifier c)
                   && negb (ilike "%@g.us" (Conv.contact_identifier c)))
         (Store.conversations d).

(** What an answer of the single-chat lookups says about the store: it
    is the entry of a WhatsApp conversation, and a summary, when there is
    one, is that of the newest message of the conversation. *)
Definition describes (d : Store.t) (row : Conv.row) (chat : ChatInfo.t) : Prop :=
  In row (Store.conversations d)
  /\ is_whatsapp (Conv.channel row) = true
  /\ ChatInfo.jid chat = Conv.contact_identifier row
  /\ ChatInfo.name chat = Conv.contact_name row
  /\ ChatInfo.last_message_time chat = Conv.last_message_at row
  /\ match ChatInfo.last chat with
     | Some l => exists m, newest_in d (Conv.id row) m /\ l = last_of m
     | None => True
     end.

(** The demo store when the second remote call from now fails. *)
Definition second_call_fails : World.t :=
  World.set_faults [None; Some (APIError "timeout")] demo_world.

(** Descending by last-message time, as far as both entries have one. *)
Definition later_first_info (a b : ChatInfo.t) : Prop :=
  match ChatInfo.last_message_time a, ChatInfo.last_message_time b with
  | Some x, Some y => y <= x
  | _, _ => True
  end.

(** Two WhatsApp conversations under one identifier. *)
Definition alice_twice : World.t :=
  World.mk true false
    (Store.mk [alice; Conv.mk "c9" "whatsapp" "123@s.whatsapp.net" None "active" (Some 40)]
              [m1])
    [] 100 [].

(** The rows [list_messages] lists on a page: those that pass the
    filters, newest first. *)
Definition listed_rows (after_dt before_dt : option Z)
    (sender_phone_number chat_jid query : ostr) (limit page : Z) (d : Store.t)
    : list Row.t :=
  page_of limit page
    (order_by created_desc
       (filter (passes after_dt before_dt sender_phone_number chat_jid query)
               (select_messages d))).

(** The conversations [search_contacts] chooses from, in table order. *)
Definition contact_rows (d : Store.t) (query : string) : list Conv.row :=
  filter (fun c => is_whatsapp (Conv.channel c)
                   && negb (ilike "%@g.us" (Conv.contact_identifier c))
                   && (ilike_col ("%" ++ query ++ "%")%string (Conv.contact_name c)
                       || ilike ("%" ++ query ++ "%")%string (Conv.contact_identifier c)))
         (Store.conversations d).

(** ** Values inside an [or_] filter list

    [or_] hands its text to the store as one list of filters, in which a
    comma and a closing parenthesis end a value and a double quote opens
    a quoted one.  The filters written for [or_] in this file give the
    store's reading for a text free of these characters (the opening
    parenthesis is left out with them). *)
Definition reserved (c : ascii) : bool :=
  (c =? ",")%char || (c =? "(")%char || (c =? ")")%char || (c =? ascii_of_nat 34)%char.

Fixpoint or_value (s : string) : bool :=
  match s with
  | EmptyString => true
  | String c s' => negb (reserved c) && or_value s'
  end.

(** * Properties *)

Unset Implicit Arguments.

(** ** The world and the monad *)

Lemma set_client_same (w : World.t) :
  World.client w = true -> World.set_client true w = w.
Proof. destruct w; simpl; intros ->; reflexivity. Qed.

Lemma get_supabase_ready (w : World.t) :
  ready w = true -> get_supabase w = (Ok tt, World.set_client true w).
Proof.
  unfold ready, get_supabase. intros H.
  destruct (World.client w) eqn:C.
  - rewrite set_client_same by assumption. reflexivity.
  - simpl in H. rewrite H. reflexivity.
Qed.

Lemma get_supabase_unready (w : World.t) :
  ready w = false -> exists msg, get_supabase w = (Raise (ValueError msg), w).
Proof.
  unfold ready, get_supabase. intros H.
  apply orb_false_iff in H as [-> ->]. eexists; reflexivity.
Qed.

Lemma execute_through {A} (q : Query A) (w : World.t) :
  next_fault w = None ->
  execute q w = (fst (q (World.db w)), World.set_db (snd (q (World.db w))) (after_call w)).
Proof.
  unfold next_fault, execute, after_call.
  destruct w as [e c d f k o]; simpl.
  destruct f as [|[x|] rest]; simpl; intros H; try discriminate;
    destruct (q d); reflexivity.
Qed.

Lemma execute_fault {A} (q : Query A) (w : World.t) (e : exn) :
  next_fault w = Some e -> execute q w = (Raise e, after_call w).
Proof.
  unfold next_fault, execute, after_call.
  destruct w as [v c d f k o]; simpl.
  destruct f as [|[x|] rest]; simpl; intros H; try discriminate.
  injection H as ->. reflexivity.
Qed.

Lemma set_db_same (w : World.t) : World.set_db (World.db w) w = w.
Proof. destruct w; reflexivity. Qed.

Lemma execute_reading {A} (f : Store.t -> outcome A) (w : World.t) :
  next_fault w = None -> execute (reading f) w = (f (World.db w), after_call w).
Proof.
  intros H. rewrite execute_through by assumption.
  unfold reading; simpl. destruct w; reflexivity.
Qed.

Lemma quiet_next (w : World.t) : quiet w = true -> next_fault w = None.
Proof.
  unfold quiet, next_fault. destruct (World.faults w) as [|[e|] rest]; simpl;
    intros H; try reflexivity; discriminate.
Qed.

Lemma quiet_after_call (w : World.t) : quiet w = true -> quiet (after_call w) = true.
Proof.
  unfold quiet, after_call. destruct w as [v c d f k o]; simpl.
  destruct f as [|[e|] rest]; simpl; intros H; try assumption; discriminate.
Qed.

Lemma quiet_set_client (b : bool) (w : World.t) :
  quiet (World.set_client b w) = quiet w.
Proof. reflexivity. Qed.

Lemma next_fault_set_client (b : bool) (w : World.t) :
  next_fault (World.set_client b w) = next_fault w.
Proof. reflexivity. Qed.

Lemma db_after_call (w : World.t) : World.db (after_call w) = World.db w.
Proof. reflexivity. Qed.

Lemma db_set_client (b : bool) (w : World.t) :
  World.db (World.set_client b w) = World.db w.
Proof. reflexivity. Qed.

(** ** [_row_to_message] *)

Lemma row_to_message_timestamp (row : Row.t) (name : ostr) :
  Message.timestamp (_row_to_message row name) = created_at row.
Proof. reflexivity. Qed.

(** C7. The chat identifier of the message built from a row is the row's
    recipient when the direction is outbound and its sender otherwise;
    when that field is absent or empty it is the identifier of the
    embedded parent conversation. *)
Theorem row_to_message_chat_jid :
  forall (row : Row.t) (conversation_name : ostr),
    Message.is_from_me (_row_to_message row conversation_name)
      = (Msg.direction (Row.columns row) =? "outbound")%string
    /\ (forall s,
          (if (Msg.direction (Row.columns row) =? "outbound")%string
           then Msg.recipient (Row.columns row)
           else Msg.sender (Row.columns row)) = Some s ->
          s <> EmptyString ->
          Message.chat_jid (_row_to_message row conversation_name) = s)
    /\ (forall c,
          (if (Msg.direction (Row.columns row) =? "outbound")%string
           then Msg.recipient (Row.columns row)
           else Msg.sender (Row.columns row)) = None
          \/ (if (Msg.direction (Row.columns row) =? "outbound")%string
              then Msg.recipient (Row.columns row)
              else Msg.sender (Row.columns row)) = Some EmptyString ->
          Row.conversations row = Some c ->
          Message.chat_jid (_row_to_message row conversation_name)
            = Embed.contact_identifier c).
Proof.
  intros row name. unfold _row_to_message; simpl.
  split; [reflexivity|]. split.
  - intros s Hs Hne. rewrite Hs. simpl.
    destruct (String.eqb_spec s EmptyString) as [E|E]; [contradiction|reflexivity].
  - intros c [Hs|Hs] Hc; rewrite Hs, Hc; reflexivity.
Qed.

(** ** [update_contact_name] *)

Lemma map_unchanged {A} (keep : A -> bool) (change : A -> A) (l : list A) :
  (forall x, In x l -> keep x = false) ->
  map (fun x => if keep x then change x else x) l = l.
Proof.
  induction l as [|x l IH]; simpl; intros H; [reflexivity|].
  rewrite (H x) by (left; reflexivity).
  rewrite IH by (intros y Hy; apply H; right; assumption). reflexivity.
Qed.

(** C10. With the store handle at hand, [update_contact_name] answers
    [True] exactly when the remote update does not raise; a call that
    matches no conversation still answers [True] and leaves the tables as
    they were. *)
Theorem update_contact_name_flag :
  forall (jid name : string) (w : World.t),
    ready w = true ->
    fst (update_contact_name jid name w)
      = Ok (match next_fault w with None => true | Some _ => false end)
    /\ (next_fault w = None ->
        (forall c, In c (Store.conversations (World.db w)) ->
                   Conv.contact_identifier c <> jid) ->
        World.db (snd (update_contact_name jid name w)) = World.db w).
Proof.
  intros jid name w Hr.
  unfold update_contact_name, update_contact_name_try, try_except, bind.
  rewrite get_supabase_ready by assumption.
  destruct (next_fault w) as [e|] eqn:F.
  - rewrite (execute_fault _ (World.set_client true w) e) by assumption.
    simpl. split; [reflexivity|discriminate].
  - rewrite execute_through by assumption. simpl.
    split; [reflexivity|]. intros _ Hno.
    rewrite map_unchanged.
    + destruct (World.db w); reflexivity.
    + intros c Hc. apply andb_false_iff. left.
      apply String.eqb_neq. apply Hno. assumption.
Qed.

(** Witness of [update_contact_name_flag]: a name given to an identifier
    the store does not know. *)
Lemma update_contact_name_flag_witness :
  fst (update_contact_name "999@s.whatsapp.net" "Zed" demo_world) = Ok true
  /\ World.db (snd (update_contact_name "999@s.whatsapp.net" "Zed" demo_world))
     = World.db demo_world.
Proof.
  destruct (update_contact_name_flag "999@s.whatsapp.net" "Zed" demo_world eq_refl)
    as [H1 H2].
  split; [exact H1|].
  apply H2; [reflexivity|].
  simpl. intros c [<-|[<-|[]]]; discriminate.
Defined.

(** ** A missing anchor *)

Lemma filter_joined_absent (conversations : list Conv.row) (messages : list Msg.row)
    (message_id : string) :
  (forall m, In m messages -> Msg.id m <> message_id) ->
  filter (fun row => (Msg.id (Row.columns row) =? message_id)%string)
         (flat_map (joined conversations) messages) = [].
Proof.
  induction messages as [|m ms IH]; simpl; intros H; [reflexivity|].
  rewrite filter_app, IH by (intros x Hx; apply H; right; assumption).
  rewrite app_nil_r. unfold joined.
  destruct (parent conversations m); simpl; [|reflexivity].
  destruct (String.eqb_spec (Msg.id m) message_id) as [E|E]; [|reflexivity].
  exfalso. apply (H m); [left; reflexivity|assumption].
Qed.

Lemma rows_with_id_absent (d : Store.t) (message_id : string) :
  (forall m, In m (Store.messages d) -> Msg.id m <> message_id) ->
  rows_with_id d message_id = [].
Proof. intros H. apply filter_joined_absent. assumption. Qed.

(** C2. For a message id the store does not hold, [get_message_context]
    raises: no context comes back.  When the store is reached, what it
    raises is the store's not-found answer to the single-row fetch. *)
Theorem get_message_context_missing :
  forall (message_id : string) (before after : Z) (w : World.t),
    (forall m, In m (Store.messages (World.db w)) -> Msg.id m <> message_id) ->
    exists e w',
      get_message_context message_id before after w = (Raise e, w')
      /\ (ready w = true -> next_fault w = None ->
          e = not_found /\ World.db w' = World.db w).
Proof.
  intros message_id before after w Habs.
  unfold get_message_context, get_message_context_try, try_except, bind.
  destruct (ready w) eqn:Hr.
  - rewrite get_supabase_ready by assumption.
    destruct (next_fault w) as [e|] eqn:F.
    + rewrite (execute_fault _ (World.set_client true w) e) by assumption.
      simpl. do 2 eexists. split; [reflexivity|]. intros _ H; discriminate.
    + unfold message_by_id. rewrite execute_reading by assumption.
      simpl. fold (rows_with_id (World.db w) message_id).
      rewrite rows_with_id_absent by assumption. simpl.
      do 2 eexists. split; [reflexivity|]. intros _ _. split; reflexivity.
  - destruct (get_supabase_unready w Hr) as [msg ->]. simpl.
    do 2 eexists. split; [reflexivity|]. intros H; discriminate.
Qed.

(** Witness of [get_message_context_missing]: an id that is not in the
    demo store. *)
Lemma get_message_context_missing_witness :
  exists e w',
    get_message_context "m9" 5 5 demo_world = (Raise e, w')
    /\ (ready demo_world = true -> next_fault demo_world = None ->
        e = not_found /\ World.db w' = World.db demo_world).
Proof.
  apply (get_message_context_missing "m9" 5 5 demo_world).
  simpl. intros m [<-|[<-|[<-|[<-|[]]]]]; discriminate.
Defined.

Section Listing.
Context {L : Library}.

(** C5. [list_messages] answers with a string whatever it is given and
    whatever the store does: what its [try] block returns when that
    returns, and the text ["Error: "] followed by the exception's message
    when the block raises, be it at the query, at a date bound or while a
    context window is fetched. *)
Theorem list_messages_never_raises :
  forall (after before sender_phone_number chat_jid query : ostr) (limit page : Z)
         (include_context : bool) (context_before context_after : Z) (w : World.t),
    exists s w',
      list_messages after before sender_phone_number chat_jid query limit page
        include_context context_before context_after w = (Ok s, w')
      /\ (forall e w1,
            list_messages_try after before sender_phone_number chat_jid query limit page
              include_context context_before context_after w = (Raise e, w1) ->
            s = ("Error: " ++ str_exn e)%string)
      /\ (forall s0 w1,
            list_messages_try after before sender_phone_number chat_jid query limit page
              include_context context_before context_after w = (Ok s0, w1) ->
            s = s0 /\ w' = w1).
Proof.
  intros after before sender_phone_number chat_jid query n page
         include_context context_before context_after w.
  unfold list_messages, try_except.
  destruct (list_messages_try after before sender_phone_number chat_jid query n page
              include_context context_before context_after w) as [[s0|e] w1].
  - exists s0, w1. split; [reflexivity|]. split.
    + intros e w2 H; discriminate.
    + intros s1 w2 H; injection H as <- <-. split; reflexivity.
  - eexists; eexists. split; [reflexivity|]. split.
    + intros e0 w2 H; injection H as <- _. reflexivity.
    + intros s1 w2 H; discriminate.
Qed.

End Listing.

(** A failure while the context window of a listed message is fetched
    raises inside [get_message_context] and ends as an error string. *)
Example list_messages_context_failure :
  fst (list_messages (L:=demo_library) None None None None None 20 0 true 1 1
         (World.set_faults [None; None; Some (APIError "connection lost")] demo_world))
  = Ok "Error: connection lost".
Proof. vm_compute. reflexivity. Qed.

(** A failure while a sender's name is looked up during formatting is
    absorbed by [get_sender_name]: the listing is returned, with the
    identifier in the place of the name. *)
Example list_messages_name_lookup_failure :
  fst (list_messages (L:=demo_library) None None None (Some "555-777@g.us") None 20 0
         false 1 1
         (World.set_faults [None; Some (APIError "connection lost")] demo_world))
  = Ok ("[T15] Chat: Family From: 555@s.whatsapp.net: all" ++ newline)%string.
Proof. vm_compute. reflexivity. Qed.

(** A date bound that does not parse ends as an error string as well. *)
Example list_messages_bad_date :
  fst (list_messages (L:=demo_library) (Some "yesterday") None None None None 20 0 true 1 1
         demo_world)
  = Ok "Error: Invalid isoformat string: yesterday".
Proof. vm_compute. reflexivity. Qed.

(** ** Ordering and limits *)

Section Ordering.
Variable A : Type.
Variable le : A -> A -> bool.

Lemma in_insert_by (x y : A) (l : list A) :
  In x (insert_by le y l) <-> x = y \/ In x l.
Proof.
  induction l as [|z l IH]; simpl.
  - intuition auto.
  - destruct (le y z); simpl; [intuition auto|].
    rewrite IH. intuition auto.
Qed.

Lemma in_order_by (x : A) (l : list A) : In x (order_by le l) <-> In x l.
Proof.
  induction l as [|y l IH]; simpl; [reflexivity|].
  rewrite in_insert_by, IH. intuition auto.
Qed.

Hypothesis le_total : forall a b, le a b = true \/ le b a = true.
Hypothesis le_trans : forall a b c, le a b = true -> le b c = true -> le a c = true.

Lemma insert_by_sorted (x : A) (l : list A) :
  StronglySorted (fun a b => le a b = true) l ->
  StronglySorted (fun a b => le a b = true) (insert_by le x l).
Proof.
  induction 1 as [|y l Hs IH Hall]; simpl.
  - constructor; constructor.
  - destruct (le x y) eqn:E.
    + constructor; [constructor; assumption|].
      constructor; [assumption|].
      eapply Forall_impl; [|exact Hall].
      intros z Hz. simpl in Hz. eapply le_trans; eassumption.
    + constructor; [assumption|].
      apply Forall_forall. intros z Hz.
      apply in_insert_by in Hz as [->|Hz].
      * destruct (le_total x y) as [H|H]; [congruence|assumption].
      * rewrite Forall_forall in Hall. apply Hall. assumption.
Qed.

Lemma order_by_sorted (l : list A) :
  StronglySorted (fun a b => le a b = true) (order_by le l).
Proof.
  induction l as [|x l IH]; simpl; [constructor|].
  apply insert_by_sorted. assumption.
Qed.

End Ordering.

Lemma in_firstn {A} (n : nat) (l : list A) (x : A) :
  In x (firstn n l) -> In x l.
Proof.
  revert l. induction n as [|n IH]; intros [|y l]; simpl; try contradiction.
  intros [H|H]; [left; assumption|right; apply IH; assumption].
Qed.

Lemma sorted_firstn {A} (R : A -> A -> Prop) (n : nat) (l : list A) :
  StronglySorted R l -> StronglySorted R (firstn n l).
Proof.
  intros H. revert n. induction H as [|x l Hs IH Hall]; intros [|n]; simpl;
    try constructor.
  - apply IH.
  - apply Forall_forall. intros y Hy. rewrite Forall_forall in Hall.
    apply Hall. eapply in_firstn. eassumption.
Qed.

Lemma sorted_app {A} (R : A -> A -> Prop) (l1 l2 : list A) :
  StronglySorted R l1 -> StronglySorted R l2 ->
  (forall a b, In a l1 -> In b l2 -> R a b) ->
  StronglySorted R (l1 ++ l2).
Proof.
  induction 1 as [|x l Hs IH Hall]; simpl; intros H2 Hc; [assumption|].
  constructor.
  - apply IH; [assumption|]. intros a b Ha Hb. apply Hc; [right|]; assumption.
  - apply Forall_forall. intros y Hy. apply in_app_or in Hy as [Hy|Hy].
    + rewrite Forall_forall in Hall. apply Hall. assumption.
    + apply Hc; [left; reflexivity|assumption].
Qed.

Lemma sorted_rev {A} (R : A -> A -> Prop) (l : list A) :
  StronglySorted R l -> StronglySorted (fun a b => R b a) (rev l).
Proof.
  induction 1 as [|x l Hs IH Hall]; simpl; [constructor|].
  apply sorted_app; [assumption|constructor; constructor|].
  intros a b Ha [<-|[]]. rewrite Forall_forall in Hall.
  apply Hall. apply in_rev. assumption.
Qed.

Lemma sorted_map {A B} (R : A -> A -> Prop) (R' : B -> B -> Prop) (f : A -> B)
    (l : list A) :
  (forall a b, R a b -> R' (f a) (f b)) ->
  StronglySorted R l -> StronglySorted R' (map f l).
Proof.
  intros Hf. induction 1 as [|x l Hs IH Hall]; simpl; constructor; [assumption|].
  apply Forall_forall. intros y Hy. apply in_map_iff in Hy as (a & <- & Ha).
  rewrite Forall_forall in Hall. apply Hf, Hall. assumption.
Qed.

Lemma limit_ok {A} (n : Z) (rows : list A) :
  0 <= n -> limit n rows = Ok (firstn (Z.to_nat n) rows).
Proof.
  intros H. unfold limit. destruct (Z.ltb_spec n 0); [lia|reflexivity].
Qed.

(** ** Strings and patterns *)

Lemma before_at_no_at (s : string) : has_at s = false -> before_at s = s.
Proof.
  induction s as [|c s IH]; simpl; [reflexivity|].
  intros H. apply orb_false_iff in H as [Hc Hs].
  rewrite Hc, IH by assumption. reflexivity.
Qed.

Lemma before_at_split (s : string) :
  has_at s = true ->
  exists rest, s = (before_at s ++ "@" ++ rest)%string /\ has_at (before_at s) = false.
Proof.
  induction s as [|c s IH]; simpl; [discriminate|].
  destruct (Ascii.eqb_spec c "@"%char) as [->|Hc]; simpl.
  - intros _. exists s. split; reflexivity.
  - intros H. destruct (IH H) as (rest & E & Hn). exists rest.
    split; [simpl; f_equal; exact E|].
    simpl. destruct (Ascii.eqb_spec c "@"%char); [contradiction|assumption].
Qed.

Lemma endswith_unfold (s suffix : string) :
  endswith s suffix
  = (s =? suffix)%string
    || match s with
       | EmptyString => false
       | String _ s' => endswith s' suffix
       end.
Proof. destruct s; reflexivity. Qed.

Lemma endswith_split (s suffix : string) :
  endswith s suffix = true -> exists a, s = (a ++ suffix)%string.
Proof.
  induction s as [|c s IH]; rewrite endswith_unfold; intros H;
    apply orb_true_iff in H as [H|H]; try discriminate.
  - apply String.eqb_eq in H. exists EmptyString. assumption.
  - apply String.eqb_eq in H. exists EmptyString. assumption.
  - destruct (IH H) as [a ->]. exists (String c a). reflexivity.
Qed.

Lemma lower_app (a b : string) : lower (a ++ b) = (lower a ++ lower b)%string.
Proof. induction a as [|c a IH]; simpl; [reflexivity|]. rewrite IH. reflexivity. Qed.

Lemma like_any_run_nil (c : ascii) (p : string) :
  is_any_run c = true -> like (String c p) EmptyString = like p EmptyString.
Proof. intros H. simpl. rewrite H. apply orb_false_r. Qed.

Lemma like_any_run_cons (c d : ascii) (p t : string) :
  is_any_run c = true ->
  like (String c p) (String d t) = like p (String d t) || like (String c p) t.
Proof. intros H. simpl. rewrite H. reflexivity. Qed.

Lemma like_any_run_app (c : ascii) (p a t : string) :
  is_any_run c = true -> like p t = true -> like (String c p) (a ++ t) = true.
Proof.
  intros Hc Ht. induction a as [|d a IH].
  - simpl (_ ++ _)%string. destruct t.
    + rewrite like_any_run_nil by assumption. assumption.
    + rewrite like_any_run_cons, Ht by assumption. reflexivity.
  - simpl (_ ++ _)%string. rewrite like_any_run_cons, IH by assumption.
    apply orb_true_r.
Qed.

Lemma like_any_run_inv (c : ascii) (p s : string) :
  is_any_run c = true -> like (String c p) s = true ->
  exists a t, s = (a ++ t)%string /\ like p t = true.
Proof.
  intros Hc. induction s as [|d s IH]; intros H.
  - rewrite like_any_run_nil in H by assumption.
    exists EmptyString, EmptyString. split; [reflexivity|assumption].
  - rewrite like_any_run_cons in H by assumption.
    apply orb_true_iff in H as [H|H].
    + exists EmptyString, (String d s). split; [reflexivity|assumption].
    + destruct (IH H) as (a & t & -> & Ht).
      exists (String d a), t. split; [reflexivity|assumption].
Qed.

(** The filter of [search_contacts] catches every group identifier. *)
Lemma ilike_group_suffix (s : string) :
  endswith s "@g.us" = true -> ilike "%@g.us" s = true.
Proof.
  intros H. destruct (endswith_split _ _ H) as [a ->].
  unfold ilike. rewrite lower_app.
  change (lower "%@g.us") with (String "%"%char "@g.us").
  change (lower "@g.us") with "@g.us".
  apply like_any_run_app; reflexivity.
Qed.

(** ** [search_contacts] *)

Lemma to_contact_phone_number (row : Conv.row) :
  (has_at (Contact.jid (to_contact row)) = false ->
   Contact.phone_number (to_contact row) = Contact.jid (to_contact row))
  /\ (has_at (Contact.jid (to_contact row)) = true ->
      exists rest,
        Contact.jid (to_contact row)
          = (Contact.phone_number (to_contact row) ++ "@" ++ rest)%string
        /\ has_at (Contact.phone_number (to_contact row)) = false).
Proof.
  unfold to_contact; simpl. split; intros H; rewrite H; [reflexivity|].
  apply before_at_split. assumption.
Qed.

(** C8. [search_contacts] always answers with a list; the list has at
    most 50 entries, no entry's jid ends in ["@g.us"], and each entry's
    phone number is the part of its jid before the first ['@'] (the whole
    jid when it has none). *)
Theorem search_contacts_result :
  forall (query : string) (w : World.t),
    exists contacts w',
      search_contacts query w = (Ok contacts, w')
      /\ (List.length contacts <= 50)%nat
      /\ Forall (fun c =>
           endswith (Contact.jid c) "@g.us" = false
           /\ (has_at (Contact.jid c) = false ->
               Contact.phone_number c = Contact.jid c)
           /\ (has_at (Contact.jid c) = true ->
               exists rest,
                 Contact.jid c = (Contact.phone_number c ++ "@" ++ rest)%string
                 /\ has_at (Contact.phone_number c) = false)) contacts.
Proof.
  intros query w.
  unfold search_contacts, try_except, bind.
  destruct (ready w) eqn:Hr.
  - rewrite get_supabase_ready by assumption.
    destruct (next_fault w) as [e|] eqn:F.
    + rewrite (execute_fault _ (World.set_client true w) e) by assumption.
      simpl. do 2 eexists. split; [reflexivity|]. split; [simpl; lia|constructor].
    + unfold contacts_matching. rewrite execute_reading by assumption.
      rewrite limit_ok by lia.
      set (rows := firstn (Z.to_nat 50) _).
      assert (Hlen : (List.length rows <= 50)%nat).
      { unfold rows. etransitivity; [apply firstn_le_length|]. apply Nat.eq_le_incl.
        reflexivity. }
      assert (Hin : forall row, In row rows ->
                is_whatsapp (Conv.channel row)
                && negb (ilike "%@g.us" (Conv.contact_identifier row))
                && (ilike_col ("%" ++ query ++ "%")%string (Conv.contact_name row)
                    || ilike ("%" ++ query ++ "%")%string (Conv.contact_identifier row))
                = true).
      { intros row Hrow. unfold rows in Hrow.
        apply in_firstn, in_order_by, filter_In in Hrow as [_ Hrow]. exact Hrow. }
      clearbody rows. unfold ret. cbv beta iota.
      do 2 eexists. split; [reflexivity|]. split.
      * rewrite length_map. assumption.
      * apply Forall_forall. intros c Hc.
        apply in_map_iff in Hc as (row & <- & Hrow).
        apply Hin in Hrow.
        apply andb_true_iff in Hrow as [Hrow _].
        apply andb_true_iff in Hrow as [_ Hrow].
        split; [|apply to_contact_phone_number].
        change (Contact.jid (to_contact row)) with (Conv.contact_identifier row).
        destruct (endswith (Conv.contact_identifier row) "@g.us") eqn:E; [|reflexivity].
        rewrite ilike_group_suffix in Hrow by assumption. discriminate.
  - destruct (get_supabase_unready w Hr) as [msg ->]. simpl.
    do 2 eexists. split; [reflexivity|]. split; [simpl; lia|constructor].
Qed.

(** The demo store holds a group whose identifier contains the query; it
    is not among the contacts. *)
Example search_contacts_demo :
  fst (search_contacts "5" demo_world) = Ok []
  /\ fst (search_contacts "12" demo_world)
     = Ok [Contact.mk "123" (Some "Alice") "123@s.whatsapp.net"].
Proof. split; vm_compute; reflexivity. Qed.

(** ** [get_sender_name] *)

Lemma like_percent_all (t : string) : like "%" t = true.
Proof.
  induction t as [|d t IH].
  - reflexivity.
  - rewrite like_any_run_cons, IH by reflexivity. apply orb_true_r.
Qed.

Lemma like_literal (c : ascii) (p s : string) :
  literal c = true ->
  like (String c p) s
  = match s with
    | EmptyString => false
    | String d s' => (c =? d)%char && like p s'
    end.
Proof.
  unfold literal. intros H. apply negb_true_iff in H.
  apply orb_false_iff in H as [H H3]. apply orb_false_iff in H as [H1 H2].
  simpl. rewrite H1, H2, H3. reflexivity.
Qed.

Lemma like_literal_prefix (q t : string) :
  all_literal q = true -> like (q ++ "%") t = startswith t q.
Proof.
  revert t. induction q as [|c q IH]; intros t H.
  - simpl (_ ++ _)%string. rewrite like_percent_all. reflexivity.
  - simpl in H. apply andb_true_iff in H as [Hc Hq].
    simpl (_ ++ _)%string. rewrite like_literal by assumption.
    destruct t as [|d t]; [reflexivity|]. simpl.
    rewrite IH by assumption. reflexivity.
Qed.

Lemma like_contains (q t : string) :
  all_literal q = true -> like (String "%" (q ++ "%")) t = contains q t.
Proof.
  intros H. induction t as [|d t IH].
  - rewrite like_any_run_nil, like_literal_prefix by (assumption || reflexivity).
    simpl. rewrite orb_false_r. reflexivity.
  - rewrite like_any_run_cons, like_literal_prefix, IH by (assumption || reflexivity).
    reflexivity.
Qed.

Lemma literal_lower (c : ascii) : literal c = true -> literal (lower_ascii c) = true.
Proof.
  destruct c as [[] [] [] [] [] [] [] []]; vm_compute; intros H;
    solve [reflexivity | discriminate].
Qed.

Lemma all_literal_lower (s : string) :
  all_literal s = true -> all_literal (lower s) = true.
Proof.
  induction s as [|c s IH]; simpl; [reflexivity|].
  intros H. apply andb_true_iff in H as [Hc Hs].
  rewrite literal_lower, IH by assumption. reflexivity.
Qed.

(** A pattern [%part%] whose part has no pattern character tests for the
    part as a substring, ignoring case. *)
Lemma ilike_contains (part s : string) :
  all_literal part = true ->
  ilike ("%" ++ part ++ "%") s = contains (lower part) (lower s).
Proof.
  intros H. unfold ilike.
  change ("%" ++ part ++ "%")%string with (String "%" (part ++ "%")).
  simpl lower at 1. rewrite lower_app.
  change (lower_ascii "%") with "%"%char. change (lower "%") with "%".
  apply like_contains, all_literal_lower. assumption.
Qed.

Lemma first_name_data (rows : list Conv.row) :
  (has_contact_name (firstn (Z.to_nat 1) (map Conv.contact_name rows)) = true ->
   first_name rows = data0 (firstn (Z.to_nat 1) (map Conv.contact_name rows))
   /\ exists n, first_name rows = Some n)
  /\ (has_contact_name (firstn (Z.to_nat 1) (map Conv.contact_name rows)) = false ->
      first_name rows = None).
Proof.
  change (Z.to_nat 1) with 1%nat.
  destruct rows as [|c rest]; simpl.
  - split; [discriminate|reflexivity].
  - split; intros H; rewrite H; [|reflexivity].
    split; [reflexivity|].
    destruct (Conv.contact_name c) as [n|]; [exists n; reflexivity|discriminate].
Qed.

(** C6, as the code has it.  [get_sender_name] never raises, and when its
    [try] block raises it answers with the input.  With the store reached
    and no remote failure it looks at one row per step: the first
    WhatsApp conversation whose identifier is the input gives the answer
    when its display name is not empty; else the first WhatsApp
    conversation whose identifier matches the pattern made of the phone
    part gives it when its display name is not empty; else the answer is
    the input.  For a phone part without pattern characters the pattern
    test is the substring test, case ignored. *)
Theorem get_sender_name_resolution :
  forall (sender_jid : string) (w : World.t),
    exists r w',
      get_sender_name (Some sender_jid) w = (Ok r, w')
      /\ (forall e w1, get_sender_name_try (Some sender_jid) w = (Raise e, w1) ->
                       r = Some sender_jid)
      /\ (ready w = true -> quiet w = true ->
          r = match first_name (exact_rows (World.db w) sender_jid) with
              | Some n => Some n
              | None =>
                  match first_name (fuzzy_rows (World.db w) (phone_part sender_jid)) with
                  | Some n => Some n
                  | None => Some sender_jid
                  end
              end)
      /\ (all_literal (phone_part sender_jid) = true ->
          fuzzy_rows (World.db w) (phone_part sender_jid)
          = filter (fun c => contains (lower (phone_part sender_jid))
                                      (lower (Conv.contact_identifier c))
                             && is_whatsapp (Conv.channel c))
                   (Store.conversations (World.db w))).
Proof.
  intros jid w.
  assert (Hfuzzy : all_literal (phone_part jid) = true ->
            fuzzy_rows (World.db w) (phone_part jid)
            = filter (fun c => contains (lower (phone_part jid))
                                        (lower (Conv.contact_identifier c))
                               && is_whatsapp (Conv.channel c))
                     (Store.conversations (World.db w))).
  { intros Hlit. unfold fuzzy_rows. apply filter_ext. intros c.
    rewrite ilike_contains by assumption. reflexivity. }
  unfold get_sender_name, try_except.
  destruct (get_sender_name_try (Some jid) w) as [[r|e] w1] eqn:T.
  - exists r, w1. split; [reflexivity|]. split; [intros e w2 H; discriminate|].
    split; [|exact Hfuzzy].
    intros Hr Hq. revert T.
    unfold get_sender_name_try, bind.
    rewrite get_supabase_ready by assumption.
    unfold contact_name_eq, contact_name_ilike.
    rewrite execute_reading by (apply quiet_next; assumption).
    rewrite limit_ok by lia. cbn [pystr].
    fold (exact_rows (World.db (World.set_client true w)) jid).
    rewrite db_set_client.
    destruct (first_name_data (exact_rows (World.db w) jid)) as [Hyes Hno].
    destruct (has_contact_name _) eqn:E1.
    + destruct (Hyes eq_refl) as [Hd [n Hn]]. rewrite Hn. rewrite Hd in Hn.
      unfold ret. intros H; injection H as Hx _. subst r. exact Hn.
    + rewrite (Hno eq_refl). unfold ret at 1. cbv beta iota.
      fold (phone_part jid).
      rewrite execute_reading
        by (apply quiet_next, quiet_after_call; assumption).
      rewrite limit_ok by lia.
      rewrite db_after_call, db_set_client.
      fold (fuzzy_rows (World.db w) (phone_part jid)).
      destruct (first_name_data (fuzzy_rows (World.db w) (phone_part jid)))
        as [Hyes2 Hno2].
      destruct (has_contact_name
                  (firstn (Z.to_nat 1)
                     (map Conv.contact_name
                        (fuzzy_rows (World.db w) (phone_part jid))))) eqn:E2.
      * destruct (Hyes2 eq_refl) as [Hd [n Hn]]. rewrite Hn. rewrite Hd in Hn.
        unfold ret. intros H; injection H as Hx _. subst r. exact Hn.
      * rewrite (Hno2 eq_refl). unfold ret. intros H; injection H as Hx _.
        subst r. reflexivity.
  - simpl. do 2 eexists. split; [reflexivity|].
    split; [intros e0 w2 H; reflexivity|]. split; [|exact Hfuzzy].
    intros Hr Hq. exfalso. revert T.
    unfold get_sender_name_try, bind.
    rewrite get_supabase_ready by assumption.
    unfold contact_name_eq, contact_name_ilike.
    rewrite execute_reading by (apply quiet_next; assumption).
    rewrite limit_ok by lia.
    destruct (has_contact_name _); [discriminate|].
    unfold ret at 1. cbv beta iota.
    rewrite execute_reading
      by (apply quiet_next, quiet_after_call; assumption).
    rewrite limit_ok by lia.
    destruct (has_contact_name _); discriminate.
Qed.

(** The scenario of the specification. *)
Example get_sender_name_alice :
  fst (get_sender_name (Some "123@s.whatsapp.net") alice_world) = Ok (Some "Alice")
  /\ fst (get_sender_name (Some "999@s.whatsapp.net") alice_world)
     = Ok (Some "999@s.whatsapp.net").
Proof. split; vm_compute; reflexivity. Qed.

(** C6 as the specification words it fails where the first row of a step
    has no display name: the store holds a conversation of exactly the
    input identifier, and a named conversation whose identifier contains
    the phone part, and the answer is the input.  Neither reading of the
    rule allows that answer. *)
Lemma get_sender_name_unnamed_first_row :
  fst (get_sender_name (Some "123@s.whatsapp.net") unnamed_world)
    = Ok (Some "123@s.whatsapp.net")
  /\ ~ resolves_by_identifier (World.db unnamed_world) "123@s.whatsapp.net"
         (Some "123@s.whatsapp.net")
  /\ ~ resolves_by_named (World.db unnamed_world) "123@s.whatsapp.net"
         (Some "123@s.whatsapp.net").
Proof.
  split; [vm_compute; reflexivity|]. split.
  - intros [(c & Hin & Hid & Hr)|[(Hno & _)|(Hno & _)]].
    + simpl in Hin. destruct Hin as [<-|[<-|[]]]; discriminate.
    + apply (Hno unnamed); [left; reflexivity|reflexivity].
    + apply (Hno unnamed); [left; reflexivity|reflexivity].
  - unfold resolves_by_named.
    intros [(c & Hin & [Hid Hn] & Hr)|[(_ & c & Hin & [Hc Hn] & Hr)|(_ & Hno & _)]].
    + simpl in Hin. destruct Hin as [<-|[<-|[]]]; discriminate.
    + simpl in Hin. destruct Hin as [<-|[<-|[]]]; discriminate.
    + apply (Hno group_of_123); [right; left; reflexivity|].
      split; vm_compute; reflexivity.
Qed.

(** ** [format_message] *)

Lemma get_sender_name_total (sender_jid : ostr) (w : World.t) :
  exists r w',
    get_sender_name sender_jid w = (Ok r, w')
    /\ (forall e w1,
          get_sender_name_try sender_jid w = (Raise e, w1) ->
          r = sender_jid
          /\ w' = World.add_stdout
                    ("Database error while getting sender name: " ++ str_exn e)%string w1).
Proof.
  unfold get_sender_name, try_except.
  destruct (get_sender_name_try sender_jid w) as [[r|e] w1].
  - exists r, w1. split; [reflexivity|]. intros e w2 H; discriminate.
  - simpl. do 2 eexists. split; [reflexivity|].
    intros e0 w2 H; injection H as <- <-. split; reflexivity.
Qed.

Section Formatting.
Context {L : Library}.

(** C9, as the code has it.  [format_message] never raises and always
    answers with the whole line of the message: the head with the
    timestamp, then the sender and the body.  An error met while the
    sender's name is looked up is swallowed and printed inside
    [get_sender_name]; the line is kept, with the sender's identifier in
    the place of the name. *)
Theorem format_message_line :
  forall (message : Message.t) (show_chat_info : bool) (w : World.t),
    exists sender_name w',
      format_message message show_chat_info w
        = (Ok (format_message_head message show_chat_info ++ "From: "
                 ++ pystr sender_name ++ ": " ++ content_prefix message
                 ++ pystr (Message.content message) ++ newline)%string, w')
      /\ (Message.is_from_me message = true -> sender_name = Some "Me" /\ w' = w)
      /\ (Message.is_from_me message = false ->
          forall e w1,
            get_sender_name_try (Message.sender message) w = (Raise e, w1) ->
            sender_name = Message.sender message
            /\ w' = World.add_stdout
                      ("Database error while getting sender name: " ++ str_exn e)%string
                      w1).
Proof.
  intros message show_chat_info w.
  unfold format_message, try_except, bind.
  destruct (Message.is_from_me message) eqn:Me; cbn [negb]; cbv beta iota.
  - exists (Some "Me"), w. split; [reflexivity|].
    split; [intros _; split; reflexivity|discriminate].
  - destruct (get_sender_name_total (Message.sender message) w)
      as (r & w' & Hrun & Hfail).
    rewrite Hrun. exists r, w'. split; [reflexivity|].
    split; [discriminate|]. intros _. exact Hfail.
Qed.

End Formatting.

(** C9 as the specification words it fails: with the store out of reach
    the lookup of the sender's name raises, and the line of the message is
    in the output all the same. *)
Lemma format_message_keeps_line :
  (exists e w1,
     get_sender_name_try (Message.sender incoming) (offline demo_world) = (Raise e, w1))
  /\ fst (format_message (L:=demo_library) incoming true (offline demo_world))
     = Ok ("[T15] Chat: Family From: 555@s.whatsapp.net: all" ++ newline)%string
  /\ fst (format_message (L:=demo_library) incoming true (offline demo_world))
     <> Ok EmptyString
  /\ World.stdout (snd (format_message (L:=demo_library) incoming true (offline demo_world)))
     = ["Database error while getting sender name: connection refused"].
Proof.
  split; [do 2 eexists; vm_compute; reflexivity|].
  split; [vm_compute; reflexivity|].
  split; [vm_compute; discriminate|vm_compute; reflexivity].
Qed.

(** ** [get_message_context] *)

Lemma created_desc_total (a b : Row.t) :
  created_desc a b = true \/ created_desc b a = true.
Proof. unfold created_desc. rewrite !Z.leb_le. lia. Qed.

Lemma created_desc_trans (a b c : Row.t) :
  created_desc a b = true -> created_desc b c = true -> created_desc a c = true.
Proof. unfold created_desc. rewrite !Z.leb_le. lia. Qed.

Lemma created_asc_total (a b : Row.t) :
  created_asc a b = true \/ created_asc b a = true.
Proof. unfold created_asc. rewrite !Z.leb_le. lia. Qed.

Lemma created_asc_trans (a b c : Row.t) :
  created_asc a b = true -> created_asc b c = true -> created_asc a c = true.
Proof. unfold created_asc. rewrite !Z.leb_le. lia. Qed.

(** What [get_message_context] computes when the anchor is found and no
    call fails. *)
Lemma get_message_context_run (message_id : string) (before after : Z)
    (w : World.t) (anchor : Row.t) :
  ready w = true -> quiet w = true ->
  rows_with_id (World.db w) message_id = [anchor] ->
  0 <= before -> 0 <= after ->
  get_message_context message_id before after w
  = (Ok (MessageContext.mk (to_message anchor)
           (map to_message
              (rev (firstn (Z.to_nat before)
                      (order_by created_desc (rows_before (World.db w) anchor)))))
           (map to_message
              (firstn (Z.to_nat after)
                 (order_by created_asc (rows_after (World.db w) anchor))))),
     after_call (after_call (after_call (World.set_client true w)))).
Proof.
  intros Hr Hq Hrow Hb Ha.
  unfold get_message_context, get_message_context_try, try_except, bind.
  rewrite get_supabase_ready by assumption.
  unfold message_by_id.
  rewrite execute_reading by (apply quiet_next; assumption).
  rewrite db_set_client. fold (rows_with_id (World.db w) message_id).
  rewrite Hrow. cbn [single].
  unfold messages_before, messages_after.
  rewrite execute_reading by (apply quiet_next, quiet_after_call; assumption).
  rewrite limit_ok by assumption.
  rewrite execute_reading
    by (apply quiet_next, quiet_after_call, quiet_after_call; assumption).
  rewrite limit_ok by assumption.
  reflexivity.
Qed.

(** Ids are a primary key: a stored message whose parent exists is the
    one row the select by id finds. *)
Lemma rows_with_id_stored (d : Store.t) (m : Msg.row) (c : Conv.row) :
  NoDup (map Msg.id (Store.messages d)) ->
  In m (Store.messages d) ->
  parent (Store.conversations d) m = Some c ->
  rows_with_id d (Msg.id m) = [Row.mk m (Some (embed c))].
Proof.
  unfold rows_with_id, select_messages.
  generalize (Store.conversations d) as cs. intros cs.
  induction (Store.messages d) as [|x ms IH]; simpl; intros Hnd Hin Hp; [contradiction|].
  inversion Hnd as [|? ? Hnotin Hnd']; subst.
  rewrite filter_app. destruct Hin as [->|Hin].
  - rewrite filter_joined_absent.
    + unfold joined. rewrite Hp. simpl. rewrite String.eqb_refl. reflexivity.
    + intros y Hy E. apply Hnotin. rewrite <- E. apply in_map. assumption.
  - rewrite IH by assumption.
    assert (Hne : Msg.id x <> Msg.id m).
    { intros E. apply Hnotin. rewrite E. apply in_map. assumption. }
    unfold joined. destruct (parent cs x); simpl; [|reflexivity].
    apply String.eqb_neq in Hne. rewrite Hne. reflexivity.
Qed.

(** C1. When the anchor is a message row of the store (ids being the
    primary key, and the row's conversation existing) and no call fails,
    [get_message_context] returns the anchor with two windows: at most
    [before] messages strictly earlier than the anchor and at most [after]
    messages strictly later, each window in ascending order of timestamp
    and made of rows of the anchor's conversation. *)
Theorem get_message_context_window :
  forall (before after : Z) (w : World.t) (m : Msg.row) (c : Conv.row),
    ready w = true -> quiet w = true ->
    NoDup (map Msg.id (Store.messages (World.db w))) ->
    In m (Store.messages (World.db w)) ->
    parent (Store.conversations (World.db w)) m = Some c ->
    0 <= before -> 0 <= after ->
    exists ctx w',
      get_message_context (Msg.id m) before after w = (Ok ctx, w')
      /\ MessageContext.message ctx = to_message (Row.mk m (Some (embed c)))
      /\ Z.of_nat (List.length (MessageContext.before ctx)) <= before
      /\ Z.of_nat (List.length (MessageContext.after ctx)) <= after
      /\ Forall (fun x => Message.timestamp x
                          < Message.timestamp (MessageContext.message ctx))
                (MessageContext.before ctx)
      /\ Forall (fun x => Message.timestamp (MessageContext.message ctx)
                          < Message.timestamp x)
                (MessageContext.after ctx)
      /\ chronological (MessageContext.before ctx)
      /\ chronological (MessageContext.after ctx)
      /\ Forall (in_conversation (World.db w) (Msg.conversation_id m))
                (MessageContext.before ctx ++ MessageContext.after ctx).
Proof.
  intros before after w m c Hr Hq Hkey Hin Hparent Hb Ha.
  set (anchor := Row.mk m (Some (embed c))).
  assert (Hrow : rows_with_id (World.db w) (Msg.id m) = [anchor])
    by (apply rows_with_id_stored; assumption).
  rewrite (get_message_context_run (Msg.id m) before after w anchor) by assumption.
  do 2 eexists. split; [reflexivity|]. cbn [MessageContext.message
    MessageContext.before MessageContext.after].
  change (Msg.conversation_id m) with (Msg.conversation_id (Row.columns anchor)).
  clearbody anchor. clear Hrow Hin Hparent.
  set (bs := firstn (Z.to_nat before) _).
  set (az := firstn (Z.to_nat after) _).
  assert (Hbs : forall row, In row bs ->
            In row (select_messages (World.db w))
            /\ Msg.conversation_id (Row.columns row)
               = Msg.conversation_id (Row.columns anchor)
            /\ created_at row < created_at anchor).
  { intros row H. unfold bs in H.
    apply in_firstn, in_order_by, filter_In in H as [Hin H].
    apply andb_true_iff in H as [Hc Ht].
    apply String.eqb_eq in Hc. apply Z.ltb_lt in Ht. auto. }
  assert (Haz : forall row, In row az ->
            In row (select_messages (World.db w))
            /\ Msg.conversation_id (Row.columns row)
               = Msg.conversation_id (Row.columns anchor)
            /\ created_at anchor < created_at row).
  { intros row H. unfold az in H.
    apply in_firstn, in_order_by, filter_In in H as [Hin H].
    apply andb_true_iff in H as [Hc Ht].
    apply String.eqb_eq in Hc. apply Z.ltb_lt in Ht. auto. }
  assert (Sbs : StronglySorted (fun a b => created_desc a b = true) bs).
  { apply sorted_firstn, order_by_sorted;
      [apply created_desc_total|apply created_desc_trans]. }
  assert (Saz : StronglySorted (fun a b => created_asc a b = true) az).
  { apply sorted_firstn, order_by_sorted;
      [apply created_asc_total|apply created_asc_trans]. }
  assert (Lbs : (List.length bs <= Z.to_nat before)%nat) by apply firstn_le_length.
  assert (Laz : (List.length az <= Z.to_nat after)%nat) by apply firstn_le_length.
  clearbody bs az.
  split; [reflexivity|].
  split; [rewrite length_map, length_rev; lia|].
  split; [rewrite length_map; lia|].
  split.
  { apply Forall_forall. intros x Hx.
    apply in_map_iff in Hx as (row & <- & Hin). apply in_rev in Hin.
    apply Hbs in Hin. unfold to_message. rewrite !row_to_message_timestamp. tauto. }
  split.
  { apply Forall_forall. intros x Hx.
    apply in_map_iff in Hx as (row & <- & Hin).
    apply Haz in Hin. unfold to_message. rewrite !row_to_message_timestamp. tauto. }
  split.
  { unfold chronological.
    apply sorted_map with (R := fun a b => created_desc b a = true);
      [|apply sorted_rev; exact Sbs].
    intros a b H. unfold to_message. rewrite !row_to_message_timestamp.
    unfold created_desc in H. apply Z.leb_le in H. exact H. }
  split.
  { unfold chronological.
    apply sorted_map with (R := fun a b => created_asc a b = true); [|exact Saz].
    intros a b H. unfold to_message. rewrite !row_to_message_timestamp.
    unfold created_asc in H. apply Z.leb_le in H. exact H. }
  apply Forall_forall. intros x Hx. apply in_app_or in Hx as [Hx|Hx];
    apply in_map_iff in Hx as (row & <- & Hin).
  - apply in_rev in Hin. apply Hbs in Hin. exists row. tauto.
  - apply Haz in Hin. exists row. tauto.
Qed.

(** Witness of [get_message_context_window]: the window of one message
    on each side around [m2] in the demo store. *)
Lemma get_message_context_window_witness :
  exists ctx w',
    get_message_context "m2" 1 1 demo_world = (Ok ctx, w')
    /\ MessageContext.message ctx = to_message anchor_m2
    /\ Z.of_nat (List.length (MessageContext.before ctx)) <= 1
    /\ Z.of_nat (List.length (MessageContext.after ctx)) <= 1
    /\ Forall (fun x => Message.timestamp x
                        < Message.timestamp (MessageContext.message ctx))
              (MessageContext.before ctx)
    /\ Forall (fun x => Message.timestamp (MessageContext.message ctx)
                        < Message.timestamp x)
              (MessageContext.after ctx)
    /\ chronological (MessageContext.before ctx)
    /\ chronological (MessageContext.after ctx)
    /\ Forall (in_conversation (World.db demo_world) "c1")
              (MessageContext.before ctx ++ MessageContext.after ctx).
Proof.
  apply (get_message_context_window 1 1 demo_world m2 alice);
    try reflexivity; try lia.
  - simpl. repeat constructor; simpl; intuition discriminate.
  - simpl. right. left. reflexivity.
Defined.

(** The window of the demo store, computed. *)
Example get_message_context_demo :
  fst (get_message_context "m2" 5 5 demo_world)
  = Ok (MessageContext.mk (to_message anchor_m2)
          [to_message (Row.mk m1 (Some (embed alice)))]
          [to_message (Row.mk m3 (Some (embed alice)))]).
Proof. vm_compute. reflexivity. Qed.

(** ** [save_message] *)

Lemma bind_ok_inv {A B} (m : M A) (k : A -> M B) (w w' : World.t) (b : B) :
  bind m k w = (Ok b, w') ->
  exists a w1, m w = (Ok a, w1) /\ k a w1 = (Ok b, w').
Proof.
  unfold bind. destruct (m w) as [[a|e] w1]; intros H; [|discriminate].
  exists a, w1. split; [reflexivity|assumption].
Qed.

Lemma execute_ok_inv {A} (q : Query A) (w w' : World.t) (a : A) :
  execute q w = (Ok a, w') ->
  q (World.db w) = (Ok a, World.db w') /\ World.client w' = World.client w.
Proof.
  unfold execute. destruct w as [v c d f k o]; simpl.
  destruct f as [|[e|] rest]; try discriminate;
    destruct (q d) as [r d']; intros H; injection H as -> <-; split; reflexivity.
Qed.

Lemma get_supabase_ok_inv (w w' : World.t) (u : unit) :
  get_supabase w = (Ok u, w') ->
  World.client w' = true /\ World.db w' = World.db w.
Proof.
  unfold get_supabase. destruct (World.client w) eqn:C.
  - intros H; injection H as _ <-. split; [assumption|reflexivity].
  - destruct (World.env_ok w); intros H; [|discriminate].
    injection H as _ <-. split; reflexivity.
Qed.

Lemma existsb_eqb_false (x : string) (l : list string) :
  existsb (String.eqb x) l = false -> ~ In x l.
Proof.
  intros H Hin. assert (E : existsb (String.eqb x) l = true).
  { apply existsb_exists. exists x. split; [assumption|apply String.eqb_refl]. }
  congruence.
Qed.

Lemma firstn_one_ids (rows : list Conv.row) :
  firstn (Z.to_nat 1) (map Conv.id rows)
  = match rows with
    | c :: _ => [Conv.id c]
    | [] => []
    end.
Proof. change (Z.to_nat 1) with 1%nat. destruct rows; reflexivity. Qed.

Section Saving.
Context {L : Library}.

(** What a successful [save_message] has done to the store. *)
Lemma save_message_saved (conversation_jid sender recipient body direction : string)
    (external_id media_type : ostr) (timestamp : option Z) (w w1 : World.t)
    (message_id : string) :
  save_message conversation_jid sender recipient body direction
    external_id media_type timestamp w = (Ok (Some message_id), w1) ->
  exists conversation_id now cs c,
    World.client w1 = true
    /\ ((exists c0 rest, exact_rows (World.db w) conversation_jid = c0 :: rest
                         /\ conversation_id = Conv.id c0
                         /\ cs = Store.conversations (World.db w))
        \/ (exact_rows (World.db w) conversation_jid = []
            /\ cs = Store.conversations (World.db w)
                    ++ [new_conversation conversation_id conversation_jid]))
    /\ ~ In message_id (map Msg.id (Store.messages (World.db w)))
    /\ parent cs (new_message message_id conversation_id sender recipient body direction
                    external_id media_type now) = Some c
    /\ World.db w1
       = Store.mk (map (touch conversation_id now) cs)
           (Store.messages (World.db w)
              ++ [new_message message_id conversation_id sender recipient body direction
                    external_id media_type now]).
Proof.
  unfold save_message, try_except.
  destruct (save_message_try _ _ _ _ _ _ _ _ w) as [[r|e] w'] eqn:T;
    [|simpl; discriminate].
  intros H; injection H as -> ->. revert T. unfold save_message_try.
  intros T.
  apply bind_ok_inv in T as (u & wa & Hsup & T).
  apply get_supabase_ok_inv in Hsup as [Hca Hda].
  apply bind_ok_inv in T as (conv_result & wb & Hlook & T).
  apply execute_ok_inv in Hlook as [Hlook Hcb].
  unfold conversation_id_of, reading in Hlook.
  rewrite limit_ok in Hlook by lia. rewrite firstn_one_ids, Hda in Hlook.
  fold (exact_rows (World.db w) conversation_jid) in Hlook.
  injection Hlook as Hres Hdb.
  apply bind_ok_inv in T as (conversation_id & wc & Hconv & T).
  apply bind_ok_inv in T as (now & wd & Hnow & T).
  apply bind_ok_inv in T as (result & we & Hins & T).
  apply bind_ok_inv in T as (touched & wf & Hupd & T).
  unfold ret in T. injection T as Hid Hw. subst wf.
  apply execute_ok_inv in Hins as [Hins Hce].
  apply execute_ok_inv in Hupd as [Hupd Hcf].
  assert (Hwd : World.db wd = World.db wc /\ World.client wd = World.client wc).
  { destruct timestamp; unfold ret, utcnow in Hnow; injection Hnow as _ <-;
      split; reflexivity. }
  destruct Hwd as [Hdd Hcd].
  unfold insert_message in Hins. rewrite Hdd in Hins.
  destruct (existsb _ _) eqn:Efresh in Hins; [discriminate|].
  destruct (parent _ _) as [c|] eqn:Eparent in Hins; [|discriminate].
  injection Hins as Hresult Hdbe.
  unfold update_conversations in Hupd. injection Hupd as _ Hdbf.
  rewrite <- Hdbe in Hdbf. simpl in Hdbf.
  subst result. simpl in Hid. injection Hid as Hid.
  apply existsb_eqb_false in Efresh. rewrite Hid in Efresh, Eparent, Hdbf.
  fold (new_message message_id conversation_id sender recipient body direction
          external_id media_type now) in Eparent, Hdbf.
  fold (touch conversation_id now) in Hdbf.
  destruct (exact_rows (World.db w) conversation_jid) as [|c0 rest] eqn:Eexact;
    subst conv_result.
  - apply bind_ok_inv in Hconv as (new_conv & wz & Hnew & Hconv).
    apply execute_ok_inv in Hnew as [Hnew Hcz].
    unfold insert_conversation in Hnew.
    destruct (existsb _ _) in Hnew; [discriminate|].
    injection Hnew as Hnc Hdz. subst new_conv.
    unfold ret in Hconv. injection Hconv as Hcid Hwz. subst wz.
    simpl in Hcid. rewrite Hcid in Hdz.
    fold (new_conversation conversation_id conversation_jid) in Hdz.
    rewrite <- Hdb in Hdz.
    exists conversation_id, now,
      (Store.conversations (World.db w)
         ++ [new_conversation conversation_id conversation_jid]), c.
    rewrite <- Hdz in Efresh, Eparent, Hdbf. simpl in Efresh, Eparent, Hdbf.
    split; [congruence|]. split; [right; split; reflexivity|].
    split; [assumption|]. split; [assumption|]. symmetry. assumption.
  - unfold ret in Hconv. injection Hconv as Hcid Hwc. subst wc.
    rewrite <- Hdb in Efresh, Eparent, Hdbf.
    exists conversation_id, now, (Store.conversations (World.db w)), c.
    split; [congruence|].
    split; [left; exists c0, rest; split; [reflexivity|split; [symmetry; assumption|reflexivity]]|].
    split; [assumption|]. split; [assumption|]. symmetry. assumption.
Qed.

End Saving.

Lemma find_map_same {A} (p : A -> bool) (g : A -> A) (l : list A) :
  (forall x, p (g x) = p x) ->
  find p (map g l) = option_map g (find p l).
Proof.
  intros H. induction l as [|x l IH]; simpl; [reflexivity|].
  rewrite H. destruct (p x); [reflexivity|assumption].
Qed.

Lemma filter_map_same {A} (p : A -> bool) (g : A -> A) (l : list A) :
  (forall x, p (g x) = p x) ->
  filter p (map g l) = map g (filter p l).
Proof.
  intros H. induction l as [|x l IH]; simpl; [reflexivity|].
  rewrite H. destruct (p x); simpl; rewrite IH; reflexivity.
Qed.

Lemma touch_id (conversation_id : string) (now : Z) (c : Conv.row) :
  Conv.id (touch conversation_id now c) = Conv.id c.
Proof. unfold touch. destruct (_ =? _)%string; reflexivity. Qed.

Lemma touch_contact_identifier (conversation_id : string) (now : Z) (c : Conv.row) :
  Conv.contact_identifier (touch conversation_id now c) = Conv.contact_identifier c.
Proof. unfold touch. destruct (_ =? _)%string; reflexivity. Qed.

Lemma touch_channel (conversation_id : string) (now : Z) (c : Conv.row) :
  Conv.channel (touch conversation_id now c) = Conv.channel c.
Proof. unfold touch. destruct (_ =? _)%string; reflexivity. Qed.

Lemma parent_touched (conversation_id : string) (now : Z) (cs : list Conv.row)
    (m : Msg.row) :
  parent (map (touch conversation_id now) cs) m
  = option_map (touch conversation_id now) (parent cs m).
Proof.
  unfold parent. apply find_map_same. intros c. rewrite touch_id. reflexivity.
Qed.

Lemma rows_with_id_appended (cs : list Conv.row) (ms : list Msg.row) (m : Msg.row)
    (c : Conv.row) :
  ~ In (Msg.id m) (map Msg.id ms) ->
  parent cs m = Some c ->
  rows_with_id (Store.mk cs (ms ++ [m])) (Msg.id m) = [Row.mk m (Some (embed c))].
Proof.
  intros Hfresh Hp. unfold rows_with_id, select_messages. simpl.
  rewrite flat_map_app, filter_app, filter_joined_absent.
  - simpl. unfold joined. rewrite Hp. simpl. rewrite String.eqb_refl. reflexivity.
  - intros x Hx E. apply Hfresh. rewrite <- E. apply in_map. assumption.
Qed.

Lemma exact_rows_none (d : Store.t) (jid : string) :
  (forall c, In c (Store.conversations d) -> Conv.contact_identifier c <> jid) ->
  exact_rows d jid = [] /\ rows_of_identifier d jid = [].
Proof.
  intros H. unfold exact_rows, rows_of_identifier.
  induction (Store.conversations d) as [|c cs IH]; simpl; [split; reflexivity|].
  assert (E : (Conv.contact_identifier c =? jid)%string = false).
  { apply String.eqb_neq, H. left. reflexivity. }
  rewrite E. simpl. apply IH. intros x Hx. apply H. right. assumption.
Qed.

Section RoundTrip.
Context {L : Library}.

(** C3. A message that [save_message] has saved with direction
    ["outbound"] and a recipient that is not empty comes back from
    [get_message_context] as the anchor of its window, marked as from
    self, with the recipient as its chat. *)
Theorem save_outbound_then_context :
  forall (conversation_jid sender recipient body : string)
         (external_id media_type : ostr) (timestamp : option Z)
         (w w1 : World.t) (message_id : string) (before after : Z),
    save_message conversation_jid sender recipient body "outbound"
      external_id media_type timestamp w = (Ok (Some message_id), w1) ->
    recipient <> EmptyString ->
    quiet w1 = true -> 0 <= before -> 0 <= after ->
    exists ctx w2,
      get_message_context message_id before after w1 = (Ok ctx, w2)
      /\ Message.id (MessageContext.message ctx) = message_id
      /\ Message.is_from_me (MessageContext.message ctx) = true
      /\ Message.chat_jid (MessageContext.message ctx) = recipient.
Proof.
  intros conversation_jid sender recipient body external_id media_type timestamp
         w w1 message_id before after Hsave Hrec Hq Hb Ha.
  apply save_message_saved in Hsave
    as (conversation_id & now & cs & c & Hclient & _ & Hfresh & Hparent & Hdb).
  set (m := new_message message_id conversation_id sender recipient body "outbound"
              external_id media_type now) in *.
  assert (Hrow : rows_with_id (World.db w1) message_id
                 = [Row.mk m (Some (embed (touch conversation_id now c)))]).
  { rewrite Hdb. apply (rows_with_id_appended _ _ m).
    - exact Hfresh.
    - rewrite parent_touched, Hparent. reflexivity. }
  rewrite (get_message_context_run message_id before after w1
             (Row.mk m (Some (embed (touch conversation_id now c)))));
    [|unfold ready; rewrite Hclient; reflexivity|assumption|exact Hrow|assumption
     |assumption].
  do 2 eexists. split; [reflexivity|].
  cbn [MessageContext.message]. unfold to_message, _row_to_message.
  cbn [Message.id Message.is_from_me Message.chat_jid Row.columns Row.conversations].
  subst m. unfold new_message. cbn [Msg.id Msg.direction Msg.recipient Msg.sender].
  split; [reflexivity|]. split; [reflexivity|].
  rewrite String.eqb_refl. cbn [truthy negb pystr].
  destruct (String.eqb_spec recipient EmptyString) as [E|E]; [contradiction|].
  reflexivity.
Qed.

(** C4. Two successful calls of [save_message] for an identifier the
    store did not know leave exactly one conversation row with that
    identifier: the first call inserts it, the second finds it and
    inserts none; both message rows belong to that conversation. *)
Theorem save_message_twice_one_conversation :
  forall (conversation_jid : string)
         (sender1 recipient1 body1 direction1 : string)
         (external_id1 media_type1 : ostr) (timestamp1 : option Z)
         (sender2 recipient2 body2 direction2 : string)
         (external_id2 media_type2 : ostr) (timestamp2 : option Z)
         (w w1 w2 : World.t) (id1 id2 : string),
    (forall c, In c (Store.conversations (World.db w)) ->
               Conv.contact_identifier c <> conversation_jid) ->
    save_message conversation_jid sender1 recipient1 body1 direction1
      external_id1 media_type1 timestamp1 w = (Ok (Some id1), w1) ->
    save_message conversation_jid sender2 recipient2 body2 direction2
      external_id2 media_type2 timestamp2 w1 = (Ok (Some id2), w2) ->
    exists c,
      rows_of_identifier (World.db w2) conversation_jid = [c]
      /\ List.length (Store.conversations (World.db w1))
         = S (List.length (Store.conversations (World.db w)))
      /\ List.length (Store.conversations (World.db w2))
         = List.length (Store.conversations (World.db w1))
      /\ id1 <> id2
      /\ exists ma mb,
           In ma (Store.messages (World.db w2)) /\ In mb (Store.messages (World.db w2))
           /\ Msg.id ma = id1 /\ Msg.id mb = id2
           /\ Msg.conversation_id ma = Conv.id c
           /\ Msg.conversation_id mb = Conv.id c.
Proof.
  intros jid s1 r1 b1 d1 e1 t1 ts1 s2 r2 b2 d2 e2 t2 ts2 w w1 w2 id1 id2
         Hnew Hsave1 Hsave2.
  destruct (exact_rows_none (World.db w) jid Hnew) as [Hexact Hident].
  apply save_message_saved in Hsave1
    as (cid1 & now1 & cs1 & c1 & _ & Hres1 & Hfresh1 & _ & Hdb1).
  destruct Hres1 as [(c0 & rest & E & _)|[_ Hcs1]]; [congruence|].
  subst cs1.
  set (n := new_conversation cid1 jid) in *.
  set (ma := new_message id1 cid1 s1 r1 b1 d1 e1 t1 now1) in *.
  assert (Hexact1 : exact_rows (World.db w1) jid = [touch cid1 now1 n]).
  { rewrite Hdb1. unfold exact_rows. simpl.
    rewrite filter_map_same
      by (intros c; rewrite touch_contact_identifier, touch_channel; reflexivity).
    rewrite filter_app. fold (exact_rows (World.db w) jid). rewrite Hexact.
    simpl. rewrite String.eqb_refl. reflexivity. }
  assert (Hident1 : rows_of_identifier (World.db w1) jid = [touch cid1 now1 n]).
  { rewrite Hdb1. unfold rows_of_identifier. simpl.
    rewrite filter_map_same
      by (intros c; rewrite touch_contact_identifier; reflexivity).
    rewrite filter_app. fold (rows_of_identifier (World.db w) jid). rewrite Hident.
    simpl. rewrite String.eqb_refl. reflexivity. }
  apply save_message_saved in Hsave2
    as (cid2 & now2 & cs2 & c2 & _ & Hres2 & Hfresh2 & _ & Hdb2).
  destruct Hres2 as [(c0 & rest & E & Hcid2 & Hcs2)|[E _]]; [|congruence].
  rewrite Hexact1 in E. injection E as <- <-.
  rewrite touch_id in Hcid2. simpl in Hcid2. subst cid2 cs2.
  set (mb := new_message id2 cid1 s2 r2 b2 d2 e2 t2 now2) in *.
  exists (touch cid1 now2 (touch cid1 now1 n)).
  split.
  { rewrite Hdb2. unfold rows_of_identifier. simpl.
    rewrite filter_map_same
      by (intros c; rewrite touch_contact_identifier; reflexivity).
    fold (rows_of_identifier (World.db w1) jid). rewrite Hident1. reflexivity. }
  split; [rewrite Hdb1; simpl; rewrite length_map, length_app; simpl; lia|].
  split; [rewrite Hdb2; simpl; rewrite length_map; reflexivity|].
  split.
  { intros E. apply Hfresh2. rewrite Hdb1. simpl. rewrite map_app.
    apply in_or_app. right. left. exact E. }
  exists ma, mb. rewrite Hdb2, Hdb1. simpl.
  split; [apply in_or_app; left; apply in_or_app; right; left; reflexivity|].
  split; [apply in_or_app; right; left; reflexivity|].
  rewrite !touch_id. repeat split; reflexivity.
Qed.

Hypothesis new_id_unused : forall used, ~ In (new_id used) used.

Lemma new_id_passes (used : list string) :
  existsb (String.eqb (new_id used)) used = false.
Proof.
  destruct (existsb _ _) eqn:E; [|reflexivity].
  apply existsb_exists in E as (x & Hin & Hx). apply String.eqb_eq in Hx.
  subst x. exfalso. apply (new_id_unused used). assumption.
Qed.

Lemma insert_conversation_unused (channel contact_identifier : string)
    (contact_name : ostr) (status : string) (d : Store.t) :
  insert_conversation channel contact_identifier contact_name status d
  = (Ok [Conv.mk (new_id (map Conv.id (Store.conversations d))) channel
           contact_identifier contact_name status None],
     Store.mk
       (Store.conversations d
          ++ [Conv.mk (new_id (map Conv.id (Store.conversations d))) channel
                contact_identifier contact_name status None])
       (Store.messages d)).
Proof.
  unfold insert_conversation. cbv zeta. cbn [Conv.id].
  rewrite new_id_passes. reflexivity.
Qed.

Lemma insert_message_unused (message_data : string -> Msg.row) (d : Store.t)
    (c : Conv.row) :
  (forall id0, Msg.id (message_data id0) = id0) ->
  parent (Store.conversations d)
    (message_data (new_id (map Msg.id (Store.messages d)))) = Some c ->
  insert_message message_data d
  = (Ok [message_data (new_id (map Msg.id (Store.messages d)))],
     Store.mk (Store.conversations d)
       (Store.messages d ++ [message_data (new_id (map Msg.id (Store.messages d)))])).
Proof.
  intros Hid Hp. unfold insert_message. cbv zeta.
  rewrite Hid, new_id_passes, Hp. reflexivity.
Qed.

(** On a store that answers every call and hands out unused ids,
    [save_message] saves: it returns the id of the new message. *)
Lemma save_message_succeeds (conversation_jid sender recipient body direction : string)
    (external_id media_type : ostr) (timestamp : option Z) (w : World.t) :
  ready w = true -> quiet w = true ->
  exists message_id w1,
    save_message conversation_jid sender recipient body direction
      external_id media_type timestamp w = (Ok (Some message_id), w1).
Proof.
  intros Hr Hq.
  unfold save_message, try_except, save_message_try, bind.
  rewrite get_supabase_ready by assumption.
  unfold conversation_id_of.
  rewrite execute_reading by (apply quiet_next; assumption).
  rewrite limit_ok, firstn_one_ids by lia.
  set (wa := after_call (World.set_client true w)).
  assert (Hqa : quiet wa = true) by (apply quiet_after_call; assumption).
  destruct (filter _ _) as [|c0 rest] eqn:Erows.
  - rewrite execute_through by (apply quiet_next; assumption).
    rewrite insert_conversation_unused. cbn [fst snd ret].
    set (wb := World.set_db _ (after_call wa)).
    assert (Hqb : quiet wb = true) by (apply quiet_after_call; assumption).
    assert (Hput : forall now, exists m d,
              insert_message
                (fun id0 => Msg.mk id0
                   (new_id (map Conv.id (Store.conversations (World.db wa))))
                   "whatsapp" direction (Some sender) (Some recipient) (Some body)
                   now now "chat" "text" external_id
                   (if truthy media_type then media_type else None) None)
                (World.db wb) = (Ok [m], d)).
    { intros now.
      destruct (find (fun c => (Conv.id c
                  =? new_id (map Conv.id (Store.conversations (World.db wa))))%string)
                  (Store.conversations (World.db wb))) as [c|] eqn:F.
      - do 2 eexists. apply (insert_message_unused _ _ c); [reflexivity|exact F].
      - exfalso.
        assert (Hin : In (Conv.mk (new_id (map Conv.id (Store.conversations (World.db wa))))
                            "whatsapp" conversation_jid None "active" None)
                         (Store.conversations (World.db wb))).
        { unfold wb. cbn [World.db World.set_db Store.conversations].
          apply in_or_app. right. left. reflexivity. }
        apply (find_none _ _ F) in Hin. cbn [Conv.id] in Hin.
        rewrite String.eqb_refl in Hin. discriminate. }
    destruct timestamp as [t|]; unfold ret, utcnow.
    all: rewrite execute_through by (apply quiet_next; assumption).
    all: cbn [Conv.id].
    1: destruct (Hput t) as (m & d & ->).
    2: destruct (Hput (World.clock wb)) as (m & d & ->).
    all: cbn [fst snd].
    all: rewrite execute_through
           by (apply quiet_next; apply (quiet_after_call wb); assumption).
    all: cbn [fst update_conversations]; do 2 eexists; reflexivity.
  - assert (Hin : In c0 (Store.conversations (World.db wa))).
    { assert (H : In c0 (c0 :: rest)) by (left; reflexivity).
      rewrite <- Erows in H. apply filter_In in H as [H _]. exact H. }
    assert (Hput : forall now, exists m d,
              insert_message
                (fun id0 => Msg.mk id0 (Conv.id c0)
                   "whatsapp" direction (Some sender) (Some recipient) (Some body)
                   now now "chat" "text" external_id
                   (if truthy media_type then media_type else None) None)
                (World.db wa) = (Ok [m], d)).
    { intros now.
      destruct (find (fun c => (Conv.id c =? Conv.id c0)%string)
                  (Store.conversations (World.db wa))) as [c|] eqn:F.
      - do 2 eexists. apply (insert_message_unused _ _ c); [reflexivity|exact F].
      - exfalso. apply (find_none _ _ F) in Hin.
        rewrite String.eqb_refl in Hin. discriminate. }
    unfold ret at 1. cbv beta iota.
    destruct timestamp as [t|]; unfold ret, utcnow.
    all: rewrite execute_through by (apply quiet_next; assumption).
    1: destruct (Hput t) as (m & d & ->).
    2: destruct (Hput (World.clock wa)) as (m & d & ->).
    all: cbn [fst snd].
    all: rewrite execute_through
           by (apply quiet_next; apply (quiet_after_call wa); assumption).
    all: cbn [fst update_conversations]; do 2 eexists; reflexivity.
Qed.

End RoundTrip.

(** ** [save_message] under failures *)

Lemma execute_cases {A} (q : Query A) (w : World.t) :
  (exists e, execute q w = (Raise e, after_call w))
  \/ execute q w
     = (fst (q (World.db w)), World.set_db (snd (q (World.db w))) (after_call w)).
Proof.
  destruct (next_fault w) as [e|] eqn:F.
  - left. exists e. apply execute_fault. assumption.
  - right. apply execute_through. assumption.
Qed.

Lemma get_supabase_db (w : World.t) : World.db (snd (get_supabase w)) = World.db w.
Proof.
  unfold get_supabase. destruct (World.client w); [reflexivity|].
  destruct (World.env_ok w); reflexivity.
Qed.

Section SavingUnderFailures.
Context {L : Library}.

Lemma conversations_step_same (jid : string) (d d1 d2 : Store.t) :
  Store.conversations d2 = Store.conversations d1 ->
  conversations_step jid d d1 -> conversations_step jid d d2.
Proof.
  intros E (c & n & H). exists c, n. rewrite E. exact H.
Qed.

Lemma insert_message_conversations (message_data : string -> Msg.row) (d : Store.t) :
  Store.conversations (snd (insert_message message_data d)) = Store.conversations d.
Proof.
  unfold insert_message. cbv zeta.
  destruct (existsb _ _); [reflexivity|]. destruct (parent _ _); reflexivity.
Qed.

Lemma insert_conversation_cases (channel contact_identifier : string)
    (contact_name : ostr) (status : string) (d : Store.t) :
  (exists e, insert_conversation channel contact_identifier contact_name status d
             = (Raise e, d))
  \/ insert_conversation channel contact_identifier contact_name status d
     = (Ok [Conv.mk (new_id (map Conv.id (Store.conversations d))) channel
              contact_identifier contact_name status None],
        Store.mk
          (Store.conversations d
             ++ [Conv.mk (new_id (map Conv.id (Store.conversations d))) channel
                   contact_identifier contact_name status None])
          (Store.messages d)).
Proof.
  unfold insert_conversation. cbv zeta. cbn [Conv.id].
  destruct (existsb _ _); [left; eexists; reflexivity|right; reflexivity].
Qed.

(** The tail of the [try] block, from the point where the conversation
    id is known. *)
Lemma save_message_tail (jid : string) (d : Store.t) (conversation_id : string)
    (mk_row : Z -> string -> Msg.row) (timestamp : option Z) (wc : World.t) :
  conversations_step jid d (World.db wc) ->
  (forall now d', Store.conversations d'
                  = map (touch conversation_id now) (Store.conversations (World.db wc)) ->
                  conversations_step jid d d') ->
  conversations_step jid d
    (World.db (snd
       ((now <- match timestamp with
                | Some t => ret t
                | None => utcnow
                end ;;
         result <- execute (insert_message (mk_row now)) ;;
         execute (update_conversations (Conv.set_last_message_at (Some now))
                    (fun c => (Conv.id c =? conversation_id)%string)) ;;
         ret (match result with
              | m :: _ => Some (Msg.id m)
              | [] => None
              end)) wc))).
Proof.
  intros Hsame Htouched. unfold bind.
  assert (Hnow : exists now,
            match timestamp with Some t => ret t | None => utcnow end wc = (Ok now, wc)).
  { destruct timestamp as [t|]; eexists; reflexivity. }
  destruct Hnow as [now ->].
  destruct (execute_cases (insert_message (mk_row now)) wc) as [[e ->]| ->];
    [eapply conversations_step_same; [|exact Hsame]; reflexivity|].
  pose proof (insert_message_conversations (mk_row now) (World.db wc)) as Hins.
  destruct (insert_message (mk_row now) (World.db wc)) as [[result|e] d'];
    cbn [fst snd] in *;
    [|eapply conversations_step_same; [|exact Hsame]; exact Hins].
  match goal with
  | |- context [execute ?q ?w0] => destruct (execute_cases q w0) as [[e ->]| ->]
  end; [eapply conversations_step_same; [|exact Hsame]; exact Hins|].
  apply (Htouched now). cbn. rewrite Hins. reflexivity.
Qed.

Lemma save_message_conversations (conversation_jid sender recipient body direction : string)
    (external_id media_type : ostr) (timestamp : option Z) (w : World.t) :
  conversations_step conversation_jid (World.db w)
    (World.db (snd (save_message conversation_jid sender recipient body direction
                      external_id media_type timestamp w))).
Proof.
  assert (Hkeep : forall d', Store.conversations d' = Store.conversations (World.db w) ->
                             conversations_step conversation_jid (World.db w) d').
  { intros d' H. exists EmptyString, 0. left. exact H. }
  assert (Hbody : conversations_step conversation_jid (World.db w)
            (World.db (snd (save_message_try conversation_jid sender recipient body
                              direction external_id media_type timestamp w)))).
  { unfold save_message_try. unfold bind at 1.
    pose proof (get_supabase_db w) as Hsup.
    destruct (get_supabase w) as [[u|e] wa]; cbn [snd] in Hsup;
      [|apply Hkeep; cbn [snd]; congruence].
    unfold bind at 1.
    destruct (execute_cases (conversation_id_of conversation_jid) wa) as [[e ->]| ->];
      [apply Hkeep; cbn [snd]; rewrite db_after_call; congruence|].
    unfold conversation_id_of, reading. cbn [fst snd].
    rewrite limit_ok, firstn_one_ids by lia. rewrite Hsup.
    fold (exact_rows (World.db w) conversation_jid).
    set (wb := World.set_db (World.db w) (after_call wa)).
    unfold bind at 1.
    destruct (exact_rows (World.db w) conversation_jid) as [|c0 rest] eqn:Eexact.
    - unfold bind at 1.
      destruct (execute_cases
                  (insert_conversation "whatsapp" conversation_jid None "active") wb)
        as [[e ->]| ->]; [apply Hkeep; reflexivity|].
      destruct (insert_conversation_cases "whatsapp" conversation_jid None "active"
                  (World.db wb)) as [[e ->]| ->]; cbn [fst snd];
        [apply Hkeep; reflexivity|].
      unfold ret at 1. cbn [Conv.id].
      apply (save_message_tail conversation_jid (World.db w)
               (new_id (map Conv.id (Store.conversations (World.db wb))))
               (fun now id0 =>
                  Msg.mk id0 (new_id (map Conv.id (Store.conversations (World.db wb))))
                    "whatsapp" direction (Some sender) (Some recipient) (Some body)
                    now now "chat" "text" external_id
                    (if truthy media_type then media_type else None) None)).
      + exists (new_id (map Conv.id (Store.conversations (World.db wb)))), 0.
        right. right. split; [exact Eexact|]. left. reflexivity.
      + intros now d' Hd'.
        exists (new_id (map Conv.id (Store.conversations (World.db wb)))), now.
        right. right. split; [exact Eexact|]. right. exact Hd'.
    - unfold ret at 1.
      apply (save_message_tail conversation_jid (World.db w) (Conv.id c0)
               (fun now id0 =>
                  Msg.mk id0 (Conv.id c0)
                    "whatsapp" direction (Some sender) (Some recipient) (Some body)
                    now now "chat" "text" external_id
                    (if truthy media_type then media_type else None) None)).
      + apply Hkeep. reflexivity.
      + intros now d' Hd'. exists (Conv.id c0), now. right. left. exact Hd'. }
  unfold save_message, try_except.
  destruct (save_message_try _ _ _ _ _ _ _ _ w) as [[r|e] w']; exact Hbody.
Qed.

Lemma conversations_step_count (jid : string) (d d' : Store.t) :
  conversations_step jid d d' ->
  (exact_rows d jid <> [] ->
   List.length (rows_of_identifier d' jid) = List.length (rows_of_identifier d jid)
   /\ exact_rows d' jid <> [])
  /\ (exact_rows d jid = [] ->
      (List.length (rows_of_identifier d' jid) = List.length (rows_of_identifier d jid)
       /\ exact_rows d' jid = [])
      \/ (List.length (rows_of_identifier d' jid)
          = S (List.length (rows_of_identifier d jid))
          /\ exact_rows d' jid <> [])).
Proof.
  intros (cid & now & H).
  assert (Hmap : forall cs,
            filter (fun c => (Conv.contact_identifier c =? jid)%string)
                   (map (touch cid now) cs)
            = map (touch cid now)
                  (filter (fun c => (Conv.contact_identifier c =? jid)%string) cs)).
  { intros cs. apply filter_map_same. intros c.
    rewrite touch_contact_identifier. reflexivity. }
  assert (Hmapx : forall cs,
            filter (fun c => (Conv.contact_identifier c =? jid)%string
                             && is_whatsapp (Conv.channel c))
                   (map (touch cid now) cs)
            = map (touch cid now)
                  (filter (fun c => (Conv.contact_identifier c =? jid)%string
                                    && is_whatsapp (Conv.channel c)) cs)).
  { intros cs. apply filter_map_same. intros c.
    rewrite touch_contact_identifier, touch_channel. reflexivity. }
  assert (Hnew : forall cs,
            filter (fun c => (Conv.contact_identifier c =? jid)%string)
                   (cs ++ [new_conversation cid jid])
            = filter (fun c => (Conv.contact_identifier c =? jid)%string) cs
              ++ [new_conversation cid jid]).
  { intros cs. rewrite filter_app. simpl. rewrite String.eqb_refl. reflexivity. }
  assert (Hnewx : forall cs,
            filter (fun c => (Conv.contact_identifier c =? jid)%string
                             && is_whatsapp (Conv.channel c))
                   (cs ++ [new_conversation cid jid])
            = filter (fun c => (Conv.contact_identifier c =? jid)%string
                               && is_whatsapp (Conv.channel c)) cs
              ++ [new_conversation cid jid]).
  { intros cs. rewrite filter_app. simpl. rewrite String.eqb_refl. reflexivity. }
  unfold rows_of_identifier, exact_rows in *.
  destruct H as [H|[H|[Hnone [H|H]]]]; rewrite H.
  - split; [intros Hx; split; [reflexivity|exact Hx]|].
    intros Hx. left. split; [reflexivity|exact Hx].
  - rewrite Hmap, Hmapx, length_map. split.
    + intros Hx. split; [reflexivity|].
      intros E. apply map_eq_nil in E. contradiction.
    + intros Hx. left. split; [reflexivity|]. rewrite Hx. reflexivity.
  - rewrite Hnew, Hnewx, length_app. simpl. split; [contradiction|].
    intros _. right. split; [lia|]. rewrite Hnone. discriminate.
  - rewrite Hmap, Hmapx, Hnew, Hnewx, length_map, length_app. simpl.
    split; [contradiction|].
    intros _. right. split; [lia|]. rewrite Hnone. discriminate.
Qed.

(** Whatever fails on the way, two calls of [save_message] for an
    identifier the store did not know never leave two conversation rows
    with that identifier. *)
Lemma save_message_never_duplicates (conversation_jid : string)
    (sender1 recipient1 body1 direction1 : string)
    (external_id1 media_type1 : ostr) (timestamp1 : option Z)
    (sender2 recipient2 body2 direction2 : string)
    (external_id2 media_type2 : ostr) (timestamp2 : option Z) (w : World.t) :
  (forall c, In c (Store.conversations (World.db w)) ->
             Conv.contact_identifier c <> conversation_jid) ->
  (List.length
     (rows_of_identifier
        (World.db
           (snd (save_message conversation_jid sender2 recipient2 body2 direction2
                   external_id2 media_type2 timestamp2
                   (snd (save_message conversation_jid sender1 recipient1 body1
                           direction1 external_id1 media_type1 timestamp1 w)))))
        conversation_jid) <= 1)%nat.
Proof.
  intros Hnew.
  destruct (exact_rows_none (World.db w) conversation_jid Hnew) as [Hexact Hident].
  set (w1 := snd (save_message conversation_jid sender1 recipient1 body1
                    direction1 external_id1 media_type1 timestamp1 w)).
  pose proof (save_message_conversations conversation_jid sender1 recipient1 body1
                direction1 external_id1 media_type1 timestamp1 w) as S1.
  pose proof (save_message_conversations conversation_jid sender2 recipient2 body2
                direction2 external_id2 media_type2 timestamp2 w1) as S2.
  fold w1 in S1.
  apply conversations_step_count in S1 as [_ S1].
  apply conversations_step_count in S2 as [S2a S2b].
  rewrite Hident in S1. simpl in S1.
  destruct (S1 Hexact) as [[L1 X1]|[L1 X1]].
  - destruct (S2b X1) as [[L2 _]|[L2 _]]; lia.
  - destruct (S2a X1) as [L2 _]. lia.
Qed.

End SavingUnderFailures.

(** Witness of [save_outbound_then_context]: the first message saved
    into an empty store. *)
Lemma save_outbound_then_context_witness :
  exists ctx w2,
    get_message_context "r0" 5 5 saved_once = (Ok ctx, w2)
    /\ Message.id (MessageContext.message ctx) = "r0"
    /\ Message.is_from_me (MessageContext.message ctx) = true
    /\ Message.chat_jid (MessageContext.message ctx) = "123@s.whatsapp.net".
Proof.
  apply (save_outbound_then_context (L:=demo_library)
           "123@s.whatsapp.net" "me@s.whatsapp.net" "123@s.whatsapp.net" "hello"
           None None None empty_world saved_once "r0" 5 5);
    first [reflexivity | discriminate | lia].
Defined.

(** Witness of [save_message_twice_one_conversation]: two messages for
    an identifier new to the empty store. *)
Lemma save_message_twice_one_conversation_witness :
  exists c,
    rows_of_identifier (World.db saved_twice) "123@s.whatsapp.net" = [c]
    /\ List.length (Store.conversations (World.db saved_once))
       = S (List.length (Store.conversations (World.db empty_world)))
    /\ List.length (Store.conversations (World.db saved_twice))
       = List.length (Store.conversations (World.db saved_once))
    /\ "r0" <> "r1"
    /\ exists ma mb,
         In ma (Store.messages (World.db saved_twice))
         /\ In mb (Store.messages (World.db saved_twice))
         /\ Msg.id ma = "r0" /\ Msg.id mb = "r1"
         /\ Msg.conversation_id ma = Conv.id c
         /\ Msg.conversation_id mb = Conv.id c.
Proof.
  apply (save_message_twice_one_conversation (L:=demo_library) "123@s.whatsapp.net"
           "me@s.whatsapp.net" "123@s.whatsapp.net" "hello" "outbound" None None None
           "123@s.whatsapp.net" "me@s.whatsapp.net" "hi there" "inbound" None
           (Some "image") (Some 150)
           empty_world saved_once saved_twice "r0" "r1").
  - simpl. intros c [].
  - reflexivity.
  - reflexivity.
Defined.

(** * Further properties of the facade *)

(** ** Reads leave the tables alone *)

(** A program that, whatever the remote calls meet, ends with the tables
    it started from. *)
Definition keeps_db {A} (m : M A) : Prop :=
  forall w, World.db (snd (m w)) = World.db w.

Lemma keeps_ret {A} (a : A) : keeps_db (ret a).
Proof. intros w. reflexivity. Qed.

Lemma keeps_raise {A} (e : exn) : keeps_db (@raise A e).
Proof. intros w. reflexivity. Qed.

Lemma keeps_lift {A} (o : outcome A) : keeps_db (lift o).
Proof. intros w. reflexivity. Qed.

Lemma keeps_print (line : string) : keeps_db (print line).
Proof. intros w. reflexivity. Qed.

Lemma keeps_get_supabase : keeps_db get_supabase.
Proof. intros w. apply get_supabase_db. Qed.

Lemma keeps_bind {A B} (m : M A) (k : A -> M B) :
  keeps_db m -> (forall a, keeps_db (k a)) -> keeps_db (bind m k).
Proof.
  intros Hm Hk w. unfold bind. specialize (Hm w).
  destruct (m w) as [[a|e] w1]; cbn [snd] in *; [|assumption].
  rewrite (Hk a w1). assumption.
Qed.

Lemma keeps_try_except {A} (body : M A) (handler : exn -> M A) :
  keeps_db body -> (forall e, keeps_db (handler e)) -> keeps_db (try_except body handler).
Proof.
  intros Hm Hk w. unfold try_except. specialize (Hm w).
  destruct (body w) as [[a|e] w1]; cbn [snd] in *; [assumption|].
  rewrite (Hk e w1). assumption.
Qed.

Lemma keeps_execute_reading {A} (f : Store.t -> outcome A) :
  keeps_db (execute (reading f)).
Proof.
  intros w. destruct (execute_cases (reading f) w) as [[e ->]| ->]; reflexivity.
Qed.

Create HintDb keeps.
#[local] Hint Resolve keeps_ret keeps_raise keeps_lift keeps_print keeps_get_supabase
  keeps_execute_reading : keeps.

Ltac keeps_step :=
  first
    [ apply keeps_try_except; [|intros ?]
    | apply keeps_bind; [|intros ?]
    | solve [auto with keeps] ].

Lemma keeps_get_sender_name (sender_jid : ostr) : keeps_db (get_sender_name sender_jid).
Proof.
  unfold get_sender_name, get_sender_name_try, contact_name_eq, contact_name_ilike.
  repeat keeps_step.
  destruct (has_contact_name _); repeat keeps_step.
  - destruct sender_jid; auto with keeps.
  - destruct (has_contact_name _); auto with keeps.
Qed.

Lemma keeps_get_message_context (message_id : string) (before after : Z) :
  keeps_db (get_message_context message_id before after).
Proof.
  unfold get_message_context, get_message_context_try, message_by_id,
    messages_before, messages_after.
  repeat keeps_step.
  match goal with |- keeps_db (match ?x with _ => _ end) => destruct x end;
    repeat keeps_step.
Qed.

Lemma keeps_expand_context (messages : list Message.t) (context_before context_after : Z)
    (acc : list Message.t) :
  keeps_db (expand_context messages context_before context_after acc).
Proof.
  revert acc. induction messages as [|msg rest IH]; intros acc; simpl.
  - auto with keeps.
  - apply keeps_bind; [apply keeps_get_message_context|]. intros ctx. apply IH.
Qed.

Lemma keeps_last_message_of (conversation_id : string) :
  keeps_db (execute (last_message_of conversation_id)).
Proof. unfold last_message_of. auto with keeps. Qed.

Lemma keeps_add_last (row : Conv.row) : keeps_db (add_last row).
Proof.
  unfold add_last. apply keeps_bind; [apply keeps_last_message_of|].
  intros [|m rest]; auto with keeps.
Qed.

Lemma keeps_list_chats_loop (rows : list Conv.row) (include_last_message : bool)
    (chats : list Chat.t) :
  keeps_db (list_chats_loop rows include_last_message chats).
Proof.
  revert chats. induction rows as [|row rest IH]; intros chats; simpl.
  - auto with keeps.
  - apply keeps_bind; [|intros chat; apply IH].
    destruct (include_last_message && _); [|auto with keeps].
    apply keeps_bind; [apply keeps_last_message_of|].
    intros [|m ms]; auto with keeps.
Qed.

Section ReadsKeep.
Context {L : Library} {D : Defaults}.

Lemma keeps_format_message (message : Message.t) (show_chat_info : bool) :
  keeps_db (format_message message show_chat_info).
Proof.
  unfold format_message. repeat keeps_step.
  destruct (negb _); [apply keeps_get_sender_name|auto with keeps].
Qed.

Lemma keeps_format_each (messages : list Message.t) (show_chat_info : bool)
    (output : string) :
  keeps_db (format_each messages show_chat_info output).
Proof.
  revert output. induction messages as [|m rest IH]; intros output; simpl.
  - auto with keeps.
  - apply keeps_bind; [apply keeps_format_message|]. intros line. apply IH.
Qed.

Lemma keeps_format_messages_list (messages : list Message.t) (show_chat_info : bool) :
  keeps_db (format_messages_list messages show_chat_info).
Proof.
  destruct messages as [|m rest]; unfold format_messages_list;
    [auto with keeps|apply keeps_format_each].
Qed.

(** The operations that query messages and contacts never change a
    table: whatever the arguments and whatever the remote calls meet, the
    store after the call is the store before it. *)
Theorem message_reads_keep_store :
  (forall sender_jid, keeps_db (get_sender_name sender_jid))
  /\ (forall messages show_chat_info,
        keeps_db (format_messages_list messages show_chat_info))
  /\ (forall message_id before after,
        keeps_db (get_message_context message_id before after))
  /\ (forall after before sender_phone_number chat_jid query limit page
             include_context context_before context_after,
        keeps_db (list_messages after before sender_phone_number chat_jid query
                    limit page include_context context_before context_after))
  /\ (forall query, keeps_db (search_contacts query)).
Proof.
  split; [exact keeps_get_sender_name|].
  split; [exact keeps_format_messages_list|].
  split; [exact keeps_get_message_context|].
  split.
  - intros after before sender_phone_number chat_jid query n page include_context
           context_before context_after.
    unfold list_messages, list_messages_try.
    apply keeps_try_except; [|intros e; repeat keeps_step].
    apply keeps_bind; [auto with keeps|intros _].
    apply keeps_bind; [unfold parse_bound; destruct (truthy after); repeat keeps_step|].
    intros after_dt.
    apply keeps_bind; [unfold parse_bound; destruct (truthy before); repeat keeps_step|].
    intros before_dt.
    apply keeps_bind; [auto with keeps|intros result].
    destruct (include_context && _).
    + apply keeps_bind; [apply keeps_expand_context|].
      intros ms. apply keeps_format_messages_list.
    + apply keeps_format_messages_list.
  - intros query. unfold search_contacts, contacts_matching. repeat keeps_step.
Qed.

(** The operations that query chats never change a table either. *)
Theorem chat_reads_keep_store :
  (forall query limit page include_last_message sort_by,
     keeps_db (list_chats query limit page include_last_message sort_by))
  /\ (forall jid limit page, keeps_db (get_contact_chats jid limit page))
  /\ (forall jid, keeps_db (get_last_interaction jid))
  /\ (forall chat_jid include_last_message,
        keeps_db (get_chat chat_jid include_last_message))
  /\ (forall sender_phone_number,
        keeps_db (get_direct_chat_by_contact sender_phone_number)).
Proof.
  split.
  { intros query n page include_last_message sort_by.
    unfold list_chats, list_chats_try, chats_listing.
    apply keeps_try_except; [|intros e; repeat keeps_step].
    apply keeps_bind; [auto with keeps|intros _].
    apply keeps_bind; [auto with keeps|intros result].
    apply keeps_list_chats_loop. }
  split.
  { intros jid n page. unfold get_contact_chats, contact_chats. repeat keeps_step. }
  split.
  { intros jid. unfold get_last_interaction, get_last_interaction_try,
      conversation_by_identifier.
    apply keeps_try_except; [|intros e; repeat keeps_step].
    apply keeps_bind; [auto with keeps|intros _].
    apply keeps_bind; [auto with keeps|intros [|conv rest]]; [auto with keeps|].
    apply keeps_bind; [apply keeps_last_message_of|intros [|m ms]]; [auto with keeps|].
    apply keeps_bind; [apply keeps_format_message|intros line; auto with keeps]. }
  split.
  { intros chat_jid include_last_message.
    unfold get_chat, get_chat_try, conversation_by_identifier.
    apply keeps_try_except; [|intros e; repeat keeps_step].
    apply keeps_bind; [auto with keeps|intros _].
    apply keeps_bind; [auto with keeps|intros [|row rest]]; [auto with keeps|].
    destruct (include_last_message && _); [|auto with keeps].
    apply keeps_bind; [apply keeps_add_last|intros chat; auto with keeps]. }
  intros phone.
  unfold get_direct_chat_by_contact, get_direct_chat_by_contact_try, direct_conversation.
  apply keeps_try_except; [|intros e; repeat keeps_step].
  apply keeps_bind; [auto with keeps|intros _].
  apply keeps_bind; [auto with keeps|intros [|row rest]]; [auto with keeps|].
  destruct (truthy _); [|auto with keeps].
  apply keeps_bind; [apply keeps_add_last|intros chat; auto with keeps].
Qed.

End ReadsKeep.

(** ** The windows of [get_message_context] are the nearest messages *)

Lemma sorted_app_inv {A} (R : A -> A -> Prop) (l1 l2 : list A) :
  StronglySorted R (l1 ++ l2) ->
  forall x y, In x l1 -> In y l2 -> R x y.
Proof.
  induction l1 as [|a l1 IH]; simpl; intros H x y Hx Hy; [contradiction|].
  inversion H as [|? ? Hs Hall]; subst.
  destruct Hx as [->|Hx].
  - rewrite Forall_forall in Hall. apply Hall. apply in_or_app. right. assumption.
  - apply IH; assumption.
Qed.

Lemma firstn_nearest {A} (R : A -> A -> Prop) (n : nat) (l : list A) (r : A) :
  StronglySorted R l -> In r l ->
  In r (firstn n l) \/ Forall (fun x => R x r) (firstn n l).
Proof.
  intros Hs Hin. rewrite <- (firstn_skipn n l) in Hin, Hs.
  apply in_app_or in Hin as [Hin|Hin]; [left; assumption|right].
  apply Forall_forall. intros x Hx. eapply sorted_app_inv; eassumption.
Qed.

Lemma firstn_short_all {A} (n : nat) (l : list A) :
  (List.length (firstn n l) < n)%nat -> firstn n l = l.
Proof.
  intros H. rewrite length_firstn in H. apply firstn_all2. lia.
Qed.

(** The two windows hold the messages of the conversation nearest to the
    anchor: a message of the conversation earlier than the anchor that is
    not in the [before] window is no later than any message in it, and
    likewise on the other side; a window shorter than its count holds
    every message of its side. *)
Theorem get_message_context_nearest :
  forall (before after : Z) (w : World.t) (m : Msg.row) (c : Conv.row),
    ready w = true -> quiet w = true ->
    NoDup (map Msg.id (Store.messages (World.db w))) ->
    In m (Store.messages (World.db w)) ->
    parent (Store.conversations (World.db w)) m = Some c ->
    0 <= before -> 0 <= after ->
    exists ctx w' earlier later,
      get_message_context (Msg.id m) before after w = (Ok ctx, w')
      /\ MessageContext.before ctx = map to_message earlier
      /\ MessageContext.after ctx = map to_message later
      /\ (forall r, In r (rows_before (World.db w) (Row.mk m (Some (embed c)))) ->
            In r earlier \/ Forall (fun x => created_at r <= created_at x) earlier)
      /\ (forall r, In r (rows_after (World.db w) (Row.mk m (Some (embed c)))) ->
            In r later \/ Forall (fun x => created_at x <= created_at r) later)
      /\ (Z.of_nat (List.length earlier) < before ->
          forall r, In r (rows_before (World.db w) (Row.mk m (Some (embed c)))) ->
                    In r earlier)
      /\ (Z.of_nat (List.length later) < after ->
          forall r, In r (rows_after (World.db w) (Row.mk m (Some (embed c)))) ->
                    In r later).
Proof.
  intros before after w m c Hr Hq Hkey Hin Hparent Hb Ha.
  set (anchor := Row.mk m (Some (embed c))).
  assert (Hrow : rows_with_id (World.db w) (Msg.id m) = [anchor])
    by (apply rows_with_id_stored; assumption).
  rewrite (get_message_context_run (Msg.id m) before after w anchor) by assumption.
  set (lb := order_by created_desc (rows_before (World.db w) anchor)).
  set (la := order_by created_asc (rows_after (World.db w) anchor)).
  assert (Sb : StronglySorted (fun a b => created_desc a b = true) lb)
    by (apply order_by_sorted; [apply created_desc_total|apply created_desc_trans]).
  assert (Sa : StronglySorted (fun a b => created_asc a b = true) la)
    by (apply order_by_sorted; [apply created_asc_total|apply created_asc_trans]).
  exists (MessageContext.mk (to_message anchor)
            (map to_message (rev (firstn (Z.to_nat before) lb)))
            (map to_message (firstn (Z.to_nat after) la))).
  eexists. exists (rev (firstn (Z.to_nat before) lb)), (firstn (Z.to_nat after) la).
  split; [reflexivity|]. split; [reflexivity|]. split; [reflexivity|].
  split; [|split; [|split]].
  - intros r Hr0. apply (proj2 (in_order_by _ created_desc _ _)) in Hr0. fold lb in Hr0.
    destruct (firstn_nearest _ (Z.to_nat before) lb r Sb Hr0) as [H|H].
    + left. apply in_rev in H. exact H.
    + right. apply Forall_forall. intros x Hx. apply in_rev in Hx.
      rewrite Forall_forall in H. specialize (H x Hx).
      unfold created_desc in H. apply Z.leb_le in H. exact H.
  - intros r Hr0. apply (proj2 (in_order_by _ created_asc _ _)) in Hr0. fold la in Hr0.
    destruct (firstn_nearest _ (Z.to_nat after) la r Sa Hr0) as [H|H].
    + left. exact H.
    + right. apply Forall_forall. intros x Hx.
      rewrite Forall_forall in H. specialize (H x Hx).
      unfold created_asc in H. apply Z.leb_le in H. exact H.
  - intros Hlen r Hr0. apply (proj2 (in_order_by _ created_desc _ _)) in Hr0. fold lb in Hr0.
    rewrite length_rev in Hlen. apply (proj1 (in_rev _ _)).
    rewrite firstn_short_all by lia. exact Hr0.
  - intros Hlen r Hr0. apply (proj2 (in_order_by _ created_asc _ _)) in Hr0. fold la in Hr0.
    rewrite firstn_short_all by lia. exact Hr0.
Qed.

(** Witness of [get_message_context_nearest]: the windows of one message
    around [m2] in the demo store. *)
Lemma get_message_context_nearest_witness :
  exists ctx w' earlier later,
    get_message_context "m2" 1 1 demo_world = (Ok ctx, w')
    /\ MessageContext.before ctx = map to_message earlier
    /\ MessageContext.after ctx = map to_message later
    /\ (forall r, In r (rows_before (World.db demo_world) anchor_m2) ->
          In r earlier \/ Forall (fun x => created_at r <= created_at x) earlier)
    /\ (forall r, In r (rows_after (World.db demo_world) anchor_m2) ->
          In r later \/ Forall (fun x => created_at x <= created_at r) later)
    /\ (Z.of_nat (List.length earlier) < 1 ->
        forall r, In r (rows_before (World.db demo_world) anchor_m2) -> In r earlier)
    /\ (Z.of_nat (List.length later) < 1 ->
        forall r, In r (rows_after (World.db demo_world) anchor_m2) -> In r later).
Proof.
  apply (get_message_context_nearest 1 1 demo_world m2 alice);
    try reflexivity; try lia.
  - simpl. repeat constructor; simpl; intuition discriminate.
  - simpl. right. left. reflexivity.
Defined.

(** ** Context expansion in [list_messages] *)

Lemma select_messages_inv (d : Store.t) (row : Row.t) :
  In row (select_messages d) ->
  exists m c, In m (Store.messages d)
              /\ parent (Store.conversations d) m = Some c
              /\ row = Row.mk m (Some (embed c)).
Proof.
  unfold select_messages. intros H. apply in_flat_map in H as (m & Hm & H).
  unfold joined in H. destruct (parent _ m) as [c|] eqn:P; [|contradiction].
  destruct H as [<-|[]]. exists m, c. auto.
Qed.

Lemma ready_client (w : World.t) : World.client w = true -> ready w = true.
Proof. unfold ready. intros ->. reflexivity. Qed.

(** The loop that splices the context windows in concatenates the window
    of every listed message, in the order of the listing; a message that
    lies in several windows is there several times. *)
Theorem expand_context_concatenates :
  forall (rows : list Row.t) (context_before context_after : Z)
         (acc : list Message.t) (w : World.t),
    ready w = true -> quiet w = true ->
    NoDup (map Msg.id (Store.messages (World.db w))) ->
    (forall row, In row rows -> In row (select_messages (World.db w))) ->
    0 <= context_before -> 0 <= context_after ->
    exists w',
      expand_context (map to_message rows) context_before context_after acc w
      = (Ok (acc ++ flat_map (context_window (World.db w) context_before context_after)
                             rows), w')
      /\ World.db w' = World.db w.
Proof.
  intros rows cb ca acc w Hr Hq Hkey Hrows Hb Ha.
  revert acc w Hr Hq Hkey Hrows.
  induction rows as [|row rest IH]; intros acc w Hr Hq Hkey Hrows.
  - simpl. exists w. rewrite app_nil_r. split; reflexivity.
  - assert (Hin : In row (select_messages (World.db w)))
      by (apply Hrows; left; reflexivity).
    destruct (select_messages_inv _ _ Hin) as (m & c & Hm & Hp & ->).
    assert (Hrow : rows_with_id (World.db w) (Msg.id m) = [Row.mk m (Some (embed c))])
      by (apply rows_with_id_stored; assumption).
    cbn [map expand_context]. unfold bind.
    change (Message.id (to_message (Row.mk m (Some (embed c))))) with (Msg.id m).
    rewrite (get_message_context_run (Msg.id m) cb ca w (Row.mk m (Some (embed c))))
      by assumption.
    cbn [MessageContext.before MessageContext.message MessageContext.after].
    set (w1 := after_call (after_call (after_call (World.set_client true w)))).
    destruct (IH (acc ++ map to_message
                     (rev (firstn (Z.to_nat cb)
                        (order_by created_desc
                           (rows_before (World.db w) (Row.mk m (Some (embed c)))))))
                   ++ [to_message (Row.mk m (Some (embed c)))]
                   ++ map to_message
                        (firstn (Z.to_nat ca)
                           (order_by created_asc
                              (rows_after (World.db w) (Row.mk m (Some (embed c)))))))
                w1) as (w' & Hrun & Hdb).
    + apply ready_client. reflexivity.
    + unfold w1. repeat apply quiet_after_call. exact Hq.
    + exact Hkey.
    + intros r Hr0. apply Hrows. right. exact Hr0.
    + exists w'. split; [|exact Hdb].
      rewrite Hrun. f_equal. f_equal.
      cbn [flat_map]. unfold context_window at 2.
      change (World.db w1) with (World.db w).
      rewrite <- !app_assoc. reflexivity.
Qed.

(** Witness of [expand_context_concatenates]: two neighbours of the demo
    store, each in the window of the other. *)
Lemma expand_context_concatenates_witness :
  exists w',
    expand_context
      (map to_message [anchor_m2; Row.mk m3 (Some (embed alice))]) 1 1 [] demo_world
    = (Ok ([] ++ flat_map (context_window (World.db demo_world) 1 1)
                          [anchor_m2; Row.mk m3 (Some (embed alice))]), w')
    /\ World.db w' = World.db demo_world.
Proof.
  apply (expand_context_concatenates
           [anchor_m2; Row.mk m3 (Some (embed alice))] 1 1 [] demo_world);
    try reflexivity; try lia.
  - simpl. repeat constructor; simpl; intuition discriminate.
  - intros row [<-|[<-|[]]]; simpl; auto.
Defined.

(** ** [list_messages] and [format_messages_list] *)

Lemma range_ok {A} (start stop : Z) (rows : list A) :
  0 <= start -> 0 <= stop - start + 1 ->
  range start stop rows
  = Ok (firstn (Z.to_nat (stop - start + 1)) (skipn (Z.to_nat start) rows)).
Proof.
  intros H1 H2. unfold range. destruct (Z.ltb_spec start 0); [lia|].
  apply limit_ok. assumption.
Qed.

Lemma filter_none {A} (p : A -> bool) (l : list A) :
  (forall x, In x l -> p x = false) -> filter p l = [].
Proof.
  induction l as [|x l IH]; simpl; intros H; [reflexivity|].
  rewrite (H x) by (left; reflexivity). apply IH. intros y Hy. apply H. right. exact Hy.
Qed.

Section ListingMore.
Context {L : Library}.

Lemma parse_bound_bound (s : ostr) (w : World.t) : parse_bound s w = (bound s, w).
Proof.
  unfold parse_bound, bound, bind, lift, ret.
  destruct (truthy s); [|reflexivity]. destruct (fromisoformat (pystr s)); reflexivity.
Qed.

(** When no message passes the filters, [list_messages] answers with the
    no-messages sentence, with or without context expansion, after one
    remote call. *)
Theorem list_messages_no_match :
  forall (after before sender_phone_number chat_jid query : ostr) (n page : Z)
         (include_context : bool) (context_before context_after : Z)
         (after_dt before_dt : option Z) (w : World.t),
    ready w = true -> next_fault w = None ->
    bound after = Ok after_dt -> bound before = Ok before_dt ->
    0 <= page * n -> 0 <= n ->
    (forall row, In row (select_messages (World.db w)) ->
                 passes after_dt before_dt sender_phone_number chat_jid query row = false) ->
    list_messages after before sender_phone_number chat_jid query n page
      include_context context_before context_after w
    = (Ok "No messages to display.", after_call (World.set_client true w)).
Proof.
  intros after before sender chat query n page include cb ca after_dt before_dt w
         Hr Hf Ha Hb Hoff Hn Hnone.
  unfold list_messages, try_except, list_messages_try, bind.
  rewrite get_supabase_ready by assumption.
  rewrite !parse_bound_bound, Ha, Hb.
  rewrite execute_reading by assumption.
  rewrite range_ok by lia.
  rewrite db_set_client.
  rewrite (filter_none _ (select_messages (World.db w))) by exact Hnone.
  cbn [order_by fold_right].
  rewrite skipn_nil, firstn_nil. cbn [map nonempty].
  rewrite andb_false_r. reflexivity.
Qed.

End ListingMore.

(** Witness of [list_messages_no_match]: a sender nobody has. *)
Lemma list_messages_no_match_witness :
  list_messages (L:=demo_library) None None (Some "nobody") None None 20 0 true 1 1
    demo_world
  = (Ok "No messages to display.", after_call (World.set_client true demo_world)).
Proof.
  apply (list_messages_no_match (L:=demo_library) None None (Some "nobody") None None
           20 0 true 1 1 None None demo_world);
    try reflexivity; try lia.
  intros row Hrow. simpl in Hrow.
  destruct Hrow as [<-|[<-|[<-|[<-|[]]]]]; reflexivity.
Defined.

Lemma string_app_assoc (a b c : string) : ((a ++ b) ++ c = a ++ (b ++ c))%string.
Proof. induction a as [|x a IH]; simpl; [reflexivity|]. rewrite IH. reflexivity. Qed.

Lemma string_app_nil_r (a : string) : (a ++ EmptyString = a)%string.
Proof. induction a as [|x a IH]; simpl; [reflexivity|]. rewrite IH. reflexivity. Qed.

Section FormattingMore.
Context {L : Library}.

Lemma format_message_run (message : Message.t) (show_chat_info : bool) (w : World.t) :
  exists sender_name w',
    format_message message show_chat_info w
    = (Ok (message_line message show_chat_info sender_name), w')
    /\ (Message.is_from_me message = true -> sender_name = Some "Me").
Proof.
  unfold format_message, try_except, bind, message_line.
  destruct (Message.is_from_me message) eqn:Me; cbn [negb]; cbv beta iota.
  - exists (Some "Me"), w. split; [reflexivity|]. intros _. reflexivity.
  - destruct (get_sender_name_total (Message.sender message) w) as (r & w' & Hrun & _).
    rewrite Hrun. exists r, w'. split; [reflexivity|discriminate].
Qed.

Lemma format_each_lines (messages : list Message.t) (show_chat_info : bool)
    (output : string) (w : World.t) :
  exists names w',
    List.length names = List.length messages
    /\ format_each messages show_chat_info output w
       = (Ok (output ++ join_lines
                (map (fun p => message_line (fst p) show_chat_info (snd p))
                     (combine messages names)))%string, w')
    /\ Forall (fun p => Message.is_from_me (fst p) = true -> snd p = Some "Me")
              (combine messages names).
Proof.
  revert output w. induction messages as [|m rest IH]; intros output w.
  - exists [], w. split; [reflexivity|]. split; [|constructor].
    simpl. rewrite string_app_nil_r. reflexivity.
  - destruct (format_message_run m show_chat_info w) as (name & w1 & Hrun & Hme).
    destruct (IH (output ++ message_line m show_chat_info name)%string w1)
      as (names & w' & Hlen & Hrest & Hall).
    exists (name :: names), w'. split; [simpl; congruence|]. split.
    + cbn [format_each]. unfold bind. rewrite Hrun, Hrest.
      cbn [combine map join_lines fst snd]. rewrite string_app_assoc. reflexivity.
    + cbn [combine]. constructor; [exact Hme|exact Hall].
Qed.

(** [format_messages_list] never raises and never drops a message: for an
    empty list it gives the no-messages sentence, otherwise one line per
    message, in the order of the list, whatever the lookups of the senders
    meet; a message from self is signed ["Me"]. *)
Theorem format_messages_list_lines :
  forall (messages : list Message.t) (show_chat_info : bool) (w : World.t),
    exists names w',
      List.length names = List.length messages
      /\ format_messages_list messages show_chat_info w
         = (Ok (match messages with
                | [] => "No messages to display."
                | _ :: _ =>
                    join_lines (map (fun p => message_line (fst p) show_chat_info (snd p))
                                    (combine messages names))
                end), w')
      /\ Forall (fun p => Message.is_from_me (fst p) = true -> snd p = Some "Me")
                (combine messages names).
Proof.
  intros messages show_chat_info w.
  destruct messages as [|m rest].
  - exists [], w. split; [reflexivity|]. split; [reflexivity|constructor].
  - destruct (format_each_lines (m :: rest) show_chat_info EmptyString w)
      as (names & w' & Hlen & Hrun & Hall).
    exists names, w'. split; [exact Hlen|]. split; [|exact Hall].
    unfold format_messages_list. rewrite Hrun. reflexivity.
Qed.

End FormattingMore.

(** ** Naming a contact, then resolving it *)

Lemma get_sender_name_exact (sender_jid : string) (w : World.t) (c : Conv.row)
    (rest : list Conv.row) :
  ready w = true -> next_fault w = None ->
  exact_rows (World.db w) sender_jid = c :: rest ->
  truthy (Conv.contact_name c) = true ->
  get_sender_name (Some sender_jid) w
  = (Ok (Conv.contact_name c), after_call (World.set_client true w)).
Proof.
  intros Hr Hf Hrows Hname.
  unfold get_sender_name, try_except, get_sender_name_try, bind.
  rewrite get_supabase_ready by assumption.
  unfold contact_name_eq.
  rewrite execute_reading by assumption.
  rewrite limit_ok by lia. cbn [pystr]. rewrite db_set_client.
  fold (exact_rows (World.db w) sender_jid). rewrite Hrows.
  change (Z.to_nat 1) with 1%nat. cbn [map firstn has_contact_name data0].
  rewrite Hname. reflexivity.
Qed.

Lemma update_contact_name_run (jid name : string) (w : World.t) :
  ready w = true -> next_fault w = None ->
  update_contact_name jid name w
  = (Ok true,
     World.set_db
       (Store.mk
          (map (fun c => if (Conv.contact_identifier c =? jid)%string
                            && is_whatsapp (Conv.channel c)
                         then Conv.set_contact_name (Some name) c else c)
               (Store.conversations (World.db w)))
          (Store.messages (World.db w)))
       (after_call (World.set_client true w))).
Proof.
  intros Hr Hf.
  unfold update_contact_name, try_except, update_contact_name_try, bind.
  rewrite get_supabase_ready by assumption.
  rewrite execute_through by assumption. reflexivity.
Qed.

(** A name given with [update_contact_name] to an identifier that has a
    WhatsApp conversation is the name [get_sender_name] answers with
    afterwards, when the name is not empty and no call fails. *)
Theorem update_contact_name_then_get_sender_name :
  forall (jid name : string) (w : World.t) (c : Conv.row),
    ready w = true -> quiet w = true ->
    name <> EmptyString ->
    In c (Store.conversations (World.db w)) ->
    Conv.contact_identifier c = jid ->
    is_whatsapp (Conv.channel c) = true ->
    fst (get_sender_name (Some jid) (snd (update_contact_name jid name w)))
    = Ok (Some name).
Proof.
  intros jid name w c Hr Hq Hname Hin Hid Hch.
  rewrite update_contact_name_run by (assumption || apply quiet_next; assumption).
  cbn [snd].
  set (keep := fun c0 => (Conv.contact_identifier c0 =? jid)%string
                         && is_whatsapp (Conv.channel c0)).
  set (w1 := World.set_db _ _).
  assert (Hkeep : keep c = true).
  { unfold keep. rewrite Hid, String.eqb_refl, Hch. reflexivity. }
  assert (Hrows : exists c0 rest,
            exact_rows (World.db w1) jid
            = Conv.set_contact_name (Some name) c0 :: rest).
  { unfold exact_rows, w1. cbn [World.db World.set_db Store.conversations].
    fold keep.
    assert (Hfm : forall l,
              filter keep (map (fun c0 => if keep c0
                                          then Conv.set_contact_name (Some name) c0
                                          else c0) l)
              = map (Conv.set_contact_name (Some name)) (filter keep l)).
    { induction l as [|x l IH]; simpl; [reflexivity|].
      destruct (keep x) eqn:K.
      - change (keep (Conv.set_contact_name (Some name) x)) with (keep x).
        rewrite K. simpl. rewrite IH. reflexivity.
      - rewrite K. exact IH. }
    rewrite Hfm.
    destruct (filter keep (Store.conversations (World.db w))) as [|c0 rest] eqn:F.
    - exfalso. assert (H : In c (filter keep (Store.conversations (World.db w))))
        by (apply filter_In; split; assumption).
      rewrite F in H. contradiction.
    - exists c0, (map (Conv.set_contact_name (Some name)) rest). reflexivity. }
  destruct Hrows as (c0 & rest & Hrows).
  rewrite (get_sender_name_exact jid w1 (Conv.set_contact_name (Some name) c0) rest).
  - reflexivity.
  - apply ready_client. reflexivity.
  - apply quiet_next. unfold w1.
    change (quiet (after_call (World.set_client true w)) = true).
    apply quiet_after_call. exact Hq.
  - exact Hrows.
  - cbn [Conv.set_contact_name Conv.contact_name truthy].
    destruct (String.eqb_spec name EmptyString); [contradiction|reflexivity].
Qed.

(** Witness of [update_contact_name_then_get_sender_name]: the unnamed
    conversation gets a name. *)
Lemma update_contact_name_then_get_sender_name_witness :
  fst (get_sender_name (Some "123@s.whatsapp.net")
         (snd (update_contact_name "123@s.whatsapp.net" "Bob" unnamed_world)))
  = Ok (Some "Bob").
Proof.
  apply (update_contact_name_then_get_sender_name "123@s.whatsapp.net" "Bob"
           unnamed_world unnamed);
    try reflexivity; try discriminate.
  simpl. left. reflexivity.
Defined.

(** ** Saving, then asking for the chat *)



Section SavedAt.
Context {L : Library}.



End SavedAt.




Section SaveThenChat.
Context {L : Library}.



End SaveThenChat.


(** ** Saving, then asking for the last interaction *)

Section SaveThenLast.
Context {L : Library}.



End SaveThenLast.


(** ** What [save_message] leaves in place *)

Lemma touch_same_but_time (conversation_id : string) (now : Z) (c : Conv.row) :
  same_but_time c (touch conversation_id now c).
Proof.
  unfold same_but_time, touch. destruct (_ =? _)%string; repeat split; reflexivity.
Qed.

Lemma same_but_time_refl (l : list Conv.row) : Forall2 same_but_time l l.
Proof.
  induction l as [|c l IH]; constructor; [|exact IH].
  unfold same_but_time. repeat split; reflexivity.
Qed.

Lemma same_but_time_touched (conversation_id : string) (now : Z) (l : list Conv.row) :
  Forall2 same_but_time l (map (touch conversation_id now) l).
Proof.
  induction l as [|c l IH]; simpl; constructor; [apply touch_same_but_time|exact IH].
Qed.

Section SavingKeeps.
Context {L : Library}.

(** The message table after the tail of the [try] block. *)
Lemma save_message_tail_messages (conversation_id : string)
    (mk_row : Z -> string -> Msg.row) (timestamp : option Z) (wc : World.t) :
  let w' := snd ((now <- match timestamp with
                         | Some t => ret t
                         | None => utcnow
                         end ;;
                  result <- execute (insert_message (mk_row now)) ;;
                  execute (update_conversations (Conv.set_last_message_at (Some now))
                             (fun c => (Conv.id c =? conversation_id)%string)) ;;
                  ret (match result with
                       | m :: _ => Some (Msg.id m)
                       | [] => None
                       end)) wc) in
  Store.messages (World.db w') = Store.messages (World.db wc)
  \/ exists now id0,
       Store.messages (World.db w') = Store.messages (World.db wc) ++ [mk_row now id0].
Proof.
  cbv zeta. unfold bind.
  assert (Hnow : exists now,
            match timestamp with Some t => ret t | None => utcnow end wc = (Ok now, wc)).
  { destruct timestamp as [t|]; eexists; reflexivity. }
  destruct Hnow as [now ->].
  destruct (execute_cases (insert_message (mk_row now)) wc) as [[e ->]| ->];
    [left; reflexivity|].
  assert (Hins : (exists e, insert_message (mk_row now) (World.db wc)
                            = (Raise e, World.db wc))
                 \/ exists id0, insert_message (mk_row now) (World.db wc)
                                = (Ok [mk_row now id0],
                                   Store.mk (Store.conversations (World.db wc))
                                     (Store.messages (World.db wc) ++ [mk_row now id0]))).
  { unfold insert_message. cbv zeta.
    destruct (existsb _ _); [left; eexists; reflexivity|].
    destruct (parent _ _); [right; eexists; reflexivity|left; eexists; reflexivity]. }
  destruct Hins as [[e ->]|[id0 ->]]; cbn [fst snd].
  - left. destruct wc; reflexivity.
  - right. exists now, id0.
    match goal with
    | |- context [execute ?q ?w0] => destruct (execute_cases q w0) as [[e ->]| ->]
    end; reflexivity.
Qed.

(** Whatever it is given and whatever fails, [save_message] removes and
    rewrites nothing: the message table is the old one, or the old one
    with the new message at its end; the conversation table is the old
    one, row for row the same but for last-message times, with at most one
    row added. *)
Theorem save_message_only_appends :
  forall (conversation_jid sender recipient body direction : string)
         (external_id media_type : ostr) (timestamp : option Z) (w : World.t),
    (Store.messages
       (World.db (snd (save_message conversation_jid sender recipient body direction
                         external_id media_type timestamp w)))
     = Store.messages (World.db w)
     \/ exists id0 conversation_id now,
          Store.messages
            (World.db (snd (save_message conversation_jid sender recipient body direction
                              external_id media_type timestamp w)))
          = Store.messages (World.db w)
            ++ [new_message id0 conversation_id sender recipient body direction
                  external_id media_type now])
    /\ exists old added,
         Store.conversations
           (World.db (snd (save_message conversation_jid sender recipient body direction
                             external_id media_type timestamp w)))
         = old ++ added
         /\ Forall2 same_but_time (Store.conversations (World.db w)) old
         /\ (List.length added <= 1)%nat.
Proof.
  intros jid sender recipient body direction ext mt ts w. split.
  - set (P := fun d' : Store.t =>
        Store.messages d' = Store.messages (World.db w)
        \/ exists id0 cid now,
             Store.messages d'
             = Store.messages (World.db w)
               ++ [new_message id0 cid sender recipient body direction ext mt now]).
    assert (Hbody : P (World.db (snd (save_message_try jid sender recipient body
                                        direction ext mt ts w)))).
    { unfold save_message_try. unfold bind at 1.
      pose proof (get_supabase_db w) as Hsup.
      destruct (get_supabase w) as [[u|e] wa]; cbn [snd] in Hsup;
        [|left; cbn [snd]; congruence].
      unfold bind at 1.
      destruct (execute_cases (conversation_id_of jid) wa) as [[e ->]| ->];
        [left; cbn [snd]; rewrite db_after_call; congruence|].
      unfold conversation_id_of, reading. cbn [fst snd].
      rewrite limit_ok, firstn_one_ids by lia.
      set (wb := World.set_db (World.db wa) (after_call wa)).
      assert (Hwb : Store.messages (World.db wb) = Store.messages (World.db w))
        by (unfold wb; cbn [World.db World.set_db]; congruence).
      unfold bind at 1.
      destruct (filter _ _) as [|c0 rest].
      - unfold bind at 1.
        destruct (execute_cases (insert_conversation "whatsapp" jid None "active") wb)
          as [[e ->]| ->]; [left; cbn [snd]; rewrite db_after_call; exact Hwb|].
        destruct (insert_conversation_cases "whatsapp" jid None "active" (World.db wb))
          as [[e ->]| ->]; cbn [fst snd];
          [left; cbn [World.db World.set_db]; exact Hwb|].
        unfold ret at 1. cbn [Conv.id].
        set (cid := new_id (map Conv.id (Store.conversations (World.db wb)))).
        set (wc := World.set_db _ (after_call wb)).
        assert (Hwc : Store.messages (World.db wc) = Store.messages (World.db w))
          by exact Hwb.
        destruct (save_message_tail_messages cid
                    (fun now id0 => new_message id0 cid sender recipient body direction
                                      ext mt now) ts wc) as [H|(now & id0 & H)].
        + left. rewrite Hwc in H. exact H.
        + right. exists id0, cid, now. rewrite Hwc in H. exact H.
      - unfold ret at 1.
        destruct (save_message_tail_messages (Conv.id c0)
                    (fun now id0 => new_message id0 (Conv.id c0) sender recipient body
                                      direction ext mt now) ts wb)
          as [H|(now & id0 & H)].
        + left. rewrite Hwb in H. exact H.
        + right. exists id0, (Conv.id c0), now. rewrite Hwb in H. exact H. }
    unfold save_message, try_except.
    destruct (save_message_try _ _ _ _ _ _ _ _ w) as [[r|e] w']; exact Hbody.
  - destruct (save_message_conversations jid sender recipient body direction ext mt ts w)
      as (cid & now & [H|[H|[_ [H|H]]]]).
    + exists (Store.conversations (World.db w)), []. rewrite app_nil_r.
      split; [exact H|]. split; [apply same_but_time_refl|simpl; lia].
    + exists (map (touch cid now) (Store.conversations (World.db w))), [].
      rewrite app_nil_r.
      split; [exact H|]. split; [apply same_but_time_touched|simpl; lia].
    + exists (Store.conversations (World.db w)), [new_conversation cid jid].
      split; [exact H|]. split; [apply same_but_time_refl|simpl; lia].
    + exists (map (touch cid now) (Store.conversations (World.db w))),
        [touch cid now (new_conversation cid jid)].
      split; [rewrite H; apply map_app|].
      split; [apply same_but_time_touched|simpl; lia].
Qed.

End SavingKeeps.

Section PartialWrite.
Context {L : Library}.

(** Nothing is rolled back: when the lookup and the insertion of a new
    conversation go through and the insertion of the message fails,
    [save_message] answers [None], prints the error, and the new
    conversation stays in the store without a message. *)
Theorem save_message_keeps_new_conversation :
  forall (conversation_jid sender recipient body direction : string)
         (external_id media_type : ostr) (timestamp : option Z) (w : World.t)
         (e : exn) (rest : list (option exn)),
    ready w = true ->
    World.faults w = None :: None :: Some e :: rest ->
    exact_rows (World.db w) conversation_jid = [] ->
    ~ In (new_id (map Conv.id (Store.conversations (World.db w))))
         (map Conv.id (Store.conversations (World.db w))) ->
    exists w',
      save_message conversation_jid sender recipient body direction
        external_id media_type timestamp w = (Ok None, w')
      /\ Store.conversations (World.db w')
         = Store.conversations (World.db w)
           ++ [new_conversation (new_id (map Conv.id (Store.conversations (World.db w))))
                 conversation_jid]
      /\ Store.messages (World.db w') = Store.messages (World.db w)
      /\ World.stdout w'
         = (World.stdout w ++ [("Error saving message: " ++ str_exn e)%string])%list.
Proof.
  intros jid sender recipient body direction ext mt ts w e rest Hr Hf Hexact Hnew.
  destruct w as [env cl d f clk out]. cbn [World.faults] in Hf. subst f.
  cbn [World.db] in Hexact, Hnew.
  unfold save_message, try_except, save_message_try, bind.
  rewrite get_supabase_ready by assumption.
  unfold conversation_id_of.
  rewrite execute_reading by reflexivity.
  rewrite limit_ok, firstn_one_ids by lia.
  cbn [World.db World.set_client].
  fold (exact_rows d jid). rewrite Hexact.
  rewrite execute_through by reflexivity.
  cbn [World.db World.set_client after_call World.set_faults].
  unfold insert_conversation at 1 2. cbv zeta. cbn [Conv.id].
  destruct (existsb _ _) eqn:E.
  { exfalso. apply existsb_exists in E as (x & Hx & E). apply String.eqb_eq in E.
    subst x. contradiction. }
  cbn [fst snd ret].
  assert (Hnow : forall w0, exists now,
            match ts with Some t => ret t | None => utcnow end w0 = (Ok now, w0)).
  { intros w0. destruct ts as [t|]; eexists; reflexivity. }
  match goal with
  | |- context [match ts with Some t => ret t | None => utcnow end ?w0] =>
      destruct (Hnow w0) as [now ->]
  end.
  rewrite (execute_fault _ _ e) by reflexivity.
  unfold print, ret. eexists. split; [reflexivity|].
  cbn. repeat split; reflexivity.
Qed.

End PartialWrite.

(** Witness of [save_message_keeps_new_conversation]: the store lets two
    calls through and then drops the connection. *)
Lemma save_message_keeps_new_conversation_witness :
  exists w',
    save_message (L:=demo_library) "999@s.whatsapp.net" "999@s.whatsapp.net"
      "me@s.whatsapp.net" "hi" "inbound" None None None
      (World.set_faults [None; None; Some (APIError "connection lost")] demo_world)
    = (Ok None, w')
    /\ Store.conversations (World.db w')
       = Store.conversations (World.db demo_world)
         ++ [new_conversation "r2" "999@s.whatsapp.net"]
    /\ Store.messages (World.db w') = Store.messages (World.db demo_world)
    /\ World.stdout w' = ([] ++ ["Error saving message: connection lost"])%list.
Proof.
  apply (save_message_keeps_new_conversation (L:=demo_library)
           "999@s.whatsapp.net" "999@s.whatsapp.net" "me@s.whatsapp.net" "hi" "inbound"
           None None None
           (World.set_faults [None; None; Some (APIError "connection lost")] demo_world)
           (APIError "connection lost") []);
    try reflexivity.
  simpl. intuition discriminate.
Defined.

(** ** [list_chats] *)

Lemma execute_last_message_of (conversation_id : string) (w : World.t) :
  (exists e, execute (last_message_of conversation_id) w = (Raise e, after_call w))
  \/ execute (last_message_of conversation_id) w
     = (Ok (match latest (World.db w) conversation_id with
            | Some m => [m]
            | None => []
            end), after_call w).
Proof.
  destruct (next_fault w) as [e|] eqn:F.
  - left. exists e. apply execute_fault. exact F.
  - right. unfold last_message_of. rewrite execute_reading by exact F.
    rewrite limit_ok by lia. change (Z.to_nat 1) with 1%nat.
    unfold latest. destruct (order_by _ _); reflexivity.
Qed.

Lemma execute_last_message_of_quiet (conversation_id : string) (w : World.t) :
  next_fault w = None ->
  execute (last_message_of conversation_id) w
  = (Ok (match latest (World.db w) conversation_id with
         | Some m => [m]
         | None => []
         end), after_call w).
Proof.
  intros F. unfold last_message_of. rewrite execute_reading by exact F.
  rewrite limit_ok by lia. change (Z.to_nat 1) with 1%nat.
  unfold latest. destruct (order_by _ _); reflexivity.
Qed.

(** The loop either raises or adds the entry of every row. *)
Lemma list_chats_loop_outcome (rows : list Conv.row) (include_last_message : bool)
    (chats : list Chat.t) (w : World.t) :
  match fst (list_chats_loop rows include_last_message chats w) with
  | Ok result =>
      result = chats ++ map (chat_summary (World.db w) include_last_message) rows
  | Raise _ => True
  end.
Proof.
  revert chats w. induction rows as [|row rest IH]; intros chats w.
  - simpl. rewrite app_nil_r. reflexivity.
  - cbn [list_chats_loop map]. unfold bind at 1. unfold chat_summary at 1.
    destruct (include_last_message && truthy (Some (Conv.id row))).
    + unfold bind at 1.
      destruct (execute_last_message_of (Conv.id row) w) as [[e ->]| ->];
        [exact I|].
      destruct (latest (World.db w) (Conv.id row)) as [m|]; unfold ret at 1;
        cbv beta iota.
      * specialize (IH (chats ++ [set_last (chat_of_row row) m]) (after_call w)).
        destruct (list_chats_loop rest _ _ (after_call w)) as [[r|e] w'];
          cbn [fst] in *; [|exact I].
        rewrite IH, db_after_call, <- app_assoc. reflexivity.
      * specialize (IH (chats ++ [chat_of_row row]) (after_call w)).
        destruct (list_chats_loop rest _ _ (after_call w)) as [[r|e] w'];
          cbn [fst] in *; [|exact I].
        rewrite IH, db_after_call, <- app_assoc. reflexivity.
    + unfold ret at 1.
      specialize (IH (chats ++ [chat_of_row row]) w).
      destruct (list_chats_loop rest _ _ w) as [[r|e] w'];
        cbn [fst] in *; [|exact I].
      rewrite IH, <- app_assoc. reflexivity.
Qed.


(** [list_chats] answers with the empty list or with the entries of its
    page. *)
Lemma list_chats_outcome (query : ostr) (n page : Z) (include_last_message : bool)
    (sort_by : string) (w : World.t) :
  exists chats,
    fst (list_chats query n page include_last_message sort_by w) = Ok chats
    /\ (chats = []
        \/ chats = map (chat_summary (World.db w) include_last_message)
                       (page_of n page (listed query sort_by (World.db w)))).
Proof.
  unfold list_chats, try_except, list_chats_try. unfold bind at 1.
  pose proof (get_supabase_db w) as Hsup.
  destruct (get_supabase w) as [[u|e] wa]; cbn [snd] in Hsup;
    [|exists []; split; [reflexivity|left; reflexivity]].
  unfold bind at 1.
  destruct (execute_cases (chats_listing query n page sort_by) wa) as [[e ->]| ->];
    [exists []; split; [reflexivity|left; reflexivity]|].
  unfold chats_listing, reading. cbv zeta. cbn [fst snd]. unfold range.
  destruct (page * n <? 0); [exists []; split; [reflexivity|left; reflexivity]|].
  unfold limit. replace (page * n + n - 1 - page * n + 1) with n by ring.
  destruct (n <? 0); [exists []; split; [reflexivity|left; reflexivity]|].
  rewrite Hsup. fold (listed query sort_by (World.db w)).
  fold (page_of n page (listed query sort_by (World.db w))).
  set (w1 := World.set_db (World.db w) (after_call wa)).
  pose proof (list_chats_loop_outcome
                (page_of n page (listed query sort_by (World.db w)))
                include_last_message [] w1) as H.
  destruct (list_chats_loop _ _ _ w1) as [[r|e] w']; cbn [fst] in H;
    [|exists []; split; [reflexivity|left; reflexivity]].
  exists r. split; [reflexivity|]. right. exact H.
Qed.

Lemma in_skipn {A} (n : nat) (l : list A) (x : A) : In x (skipn n l) -> In x l.
Proof.
  revert l. induction n as [|n IH]; intros [|y l]; simpl; auto.
Qed.

Lemma sorted_skipn {A} (R : A -> A -> Prop) (n : nat) (l : list A) :
  StronglySorted R l -> StronglySorted R (skipn n l).
Proof.
  revert l. induction n as [|n IH]; intros l H; [exact H|].
  destruct l as [|x l]; [exact H|]. simpl. apply IH.
  inversion H; assumption.
Qed.


Lemma last_message_at_desc_total (a b : Conv.row) :
  last_message_at_desc false a b = true \/ last_message_at_desc false b a = true.
Proof.
  unfold last_message_at_desc.
  destruct (Conv.last_message_at a), (Conv.last_message_at b); simpl; auto.
  rewrite !Z.leb_le. lia.
Qed.

Lemma last_message_at_desc_trans (a b c : Conv.row) :
  last_message_at_desc false a b = true -> last_message_at_desc false b c = true ->
  last_message_at_desc false a c = true.
Proof.
  unfold last_message_at_desc.
  destruct (Conv.last_message_at a), (Conv.last_message_at b),
    (Conv.last_message_at c); simpl; try discriminate; auto.
  rewrite !Z.leb_le. lia.
Qed.

Lemma chat_summary_fields (d : Store.t) (include_last_message : bool) (row : Conv.row) :
  Chat.jid (chat_summary d include_last_message row) = Conv.contact_identifier row
  /\ Chat.name (chat_summary d include_last_message row) = Conv.contact_name row
  /\ Chat.last_message_time (chat_summary d include_last_message row)
     = Conv.last_message_at row.
Proof.
  unfold chat_summary. destruct (_ && _); [|repeat split].
  destruct (latest _ _); repeat split.
Qed.

Lemma in_page_listed (query : ostr) (sort_by : string) (d : Store.t) (n page : Z)
    (row : Conv.row) :
  In row (page_of n page (listed query sort_by d)) ->
  In row (Store.conversations d)
  /\ is_whatsapp (Conv.channel row) = true
  /\ chat_query_filter query row = true.
Proof.
  unfold page_of, listed. intros H.
  apply in_firstn, in_skipn, in_order_by, filter_In in H as [Hin H].
  apply andb_true_iff in H. tauto.
Qed.

(** Whatever it is given and whatever the remote calls meet, [list_chats]
    answers with a list: at most [limit] entries, each the identifier,
    name and last-message time of a WhatsApp conversation, one that
    passes the query when the query is a value of a filter list, and,
    sorted by last activity, in descending order of that time as far as
    the conversations have one. *)
Theorem list_chats_page :
  forall (query : ostr) (n page : Z) (include_last_message : bool) (sort_by : string)
         (w : World.t),
    exists chats,
      fst (list_chats query n page include_last_message sort_by w) = Ok chats
      /\ (List.length chats <= Z.to_nat n)%nat
      /\ Forall (fun chat =>
                   exists row,
                     In row (Store.conversations (World.db w))
                     /\ is_whatsapp (Conv.channel row) = true
                     /\ (or_value (pystr query) = true ->
                         chat_query_filter query row = true)
                     /\ Chat.jid chat = Conv.contact_identifier row
                     /\ Chat.name chat = Conv.contact_name row
                     /\ Chat.last_message_time chat = Conv.last_message_at row) chats
      /\ (sort_by = "last_active" -> StronglySorted later_first chats).
Proof.
  intros query n page include_last_message sort_by w.
  destruct (list_chats_outcome query n page include_last_message sort_by w)
    as (chats & Hrun & [->| ->]).
  - exists []. split; [exact Hrun|]. split; [simpl; lia|].
    split; [constructor|]. intros _. constructor.
  - eexists. split; [exact Hrun|]. split.
    { rewrite length_map. unfold page_of. apply firstn_le_length. }
    split.
    { apply Forall_forall. intros chat Hc.
      apply in_map_iff in Hc as (row & <- & Hrow).
      apply in_page_listed in Hrow as (Hin & Hch & Hq).
      exists row. split; [exact Hin|]. split; [exact Hch|].
      split; [intros _; exact Hq|]. apply chat_summary_fields. }
    intros ->. unfold page_of, listed. rewrite String.eqb_refl.
    apply sorted_map with (R := fun a b => last_message_at_desc false a b = true).
    + intros a b H. unfold later_first.
      destruct (chat_summary_fields (World.db w) include_last_message a) as (_ & _ & ->).
      destruct (chat_summary_fields (World.db w) include_last_message b) as (_ & _ & ->).
      unfold last_message_at_desc in H.
      destruct (Conv.last_message_at a), (Conv.last_message_at b); try exact I.
      apply Z.leb_le in H. exact H.
    + apply sorted_firstn, sorted_skipn, order_by_sorted;
        [apply last_message_at_desc_total|apply last_message_at_desc_trans].
Qed.

(** The scenario of the specification: three conversations last active on
    day 1, 3 and 2 are listed as day 3, day 2, day 1. *)
Example list_chats_three_days :
  fst (list_chats None 20 0 false "last_active" three_days)
  = Ok [chat_of_row (day "c2" "3@s.whatsapp.net" 3);
        chat_of_row (day "c3" "2@s.whatsapp.net" 2);
        chat_of_row (day "c1" "1@s.whatsapp.net" 1)].
Proof. vm_compute. reflexivity. Qed.




(** ** The summary of the latest message *)

Lemma msg_created_desc_total (a b : Msg.row) :
  msg_created_desc a b = true \/ msg_created_desc b a = true.
Proof. unfold msg_created_desc. rewrite !Z.leb_le. lia. Qed.

Lemma msg_created_desc_trans (a b c : Msg.row) :
  msg_created_desc a b = true -> msg_created_desc b c = true ->
  msg_created_desc a c = true.
Proof. unfold msg_created_desc. rewrite !Z.leb_le. lia. Qed.

Lemma latest_newest (d : Store.t) (conversation_id : string) (m : Msg.row) :
  latest d conversation_id = Some m -> newest_in d conversation_id m.
Proof.
  unfold latest, newest_in.
  pose proof (order_by_sorted _ msg_created_desc msg_created_desc_total
                msg_created_desc_trans
                (filter (fun x => (Msg.conversation_id x =? conversation_id)%string)
                        (Store.messages d))) as Hs.
  pose proof (in_order_by _ msg_created_desc) as Hin.
  specialize (fun x => Hin x
                (filter (fun x => (Msg.conversation_id x =? conversation_id)%string)
                        (Store.messages d))).
  destruct (order_by msg_created_desc _) as [|m0 ms]; [discriminate|].
  intros H. injection H as ->.
  assert (Hm : In m (filter (fun x => (Msg.conversation_id x =? conversation_id)%string)
                        (Store.messages d))) by (apply Hin; left; reflexivity).
  apply filter_In in Hm as [Hm Hc]. apply String.eqb_eq in Hc.
  split; [exact Hm|]. split; [exact Hc|].
  intros x Hx Hxc.
  assert (Hx' : In x (m :: ms)).
  { apply Hin. apply filter_In. split; [exact Hx|]. apply String.eqb_eq. exact Hxc. }
  destruct Hx' as [<-|Hx']; [lia|].
  inversion Hs as [|? ? _ Hall]; subst.
  rewrite Forall_forall in Hall. specialize (Hall x Hx').
  unfold msg_created_desc in Hall. apply Z.leb_le in Hall. exact Hall.
Qed.

Lemma latest_silent (d : Store.t) (conversation_id : string) :
  latest d conversation_id = None -> silent d conversation_id.
Proof.
  unfold latest, silent.
  pose proof (in_order_by _ msg_created_desc) as Hin.
  specialize (fun x => Hin x
                (filter (fun x => (Msg.conversation_id x =? conversation_id)%string)
                        (Store.messages d))).
  destruct (order_by msg_created_desc _) as [|m0 ms]; [|discriminate].
  intros _ x Hx Hc.
  apply (proj2 (Hin x)). apply filter_In. split; [exact Hx|].
  apply String.eqb_eq. exact Hc.
Qed.

Lemma truthy_false_empty (s : string) : truthy (Some s) = false -> s = EmptyString.
Proof.
  unfold truthy. intros H. apply negb_false_iff in H. apply String.eqb_eq. exact H.
Qed.

Lemma chat_summary_summarised (d : Store.t) (row : Conv.row) :
  In row (Store.conversations d) -> summarised d (chat_summary d true row).
Proof.
  intros Hin. exists row. split; [exact Hin|].
  unfold chat_summary. cbn [andb].
  destruct (truthy (Some (Conv.id row))) eqn:T.
  - destruct (latest d (Conv.id row)) as [m|] eqn:E.
    + split; [reflexivity|]. cbn. exists m.
      split; [apply latest_newest; exact E|]. repeat split.
    + split; [reflexivity|]. cbn. split; [reflexivity|]. split; [reflexivity|].
      right. apply latest_silent. exact E.
  - split; [reflexivity|]. cbn. split; [reflexivity|]. split; [reflexivity|].
    left. apply truthy_false_empty. exact T.
Qed.

(** When [list_chats] is asked for the last messages, every entry it
    returns carries the body, sender and direction of the newest message
    of its conversation, and carries none only when the conversation has
    no message (or no id). *)
Theorem list_chats_last_message :
  forall (query : ostr) (n page : Z) (sort_by : string) (w : World.t)
         (chats : list Chat.t),
    fst (list_chats query n page true sort_by w) = Ok chats ->
    Forall (summarised (World.db w)) chats.
Proof.
  intros query n page sort_by w chats Hrun.
  destruct (list_chats_outcome query n page true sort_by w) as (r & Hr & Hcases).
  rewrite Hrun in Hr. injection Hr as <-.
  destruct Hcases as [->| ->]; [constructor|].
  apply Forall_forall. intros chat Hc.
  apply in_map_iff in Hc as (row & <- & Hrow).
  apply in_page_listed in Hrow as (Hin & _).
  apply chat_summary_summarised. exact Hin.
Qed.

(** Witness of [list_chats_last_message]: the chats of the demo store. *)
Lemma list_chats_last_message_witness :
  Forall (summarised (World.db demo_world))
    [Chat.mk "123@s.whatsapp.net" (Some "Alice") (Some 30) (Some "bye")
       (Some "123@s.whatsapp.net") (Some false);
     Chat.mk "555-777@g.us" (Some "Family") None (Some "all")
       (Some "555@s.whatsapp.net") (Some false)].
Proof.
  apply (list_chats_last_message None 20 0 "last_active" demo_world).
  vm_compute. reflexivity.
Defined.

Lemma faults_after_call (w : World.t) :
  World.faults (after_call w) = tl (World.faults w).
Proof. reflexivity. Qed.

Lemma stdout_after_call (w : World.t) : World.stdout (after_call w) = World.stdout w.
Proof. reflexivity. Qed.

Lemma list_chats_loop_fault (rows : list Conv.row) (chats : list Chat.t) (w : World.t)
    (k : nat) (e : exn) (rest : list (option exn)) :
  World.faults w = repeat None k ++ Some e :: rest ->
  (k < List.length (lookups rows))%nat ->
  exists w',
    list_chats_loop rows true chats w = (Raise e, w')
    /\ World.db w' = World.db w
    /\ World.stdout w' = World.stdout w.
Proof.
  revert chats w k. induction rows as [|row rows IH]; intros chats w k Hf Hk.
  - simpl in Hk. lia.
  - cbn [list_chats_loop andb]. unfold bind at 1. unfold lookups in Hk.
    cbn [filter] in Hk. fold (lookups rows) in Hk.
    destruct (truthy (Some (Conv.id row))).
    + unfold bind at 1. destruct k as [|k].
      * rewrite (execute_fault _ w e) by (unfold next_fault; rewrite Hf; reflexivity).
        exists (after_call w). repeat split.
      * rewrite execute_last_message_of_quiet
          by (unfold next_fault; rewrite Hf; reflexivity).
        assert (Hf' : World.faults (after_call w) = repeat None k ++ Some e :: rest)
          by (rewrite faults_after_call, Hf; reflexivity).
        cbn [List.length] in Hk. apply PeanoNat.lt_S_n in Hk.
        destruct (latest (World.db w) (Conv.id row)) as [m|]; unfold ret at 1;
          cbv beta iota.
        -- destruct (IH (chats ++ [set_last (chat_of_row row) m]) (after_call w) k
                       Hf' Hk) as (w' & -> & Hd & Ho).
           exists w'. split; [reflexivity|]. split; assumption.
        -- destruct (IH (chats ++ [chat_of_row row]) (after_call w) k
                       Hf' Hk) as (w' & -> & Hd & Ho).
           exists w'. split; [reflexivity|]. split; assumption.
    + unfold ret at 1.
      destruct (IH (chats ++ [chat_of_row row]) w k Hf Hk) as (w' & -> & Hd & Ho).
      exists w'. split; [reflexivity|]. split; assumption.
Qed.

(** All or nothing: when one of the follow-up reads for the last messages
    fails, [list_chats] drops the entries it had built, prints the error
    and answers with the empty list (for a query that is a value of a
    filter list, so that the page is the one written here). *)
Theorem list_chats_all_or_nothing :
  forall (query : ostr) (n page : Z) (sort_by : string) (w : World.t)
         (k : nat) (e : exn) (rest : list (option exn)),
    ready w = true -> 0 <= page * n -> 0 <= n ->
    or_value (pystr query) = true ->
    World.faults w = None :: repeat None k ++ Some e :: rest ->
    (k < List.length (lookups (page_of n page (listed query sort_by (World.db w)))))%nat ->
    exists w',
      list_chats query n page true sort_by w = (Ok [], w')
      /\ World.db w' = World.db w
      /\ World.stdout w' = World.stdout w ++ [("Database error: " ++ str_exn e)%string].
Proof.
  intros query n page sort_by w k e rest Hr Hp Hn _ Hf Hk.
  unfold list_chats, try_except, list_chats_try. unfold bind at 1.
  rewrite get_supabase_ready by assumption. unfold bind at 1.
  unfold chats_listing.
  rewrite execute_reading
    by (rewrite next_fault_set_client; unfold next_fault; rewrite Hf; reflexivity).
  cbv zeta. rewrite range_ok by lia.
  replace (page * n + n - 1 - page * n + 1) with n by ring.
  rewrite db_set_client.
  fold (listed query sort_by (World.db w)).
  fold (page_of n page (listed query sort_by (World.db w))).
  destruct (list_chats_loop_fault (page_of n page (listed query sort_by (World.db w)))
              [] (after_call (World.set_client true w)) k e rest)
    as (w' & -> & Hd & Ho).
  - rewrite faults_after_call. cbn. rewrite Hf. reflexivity.
  - exact Hk.
  - eexists. split; [reflexivity|]. cbn. rewrite Hd, Ho. split; reflexivity.
Qed.

(** Witness of [list_chats_all_or_nothing]: the listing of the demo store
    goes through, the read of the first chat's last message fails. *)
Lemma list_chats_all_or_nothing_witness :
  exists w',
    list_chats None 20 0 true "last_active" second_call_fails = (Ok [], w')
    /\ World.db w' = World.db second_call_fails
    /\ World.stdout w'
       = World.stdout second_call_fails ++ [("Database error: " ++ "timeout")%string].
Proof.
  apply (list_chats_all_or_nothing None 20 0 "last_active" second_call_fails
           0%nat (APIError "timeout") []);
    first [reflexivity | lia | (vm_compute; lia)].
Defined.

(** ** The single-chat lookups *)

Lemma add_last_cases (row : Conv.row) (w : World.t) :
  (exists e, add_last row w = (Raise e, after_call w))
  \/ add_last row w
     = (Ok (match latest (World.db w) (Conv.id row) with
            | Some m => ChatInfo.mk (Conv.contact_identifier row) (Conv.contact_name row)
                          (Conv.last_message_at row) (Some (last_of m))
            | None => chat_info row
            end), after_call w).
Proof.
  unfold add_last, bind.
  destruct (execute_last_message_of (Conv.id row) w) as [[e ->]| ->].
  - left. exists e. reflexivity.
  - right. destruct (latest (World.db w) (Conv.id row)); reflexivity.
Qed.

Lemma describes_summary (d : Store.t) (include_last_message : bool) (row : Conv.row) :
  In row (Store.conversations d) -> is_whatsapp (Conv.channel row) = true ->
  describes d row (chat_info_summary d include_last_message row).
Proof.
  intros Hin Hw. unfold describes, chat_info_summary.
  destruct (include_last_message && truthy (Some (Conv.id row)));
    [|cbn; tauto].
  destruct (latest d (Conv.id row)) as [m|] eqn:E; [|cbn; tauto].
  cbn. repeat (split; [assumption || reflexivity|]).
  exists m. split; [apply latest_newest; exact E|reflexivity].
Qed.

Lemma get_chat_outcome (chat_jid : string) (include_last_message : bool) (w : World.t) :
  exists r,
    fst (get_chat chat_jid include_last_message w) = Ok r
    /\ (r = None
        \/ exists row rest,
             exact_rows (World.db w) chat_jid = row :: rest
             /\ r = Some (chat_info_summary (World.db w) include_last_message row)).
Proof.
  unfold get_chat, try_except, get_chat_try. unfold bind at 1.
  pose proof (get_supabase_db w) as Hsup.
  destruct (get_supabase w) as [[u|e] wa]; cbn [snd] in Hsup;
    [|exists None; split; [reflexivity|left; reflexivity]].
  unfold bind at 1.
  destruct (execute_cases (conversation_by_identifier chat_jid) wa) as [[e ->]| ->];
    [exists None; split; [reflexivity|left; reflexivity]|].
  unfold conversation_by_identifier, reading. cbn [fst snd].
  rewrite limit_ok by lia. change (Z.to_nat 1) with 1%nat.
  rewrite Hsup. fold (exact_rows (World.db w) chat_jid).
  destruct (exact_rows (World.db w) chat_jid) as [|row rest] eqn:E;
    [exists None; split; [reflexivity|left; reflexivity]|].
  cbn [firstn].
  destruct (include_last_message && truthy (Some (Conv.id row))) eqn:T.
  - unfold bind at 1.
    set (w1 := World.set_db (World.db w) (after_call wa)).
    destruct (add_last_cases row w1) as [[e ->]| ->];
      [exists None; split; [reflexivity|left; reflexivity]|].
    eexists. split; [reflexivity|]. right. exists row, rest.
    split; [reflexivity|]. unfold chat_info_summary. rewrite T. reflexivity.
  - eexists. split; [reflexivity|]. right. exists row, rest.
    split; [reflexivity|]. unfold chat_info_summary. rewrite T. reflexivity.
Qed.

(** [get_chat] never raises, and a chat it returns is the entry of a
    WhatsApp conversation of the store with the asked identifier; its
    summary, present only when asked for, is that of the newest message
    of that conversation. *)
Theorem get_chat_answer :
  forall (chat_jid : string) (include_last_message : bool) (w : World.t),
    exists r,
      fst (get_chat chat_jid include_last_message w) = Ok r
      /\ match r with
         | None => True
         | Some chat =>
             ChatInfo.jid chat = chat_jid
             /\ (include_last_message = false -> ChatInfo.last chat = None)
             /\ exists row, describes (World.db w) row chat
         end.
Proof.
  intros chat_jid include_last_message w.
  destruct (get_chat_outcome chat_jid include_last_message w)
    as (r & Hrun & [->|(row & rest & E & ->)]).
  - exists None. split; [exact Hrun|exact I].
  - eexists. split; [exact Hrun|].
    assert (Hin : In row (exact_rows (World.db w) chat_jid))
      by (rewrite E; left; reflexivity).
    apply filter_In in Hin as [Hin Hp]. apply andb_true_iff in Hp as [Hj Hw].
    apply String.eqb_eq in Hj.
    pose proof (describes_summary (World.db w) include_last_message row Hin Hw) as Hd.
    split; [|split].
    + destruct Hd as (_ & _ & -> & _). exact Hj.
    + intros ->. reflexivity.
    + exists row. exact Hd.
Qed.

Lemma get_chat_run (chat_jid : string) (include_last_message : bool) (w : World.t) :
  ready w = true -> quiet w = true ->
  fst (get_chat chat_jid include_last_message w)
  = Ok (match exact_rows (World.db w) chat_jid with
        | row :: _ => Some (chat_info_summary (World.db w) include_last_message row)
        | [] => None
        end).
Proof.
  intros Hr Hq.
  unfold get_chat, try_except, get_chat_try. unfold bind at 1.
  rewrite get_supabase_ready by assumption. unfold bind at 1.
  unfold conversation_by_identifier.
  rewrite execute_reading by (apply quiet_next; assumption).
  rewrite limit_ok by lia. rewrite db_set_client.
  fold (exact_rows (World.db w) chat_jid).
  change (Z.to_nat 1) with 1%nat.
  destruct (exact_rows (World.db w) chat_jid) as [|row rest]; [reflexivity|].
  cbn [firstn]. unfold chat_info_summary.
  destruct (include_last_message && truthy (Some (Conv.id row))); [|reflexivity].
  unfold add_last, bind.
  rewrite execute_last_message_of_quiet
    by (apply quiet_next, quiet_after_call; assumption).
  rewrite db_after_call, db_set_client.
  destruct (latest (World.db w) (Conv.id row)); reflexivity.
Qed.

(** With the store in reach, [get_chat] answers [None] exactly when no
    WhatsApp conversation has the identifier. *)
Theorem get_chat_none_iff :
  forall (chat_jid : string) (include_last_message : bool) (w : World.t),
    ready w = true -> quiet w = true ->
    (fst (get_chat chat_jid include_last_message w) = Ok None
     <-> forall c, In c (Store.conversations (World.db w)) ->
                   is_whatsapp (Conv.channel c) = true ->
                   Conv.contact_identifier c <> chat_jid).
Proof.
  intros chat_jid include_last_message w Hr Hq.
  rewrite get_chat_run by assumption.
  destruct (exact_rows (World.db w) chat_jid) as [|row rest] eqn:E; split.
  - intros _ c Hin Hw Hj.
    assert (H : In c (exact_rows (World.db w) chat_jid)).
    { apply filter_In. split; [exact Hin|]. rewrite Hw, andb_true_r.
      apply String.eqb_eq. exact Hj. }
    rewrite E in H. destruct H.
  - reflexivity.
  - discriminate.
  - intros H. exfalso.
    assert (Hin : In row (exact_rows (World.db w) chat_jid))
      by (rewrite E; left; reflexivity).
    apply filter_In in Hin as [Hin Hp]. apply andb_true_iff in Hp as [Hj Hw].
    apply String.eqb_eq in Hj. exact (H row Hin Hw Hj).
Qed.

(** Witness of [get_chat_none_iff]: the demo store and an identifier it
    does not hold. *)
Lemma get_chat_none_iff_witness :
  fst (get_chat "999@s.whatsapp.net" true demo_world) = Ok None
  <-> forall c, In c (Store.conversations (World.db demo_world)) ->
                is_whatsapp (Conv.channel c) = true ->
                Conv.contact_identifier c <> "999@s.whatsapp.net".
Proof.
  apply (get_chat_none_iff "999@s.whatsapp.net" true demo_world); reflexivity.
Defined.

Lemma get_direct_chat_by_contact_outcome (sender_phone_number : string) (w : World.t) :
  exists r,
    fst (get_direct_chat_by_contact sender_phone_number w) = Ok r
    /\ (r = None
        \/ exists row rest,
             direct_rows (World.db w) sender_phone_number = row :: rest
             /\ r = Some (chat_info_summary (World.db w) true row)).
Proof.
  unfold get_direct_chat_by_contact, try_except, get_direct_chat_by_contact_try.
  unfold bind at 1.
  pose proof (get_supabase_db w) as Hsup.
  destruct (get_supabase w) as [[u|e] wa]; cbn [snd] in Hsup;
    [|exists None; split; [reflexivity|left; reflexivity]].
  unfold bind at 1.
  destruct (execute_cases (direct_conversation sender_phone_number) wa)
    as [[e ->]| ->];
    [exists None; split; [reflexivity|left; reflexivity]|].
  unfold direct_conversation, reading. cbn [fst snd].
  rewrite limit_ok by lia. change (Z.to_nat 1) with 1%nat.
  rewrite Hsup. fold (direct_rows (World.db w) sender_phone_number).
  destruct (direct_rows (World.db w) sender_phone_number) as [|row rest] eqn:E;
    [exists None; split; [reflexivity|left; reflexivity]|].
  cbn [firstn].
  destruct (truthy (Some (Conv.id row))) eqn:T.
  - unfold bind at 1.
    set (w1 := World.set_db (World.db w) (after_call wa)).
    destruct (add_last_cases row w1) as [[e ->]| ->];
      [exists None; split; [reflexivity|left; reflexivity]|].
    eexists. split; [reflexivity|]. right. exists row, rest.
    split; [reflexivity|]. unfold chat_info_summary. cbn [andb]. rewrite T.
    reflexivity.
  - eexists. split; [reflexivity|]. right. exists row, rest.
    split; [reflexivity|]. unfold chat_info_summary. cbn [andb]. rewrite T.
    reflexivity.
Qed.

(** [get_direct_chat_by_contact] never raises and never answers with a
    group: a chat it returns is the entry of a WhatsApp conversation
    whose identifier does not end in the group suffix and, for a number
    without pattern characters, contains the number whatever the case. *)
Theorem get_direct_chat_by_contact_answer :
  forall (sender_phone_number : string) (w : World.t),
    exists r,
      fst (get_direct_chat_by_contact sender_phone_number w) = Ok r
      /\ match r with
         | None => True
         | Some chat =>
             endswith (ChatInfo.jid chat) "@g.us" = false
             /\ (all_literal sender_phone_number = true ->
                 contains (lower sender_phone_number) (lower (ChatInfo.jid chat)) = true)
             /\ exists row, describes (World.db w) row chat
         end.
Proof.
  intros phone w.
  destruct (get_direct_chat_by_contact_outcome phone w)
    as (r & Hrun & [->|(row & rest & E & ->)]).
  - exists None. split; [exact Hrun|exact I].
  - eexists. split; [exact Hrun|].
    assert (Hin : In row (direct_rows (World.db w) phone))
      by (rewrite E; left; reflexivity).
    apply filter_In in Hin as [Hin Hp]. apply andb_true_iff in Hp as [Hp Hg].
    apply andb_true_iff in Hp as [Hw Hl]. apply negb_true_iff in Hg.
    pose proof (describes_summary (World.db w) true row Hin Hw) as Hd.
    assert (Hj : ChatInfo.jid (chat_info_summary (World.db w) true row)
                 = Conv.contact_identifier row) by (destruct Hd as (_ & _ & Hj & _); exact Hj).
    rewrite Hj. split; [|split].
    + destruct (endswith (Conv.contact_identifier row) "@g.us") eqn:G; [|reflexivity].
      apply ilike_group_suffix in G. congruence.
    + intros Hlit. rewrite <- ilike_contains by exact Hlit. exact Hl.
    + exists row. exact Hd.
Qed.

(** ** [get_contact_chats] *)

Lemma last_message_at_desc_total_any (nulls : bool) (a b : Conv.row) :
  last_message_at_desc nulls a b = true \/ last_message_at_desc nulls b a = true.
Proof.
  unfold last_message_at_desc.
  destruct (Conv.last_message_at a), (Conv.last_message_at b), nulls; simpl; auto.
  all: rewrite !Z.leb_le; lia.
Qed.

Lemma last_message_at_desc_trans_any (nulls : bool) (a b c : Conv.row) :
  last_message_at_desc nulls a b = true -> last_message_at_desc nulls b c = true ->
  last_message_at_desc nulls a c = true.
Proof.
  unfold last_message_at_desc.
  destruct (Conv.last_message_at a), (Conv.last_message_at b),
    (Conv.last_message_at c), nulls; simpl; try discriminate; auto.
  all: rewrite !Z.leb_le; lia.
Qed.

Section ContactChatsFacts.
Context {D : Defaults}.

(** Wherever the store puts conversations without a last-message time,
    [get_contact_chats] never raises and answers with at most [limit]
    entries, each the identifier, name and time of a WhatsApp
    conversation, under the asked identifier when that is a value of a
    filter list, without a summary, the later-active first. *)
Theorem get_contact_chats_answer :
  forall (jid : string) (n page : Z) (w : World.t),
    exists chats,
      fst (get_contact_chats jid n page w) = Ok chats
      /\ (List.length chats <= Z.to_nat n)%nat
      /\ Forall (fun chat =>
                   (or_value jid = true -> ChatInfo.jid chat = jid)
                   /\ ChatInfo.last chat = None
                   /\ exists row, describes (World.db w) row chat) chats
      /\ StronglySorted later_first_info chats.
Proof.
  intros jid n page w.
  assert (Hnil : exists chats : list ChatInfo.t,
             Ok (@nil ChatInfo.t) = Ok chats
             /\ (List.length chats <= Z.to_nat n)%nat
             /\ Forall (fun chat =>
                          (or_value jid = true -> ChatInfo.jid chat = jid)
                          /\ ChatInfo.last chat = None
                          /\ exists row, describes (World.db w) row chat) chats
             /\ StronglySorted later_first_info chats).
  { exists []. split; [reflexivity|]. split; [simpl; lia|].
    split; constructor. }
  unfold get_contact_chats, try_except. unfold bind at 1.
  pose proof (get_supabase_db w) as Hsup.
  destruct (get_supabase w) as [[u|e] wa]; cbn [snd] in Hsup; [|exact Hnil].
  unfold bind at 1.
  destruct (execute_cases (contact_chats jid n page) wa) as [[e ->]| ->];
    [exact Hnil|].
  unfold contact_chats, reading. cbn [fst snd]. unfold range.
  destruct (page * n <? 0); [exact Hnil|]. unfold limit.
  replace ((page + 1) * n - 1 - page * n + 1) with n by ring.
  destruct (n <? 0); [exact Hnil|]. rewrite Hsup.
  eexists. split; [reflexivity|]. split.
  { rewrite length_map. apply firstn_le_length. }
  split.
  - apply Forall_forall. intros chat Hc.
    apply in_map_iff in Hc as (row & <- & Hrow).
    apply in_firstn, in_skipn, in_order_by, filter_In in Hrow as [Hin Hp].
    apply andb_true_iff in Hp as [Hw Hj]. apply String.eqb_eq in Hj.
    split; [intros _; exact Hj|]. split; [reflexivity|].
    exists row. unfold describes. cbn. tauto.
  - apply sorted_map with (R := fun a b => last_message_at_desc nulls_first a b = true).
    + intros a b H. unfold later_first_info, chat_info. cbn.
      unfold last_message_at_desc in H.
      destruct (Conv.last_message_at a), (Conv.last_message_at b); try exact I.
      apply Z.leb_le in H. exact H.
    + apply sorted_firstn, sorted_skipn, order_by_sorted;
        [apply last_message_at_desc_total_any|apply last_message_at_desc_trans_any].
Qed.

End ContactChatsFacts.

(** ** [get_last_interaction] *)

Section LastInteractionFacts.
Context {L : Library}.

(** With the store in reach, [get_last_interaction] answers [None]
    exactly when no WhatsApp conversation has the identifier or the first
    one that has it holds no message; messages of a second conversation
    under the same identifier are not looked at. *)
Theorem get_last_interaction_none_iff :
  forall (jid : string) (w : World.t),
    ready w = true -> quiet w = true ->
    (fst (get_last_interaction jid w) = Ok None
     <-> match exact_rows (World.db w) jid with
         | row :: _ => silent (World.db w) (Conv.id row)
         | [] => True
         end).
Proof.
  intros jid w Hr Hq.
  unfold get_last_interaction, try_except, get_last_interaction_try, bind.
  rewrite get_supabase_ready by assumption.
  unfold conversation_by_identifier.
  rewrite execute_reading by (apply quiet_next; assumption).
  rewrite limit_ok by lia. rewrite db_set_client.
  fold (exact_rows (World.db w) jid).
  change (Z.to_nat 1) with 1%nat.
  destruct (exact_rows (World.db w) jid) as [|row rest]; [split; reflexivity|].
  cbn [firstn].
  rewrite execute_last_message_of_quiet
    by (apply quiet_next, quiet_after_call; assumption).
  rewrite db_after_call, db_set_client.
  destruct (latest (World.db w) (Conv.id row)) as [m|] eqn:E.
  - destruct (format_message_run
                (_row_to_message (Row.mk m None) (Conv.contact_name row)) true
                (after_call (after_call (World.set_client true w))))
      as (name & w' & Hrun & _).
    rewrite Hrun. split; [discriminate|].
    intros Hs. exfalso. apply latest_newest in E as (Hin & Hc & _).
    exact (Hs m Hin Hc).
  - split; [|reflexivity]. intros _. apply latest_silent. exact E.
Qed.

End LastInteractionFacts.

(** Witness of [get_last_interaction_none_iff]: two conversations under
    one identifier, the first with a message. *)
Lemma get_last_interaction_none_iff_witness :
  fst (@get_last_interaction demo_library "123@s.whatsapp.net" alice_twice) = Ok None
  <-> match exact_rows (World.db alice_twice) "123@s.whatsapp.net" with
      | row :: _ => silent (World.db alice_twice) (Conv.id row)
      | [] => True
      end.
Proof.
  apply (@get_last_interaction_none_iff demo_library "123@s.whatsapp.net" alice_twice);
    reflexivity.
Defined.

(** ** [list_messages] without context *)

Section ListingPage.
Context {L : Library}.

(** Without context expansion, once the listing has gone through,
    [list_messages] writes one line per message of the page, newest
    first, whatever the lookups of the senders' names meet; for an empty
    page it gives the no-messages sentence. *)
Theorem list_messages_page :
  forall (after before sender_phone_number chat_jid query : ostr) (n page : Z)
         (context_before context_after : Z) (after_dt before_dt : option Z)
         (w : World.t),
    ready w = true -> next_fault w = None ->
    bound after = Ok after_dt -> bound before = Ok before_dt ->
    0 <= page * n -> 0 <= n ->
    exists names,
      List.length names
      = List.length (listed_rows after_dt before_dt sender_phone_number chat_jid query
                       n page (World.db w))
      /\ fst (list_messages after before sender_phone_number chat_jid query n page
                false context_before context_after w)
         = Ok (match listed_rows after_dt before_dt sender_phone_number chat_jid query
                       n page (World.db w) with
               | [] => "No messages to display."
               | _ :: _ =>
                   join_lines
                     (map (fun p => message_line (to_message (fst p)) true (snd p))
                          (combine (listed_rows after_dt before_dt sender_phone_number
                                      chat_jid query n page (World.db w)) names))
               end)
      /\ Forall (fun p => Msg.direction (Row.columns (fst p)) = "outbound" ->
                          snd p = Some "Me")
                (combine (listed_rows after_dt before_dt sender_phone_number
                            chat_jid query n page (World.db w)) names).
Proof.
  intros after before sender chat query n page cb ca after_dt before_dt w
         Hr Hf Ha Hb Hoff Hn.
  unfold list_messages, try_except, list_messages_try, bind.
  rewrite get_supabase_ready by assumption.
  rewrite !parse_bound_bound, Ha, Hb.
  rewrite execute_reading by assumption.
  rewrite range_ok by lia.
  replace (page * n + n - 1 - page * n + 1) with n by ring.
  rewrite db_set_client. cbn [andb].
  fold (passes after_dt before_dt sender chat query).
  fold (page_of n page
          (order_by created_desc
             (filter (passes after_dt before_dt sender chat query)
                     (select_messages (World.db w))))).
  fold (listed_rows after_dt before_dt sender chat query n page (World.db w)).
  fold to_message.
  destruct (listed_rows after_dt before_dt sender chat query n page (World.db w))
    as [|row rows].
  - exists []. split; [reflexivity|]. split; [reflexivity|constructor].
  - destruct (format_each_lines (map to_message (row :: rows)) true EmptyString
                (after_call (World.set_client true w)))
      as (names & w' & Hlen & Hrun & Hall).
    exists names. rewrite length_map in Hlen. split; [exact Hlen|].
    assert (Hcomb : forall (rs : list Row.t) (ns : list ostr),
               combine (map to_message rs) ns
               = map (fun p => (to_message (fst p), snd p)) (combine rs ns)).
    { induction rs as [|r rs IH]; intros [|x ns]; simpl; try reflexivity.
      rewrite IH. reflexivity. }
    rewrite Hcomb in Hrun, Hall. rewrite map_map in Hrun. cbn [fst snd] in Hrun.
    split.
    + unfold format_messages_list. cbn [map] in Hrun |- *. rewrite Hrun. reflexivity.
    + rewrite Forall_map in Hall. revert Hall. apply Forall_impl.
      intros [r x] H Hd. cbn [fst snd] in *. apply H.
      unfold to_message, _row_to_message. cbn [Message.is_from_me].
      rewrite Hd. reflexivity.
Qed.

(** A date bound that does not parse is reported as the error string
    before any remote call is made. *)
Theorem list_messages_unparsed_bound :
  forall (after before sender_phone_number chat_jid query : ostr) (n page : Z)
         (include_context : bool) (context_before context_after : Z)
         (e : exn) (w : World.t),
    ready w = true ->
    bound after = Raise e \/ ((exists t, bound after = Ok t) /\ bound before = Raise e) ->
    list_messages after before sender_phone_number chat_jid query n page
      include_context context_before context_after w
    = (Ok ("Error: " ++ str_exn e)%string,
       World.add_stdout ("Database error: " ++ str_exn e)%string
         (World.set_client true w)).
Proof.
  intros after before sender chat query n page include cb ca e w Hr Hbad.
  unfold list_messages, try_except, list_messages_try, bind.
  rewrite get_supabase_ready by assumption.
  rewrite !parse_bound_bound.
  destruct Hbad as [->|[[t ->] ->]]; reflexivity.
Qed.

End ListingPage.

(** Witness of [list_messages_page]: the first page of two messages of
    the demo store. *)
Lemma list_messages_page_witness :
  exists names,
    List.length names
    = List.length (listed_rows None None None None None 2 0 (World.db demo_world))
    /\ fst (@list_messages demo_library None None None None None 2 0 false 1 1 demo_world)
       = Ok (match listed_rows None None None None None 2 0 (World.db demo_world) with
             | [] => "No messages to display."
             | _ :: _ =>
                 join_lines
                   (map (fun p => @message_line demo_library (to_message (fst p)) true
                                    (snd p))
                        (combine (listed_rows None None None None None 2 0
                                    (World.db demo_world)) names))
             end)
    /\ Forall (fun p => Msg.direction (Row.columns (fst p)) = "outbound" ->
                        snd p = Some "Me")
              (combine (listed_rows None None None None None 2 0 (World.db demo_world))
                       names).
Proof.
  apply (@list_messages_page demo_library None None None None None 2 0 1 1 None None
           demo_world); first [reflexivity | lia].
Defined.

(** Witness of [list_messages_unparsed_bound]: a lower bound that is no date. *)
Lemma list_messages_unparsed_bound_witness :
  @list_messages demo_library (Some "yesterday") None None None None 20 0 true 1 1
    demo_world
  = (Ok ("Error: " ++ "Invalid isoformat string: yesterday")%string,
     World.add_stdout ("Database error: " ++ "Invalid isoformat string: yesterday")%string
       (World.set_client true demo_world)).
Proof.
  apply (@list_messages_unparsed_bound demo_library (Some "yesterday") None None None None
           20 0 true 1 1 (ValueError "Invalid isoformat string: yesterday") demo_world).
  - reflexivity.
  - left. reflexivity.
Defined.

(** ** What [search_contacts] finds *)

Lemma insert_by_length {A} (le : A -> A -> bool) (x : A) (l : list A) :
  List.length (insert_by le x l) = S (List.length l).
Proof.
  induction l as [|y l IH]; simpl; [reflexivity|].
  destruct (le x y); simpl; [reflexivity|]. rewrite IH. reflexivity.
Qed.

Lemma order_by_length {A} (le : A -> A -> bool) (l : list A) :
  List.length (order_by le l) = List.length l.
Proof.
  induction l as [|x l IH]; simpl; [reflexivity|].
  fold (order_by le l). rewrite insert_by_length, IH. reflexivity.
Qed.

Lemma like_literal_eq (q t : string) :
  all_literal q = true -> like q t = (t =? q)%string.
Proof.
  revert t. induction q as [|c q IH]; intros t H.
  - destruct t; reflexivity.
  - simpl in H. apply andb_true_iff in H as [Hc Hq].
    rewrite like_literal by exact Hc.
    destruct t as [|d t]; [reflexivity|].
    rewrite IH by exact Hq. simpl. rewrite Ascii.eqb_sym.
    destruct (d =? c)%char; reflexivity.
Qed.

Lemma like_suffix (q t : string) :
  all_literal q = true -> like (String "%" q) t = endswith t q.
Proof.
  intros H. induction t as [|d t IH].
  - rewrite like_any_run_nil, like_literal_eq by (exact H || reflexivity).
    rewrite endswith_unfold, orb_false_r. reflexivity.
  - rewrite like_any_run_cons, like_literal_eq, IH by (exact H || reflexivity).
    rewrite (endswith_unfold (String d t)). reflexivity.
Qed.

(** The group filter tests the suffix whatever the case. *)
Lemma ilike_group_lower (s : string) :
  ilike "%@g.us" s = endswith (lower s) "@g.us".
Proof.
  unfold ilike. change (lower "%@g.us") with (String "%"%char "@g.us").
  apply like_suffix. reflexivity.
Qed.

(** As long as no more than 50 conversations match, [search_contacts]
    finds every WhatsApp conversation whose identifier contains the query
    (a value of a filter list without pattern characters, case ignored)
    and does not end in the group suffix, in whatever case that is
    written. *)
Theorem search_contacts_finds :
  forall (query : string) (w : World.t) (c : Conv.row),
    ready w = true -> next_fault w = None ->
    or_value query = true -> all_literal query = true ->
    (List.length (contact_rows (World.db w) query) <= 50)%nat ->
    In c (Store.conversations (World.db w)) ->
    is_whatsapp (Conv.channel c) = true ->
    endswith (lower (Conv.contact_identifier c)) "@g.us" = false ->
    contains (lower query) (lower (Conv.contact_identifier c)) = true ->
    exists contacts,
      fst (search_contacts query w) = Ok contacts
      /\ In (to_contact c) contacts.
Proof.
  intros query w c Hr Hf _ Hlit Hlen Hin Hw Hg Hc.
  unfold search_contacts, try_except, bind.
  rewrite get_supabase_ready by assumption.
  unfold contacts_matching.
  rewrite execute_reading by assumption.
  rewrite limit_ok by lia. rewrite db_set_client.
  fold (contact_rows (World.db w) query).
  rewrite firstn_all2 by (rewrite order_by_length; exact Hlen).
  eexists. split; [reflexivity|].
  apply in_map, in_order_by, filter_In. split; [exact Hin|].
  rewrite Hw, ilike_group_lower, Hg, ilike_contains, Hc by exact Hlit.
  rewrite orb_true_r. reflexivity.
Qed.

(** Witness of [search_contacts_finds]: Alice is found by a part of her
    number. *)
Lemma search_contacts_finds_witness :
  exists contacts,
    fst (search_contacts "123" demo_world) = Ok contacts
    /\ In (to_contact alice) contacts.
Proof.
  apply (search_contacts_finds "123" demo_world alice);
    first [reflexivity | (vm_compute; lia) | (left; reflexivity)].
Defined.
